(** * The documentation generator and the updater of the plugin marketplace

    A shallow embedding of [doc_generator.py]: the template engine
    [SimpleTemplate.render] and the context builder
    [DocGenerator.build_context], with the properties the specification
    states about them; then the rest of the generator
    ([extract_frontmatter], [render_template], [generate_all]) and the
    methods of [marketplace_update.py], with properties read off the code.

    - Text is a [string] of 8-bit code points (the Latin-1 range of a
      Python [str]); [\s], [\w] and [.] are the classes the [re] module
      uses on that range.
    - The patterns of the generator are run by a backtracking matcher
      ([exec]) with the priorities of [re]: a greedy repetition tries the
      longest run first, a lazy one the shortest.
    - Context values are the JSON-shaped values a marketplace document
      holds: [None], booleans, integers (converted to decimal without the
      interpreter's limit on digits), strings, lists and dicts.  There are
      no floating point numbers.  A dict is an association list in
      insertion order, the order [items()] iterates in.
    - What can raise is in the [result] monad: [d[k]] on a missing key,
      a missing group of a match, an operation on a value of the wrong
      type.
    - [render] is given twice: on values ([render]), and on a store of
      objects ([render_st]) in which the copy of the context made by the
      loop is an allocation and the binding of the loop variable a write.
      The two are proved to agree.
    - [generate_all] is given with what it prints and writes, as a list of
      events in the order of the statements.  The paths of a generator
      are relative paths, held by their parts; [json.load] is a function
      from texts to documents, and whether a file can be written is a
      predicate on its path and content.
    - The methods of [MarketplaceUpdater] are in a state monad over the
      updater and the file of the catalog ([Updater.U]).  The file is
      missing, cannot be opened, is not JSON, or holds a document, and a
      document that is saved is read back as it was saved.  The line a
      method prints when it has succeeded is left out.  The [Path]
      arithmetic and [Path.exists] of [validate] are parameters of it. *)

From Stdlib Require Import String Ascii List ZArith Bool Arith Lia DecimalString.
Import ListNotations.
Set Warnings "-register-all".
Arguments Ascii.eqb : simpl nomatch.
Open Scope string_scope.

(* ##################################################################### *)
(** * Part I: the program *)
(* ##################################################################### *)

(* ===================================================================== *)
(** ** Exceptions *)
(* ===================================================================== *)

Inductive exn :=
| KeyError (k : string)
| IndexError
| TypeError
| AttributeError
| RecursionError
| Dangling (l : nat).

Inductive result (A : Type) :=
| Ok (a : A)
| Raise (e : exn).
Arguments Ok {A} a.
Arguments Raise {A} e.

Definition bind {A B} (r : result A) (f : A -> result B) : result B :=
  match r with
  | Ok a => f a
  | Raise e => Raise e
  end.

Notation "x <- c ;; k" := (bind c (fun x => k))
  (at level 61, c at next level, right associativity).

(* ===================================================================== *)
(** ** Text *)
(* ===================================================================== *)

Definition chr (n : nat) : ascii := ascii_of_nat n.
Definition ord (c : ascii) : nat := nat_of_ascii c.

Definition nl : string := String (chr 10) "".
Definition dquote : ascii := chr 34.
Definition squote : ascii := chr 39.
Definition backslash : ascii := chr 92.

(** [s.startswith(p)], returning what follows the prefix. *)
Fixpoint strip_prefix (p s : string) : option string :=
  match p with
  | "" => Some s
  | String a p' =>
      match s with
      | "" => None
      | String b s' => if Ascii.eqb a b then strip_prefix p' s' else None
      end
  end.

(** [sep.join(parts)]. *)
Fixpoint join (sep : string) (parts : list string) : string :=
  match parts with
  | [] => ""
  | [x] => x
  | x :: rest => x ++ sep ++ join sep rest
  end.

(** [c in s]. *)
Fixpoint mem_char (c : ascii) (s : string) : bool :=
  match s with
  | "" => false
  | String a s' => Ascii.eqb a c || mem_char c s'
  end.

(** A left-to-right scan for non-overlapping matches, as [str.replace]
    and [re.sub] perform it: at each position the matcher is tried; a match
    yields its payload and the scan resumes after it, otherwise the
    character is passed through. *)
Inductive tok (A : Type) :=
| TChr (c : ascii)
| TMatch (a : A).
Arguments TChr {A} c.
Arguments TMatch {A} a.

Fixpoint scan_go {A} (m : string -> option (A * string)) (fuel : nat)
    (s : string) : list (tok A) :=
  match fuel with
  | O => []
  | S n =>
      match s with
      | "" => []
      | String c s' =>
          match m s with
          | Some (a, rest) => TMatch a :: scan_go m n rest
          | None => TChr c :: scan_go m n s'
          end
      end
  end.

Definition scan {A} (m : string -> option (A * string)) (s : string) :=
  scan_go m (String.length s) s.

(** [s.replace(old, new)]. *)
Fixpoint splice (new : string) (ts : list (tok unit)) : string :=
  match ts with
  | [] => ""
  | TChr c :: ts' => String c (splice new ts')
  | TMatch _ :: ts' => new ++ splice new ts'
  end.

Definition find_lit (old s : string) : option (unit * string) :=
  match strip_prefix old s with
  | Some rest => Some (tt, rest)
  | None => None
  end.

Fixpoint intersperse (new s : string) : string :=
  match s with
  | "" => new
  | String c s' => new ++ String c (intersperse new s')
  end.

Definition replace (old new s : string) : string :=
  match old with
  | "" => intersperse new s
  | _ => splice new (scan (find_lit old) s)
  end.

(* ===================================================================== *)
(** ** Regular expressions *)
(* ===================================================================== *)

(** The fragment of [re] syntax the generator's patterns use: literal
    text, a repetition of a character class ([\s*], [\s+], [\w+], [.*?])
    and a capturing group around such a repetition. *)
Inductive re :=
| Lit (s : string)
| Rep (greedy : bool) (min : nat) (cls : ascii -> bool)
| Cap (greedy : bool) (min : nat) (cls : ascii -> bool).

Definition between (lo hi n : nat) : bool :=
  Nat.leb lo n && Nat.leb n hi.

(** [\s] on a [str] pattern. *)
Definition is_space (c : ascii) : bool :=
  let n := ord c in
  between 9 13 n || between 28 32 n || Nat.eqb n 133 || Nat.eqb n 160.

(** [\w] on a [str] pattern. *)
Definition is_word (c : ascii) : bool :=
  let n := ord c in
  between 48 57 n || between 65 90 n || Nat.eqb n 95 || between 97 122 n
  || Nat.eqb n 170 || Nat.eqb n 178 || Nat.eqb n 179 || Nat.eqb n 181 || Nat.eqb n 185
  || Nat.eqb n 186 || between 188 190 n || between 192 214 n
  || between 216 246 n || between 248 255 n.

(** [.] with [re.DOTALL], and without it. *)
Definition dot_all (c : ascii) : bool := true.
Definition dot (c : ascii) : bool := negb (Nat.eqb (ord c) 10).

Section Backtracking.
Context {R : Type}.

(** One repetition: the continuation [k] receives the text consumed and
    the text left.  A greedy repetition tries the longest run first, a
    lazy one the shortest. *)
Fixpoint rep (greedy : bool) (cls : ascii -> bool) (min : nat)
    (s acc : string) (k : string -> string -> option R) : option R :=
  match s with
  | String c s' =>
      if cls c then
        if greedy then
          match rep greedy cls (pred min) s' (acc ++ String c "") k with
          | Some r => Some r
          | None => match min with O => k acc s | _ => None end
          end
        else
          match (match min with O => k acc s | _ => None end) with
          | Some r => Some r
          | None => rep greedy cls (pred min) s' (acc ++ String c "") k
          end
      else match min with O => k acc s | _ => None end
  | "" => match min with O => k acc s | _ => None end
  end.
End Backtracking.

(** A match attempt at the start of [s]: the groups captured and the text
    after the match. *)
Fixpoint exec (p : list re) (groups : list string) (s : string)
    : option (list string * string) :=
  match p with
  | [] => Some (groups, s)
  | Lit l :: p' =>
      match strip_prefix l s with
      | Some s' => exec p' groups s'
      | None => None
      end
  | Rep g min cls :: p' =>
      rep g cls min s "" (fun _ rest => exec p' groups rest)
  | Cap g min cls :: p' =>
      rep g cls min s "" (fun w rest => exec p' (groups ++ [w])%list rest)
  end.

(** [re.sub(pattern, repl, string)] with a callable [repl]: the matches
    are found left to right and [repl] is called on each in that order. *)
Fixpoint expand (repl : list string -> result string)
    (ts : list (tok (list string))) : result string :=
  match ts with
  | [] => Ok ""
  | TChr c :: ts' =>
      r <- expand repl ts' ;;
      Ok (String c r)
  | TMatch g :: ts' =>
      x <- repl g ;;
      r <- expand repl ts' ;;
      Ok (x ++ r)
  end.

Definition re_sub (p : list re) (repl : list string -> result string)
    (s : string) : result string :=
  expand repl (scan (exec p []) s).

(* ===================================================================== *)
(** ** Values and their string conversion *)
(* ===================================================================== *)

(** What a context entry can hold.  A [dict] keeps its insertion order,
    which is the order [items()] iterates in. *)
Inductive value :=
| VNone
| VBool (b : bool)
| VInt (z : Z)
| VStr (s : string)
| VList (xs : list value)
| VDict (kvs : list (string * value)).

Definition context := list (string * value).

Definition hex_digit (n : nat) : ascii :=
  if Nat.ltb n 10 then chr (48 + n) else chr (87 + n).

(** [c.isprintable()]. *)
Definition is_printable (c : ascii) : bool :=
  let n := ord c in
  negb (Nat.ltb n 32 || between 127 160 n || Nat.eqb n 173).

Definition repr_char (quote c : ascii) : string :=
  if Ascii.eqb c quote || Ascii.eqb c backslash then
    String backslash (String c "")
  else if Nat.eqb (ord c) 9 then String backslash "t"
  else if Nat.eqb (ord c) 10 then String backslash "n"
  else if Nat.eqb (ord c) 13 then String backslash "r"
  else if is_printable c then String c ""
  else String backslash
         (String "x" (String (hex_digit (ord c / 16))
                        (String (hex_digit (ord c mod 16)) ""))).

Fixpoint repr_chars (quote : ascii) (s : string) : string :=
  match s with
  | "" => ""
  | String c s' => repr_char quote c ++ repr_chars quote s'
  end.

(** [repr(s)] of a [str]. *)
Definition repr_str (s : string) : string :=
  let quote :=
    if mem_char squote s && negb (mem_char dquote s) then dquote else squote in
  String quote (repr_chars quote s ++ String quote "").

Definition str_int (z : Z) : string := NilZero.string_of_int (Z.to_int z).

(** [repr(v)]. *)
Fixpoint repr (v : value) : string :=
  match v with
  | VNone => "None"
  | VBool true => "True"
  | VBool false => "False"
  | VInt z => str_int z
  | VStr s => repr_str s
  | VList xs => "[" ++ join ", " (map repr xs) ++ "]"
  | VDict kvs =>
      "{" ++ join ", " (map (fun '(k, x) => repr_str k ++ ": " ++ repr x) kvs)
          ++ "}"
  end.

(** [str(v)]. *)
Definition str (v : value) : string :=
  match v with
  | VStr s => s
  | _ => repr v
  end.

(** [bool(v)]. *)
Definition truthy (v : value) : bool :=
  match v with
  | VNone => false
  | VBool b => b
  | VInt z => negb (Z.eqb z 0)
  | VStr s => negb (String.eqb s "")
  | VList xs => match xs with [] => false | _ => true end
  | VDict kvs => match kvs with [] => false | _ => true end
  end.

(** [d.get(k)]. *)
Fixpoint lookup {A} (k : string) (d : list (string * A)) : option A :=
  match d with
  | [] => None
  | (k', x) :: d' => if String.eqb k' k then Some x else lookup k d'
  end.

(** [k in d]. *)
Definition contains {A} (k : string) (d : list (string * A)) : bool :=
  match lookup k d with
  | Some _ => true
  | None => false
  end.

(** [d[k]]. *)
Definition getitem {A} (d : list (string * A)) (k : string) : result A :=
  match lookup k d with
  | Some x => Ok x
  | None => Raise (KeyError k)
  end.

(** [d[k] = x]: an existing key keeps its place, a new one goes last. *)
Fixpoint setitem {A} (d : list (string * A)) (k : string) (x : A)
    : list (string * A) :=
  match d with
  | [] => [(k, x)]
  | (k', y) :: d' =>
      if String.eqb k' k then (k, x) :: d' else (k', y) :: setitem d' k x
  end.

(* ===================================================================== *)
(** ** SimpleTemplate.render *)
(* ===================================================================== *)

(** [f"{{{{ {key} }}}}"]. *)
Definition var_ref (key : string) : string := "{{ " ++ key ++ " }}".

(** [r'{%\s*for\s+(\w+)\s+in\s+(\w+)\s*%}(.*?){%\s*endfor\s*%}'],
    compiled with [re.DOTALL]. *)
Definition for_pattern : list re :=
  [ Lit "{%"; Rep true 0 is_space; Lit "for"; Rep true 1 is_space;
    Cap true 1 is_word; Rep true 1 is_space; Lit "in"; Rep true 1 is_space;
    Cap true 1 is_word; Rep true 0 is_space; Lit "%}";
    Cap false 0 dot_all;
    Lit "{%"; Rep true 0 is_space; Lit "endfor"; Rep true 0 is_space;
    Lit "%}" ].

(** [r'{%\s*if\s+(\w+)\s*%}(.*?){%\s*endif\s*%}'], with [re.DOTALL]. *)
Definition if_pattern : list re :=
  [ Lit "{%"; Rep true 0 is_space; Lit "if"; Rep true 1 is_space;
    Cap true 1 is_word; Rep true 0 is_space; Lit "%}";
    Cap false 0 dot_all;
    Lit "{%"; Rep true 0 is_space; Lit "endif"; Rep true 0 is_space;
    Lit "%}" ].

(** [r'{%.*?%}'] and [r'{{.*?}}'], compiled without flags. *)
Definition block_pattern : list re := [ Lit "{%"; Rep false 0 dot; Lit "%}" ].
Definition var_pattern : list re := [ Lit "{{"; Rep false 0 dot; Lit "}}" ].

(** The replacements of one iteration of the loop of [replace_for]: what
    [body_result] is when [output.append] receives it. *)
Definition item_text (var_name loop_body : string) (item : value) : string :=
  match item with
  | VDict fields =>
      fold_left
        (fun body_result '(k, v) =>
           replace (var_ref (var_name ++ "." ++ k)) (str v) body_result)
        fields loop_body
  | _ => replace (var_ref var_name) (str item) loop_body
  end.

(** The body of the [for item in items] loop of [replace_for]. *)
Definition loop_item (ctx : context) (var_name loop_body : string)
    (item : value) : string :=
  let loop_context := setitem ctx var_name item in
  item_text var_name loop_body item.

Definition replace_for (ctx : context) (groups : list string)
    : result string :=
  match groups with
  | [var_name; list_name; loop_body] =>
      if negb (contains list_name ctx) then Ok ""
      else
        items <- getitem ctx list_name ;;
        match items with
        | VList xs => Ok (join "" (map (loop_item ctx var_name loop_body) xs))
        | _ => Ok ""
        end
  | _ => Raise IndexError
  end.

Definition replace_if (ctx : context) (groups : list string)
    : result string :=
  match groups with
  | [condition; body] =>
      if contains condition ctx then
        c <- getitem ctx condition ;;
        if truthy c then Ok body else Ok ""
      else Ok ""
  | _ => Raise IndexError
  end.

(** The first stage of [render]: one [replace] per context entry, in the
    order of [context.items()]. *)
Definition substitute (ctx : context) (template : string) : string :=
  fold_left (fun result '(key, v) => replace (var_ref key) (str v) result)
    ctx template.

Definition render (template : string) (ctx : context) : result string :=
  let result := substitute ctx template in
  result <- re_sub for_pattern (replace_for ctx) result ;;
  result <- re_sub if_pattern (replace_if ctx) result ;;
  result <- re_sub block_pattern (fun _ => Ok "") result ;;
  result <- re_sub var_pattern (fun _ => Ok "") result ;;
  Ok result.

Arguments replace : simpl never.
Arguments re_sub : simpl never.
Arguments var_ref : simpl never.

(* ===================================================================== *)
(** ** Properties of matchers *)
(* ===================================================================== *)

(** A matcher that consumes at least one character. *)
Definition shrinks {A} (m : string -> option (A * string)) : Prop :=
  forall s a r, m s = Some (a, r) -> String.length r < String.length s.

(* ===================================================================== *)
(** ** Classes of text *)
(* ===================================================================== *)

(** [all(cls(c) for c in s)]. *)
Fixpoint all_chars (cls : ascii -> bool) (s : string) : bool :=
  match s with
  | "" => true
  | String c s' => cls c && all_chars cls s'
  end.



(** The groups a pattern captures. *)
Fixpoint ngroups (p : list re) : nat :=
  match p with
  | [] => 0
  | Cap _ _ _ :: p' => S (ngroups p')
  | _ :: p' => ngroups p'
  end.

Definition prepend (pre : string) (r : result string) : result string :=
  x <- r ;; Ok (pre ++ x).

(* ===================================================================== *)
(** ** Scalar references *)
(* ===================================================================== *)

(** Text free of braces. *)
Definition plain (s : string) : bool :=
  negb (mem_char "{" s) && negb (mem_char "}" s).

(** Text free of line feeds: what [.] runs over without [re.DOTALL]. *)
Definition one_line (s : string) : bool := all_chars dot s.

(** No ["{%"] occurs in the text. *)
Fixpoint no_open (s : string) : bool :=
  match s with
  | "" => true
  | String c s' =>
      negb (Ascii.eqb c "{"
            && match s' with String d _ => Ascii.eqb d "%" | "" => false end)
      && no_open s'
  end.


(* ===================================================================== *)
(** ** Templates as sequences of pieces *)
(* ===================================================================== *)

(** A template read as brace-free text, [{% ... %}] tags and
    [{{ name }}] references. *)
Inductive piece :=
| Text (s : string)
| Tag (s : string)
| Ref (name : string).

Definition tag (s : string) : string := "{%" ++ s ++ "%}".
Arguments tag : simpl never.

Definition piece_src (p : piece) : string :=
  match p with
  | Text s => s
  | Tag s => tag s
  | Ref name => var_ref name
  end.

Fixpoint text (ps : list piece) : string :=
  match ps with
  | [] => ""
  | p :: ps' => piece_src p ++ text ps'
  end.









(* ===================================================================== *)
(** ** Loop and conditional blocks *)
(* ===================================================================== *)





(* ===================================================================== *)
(** ** Loop bodies *)
(* ===================================================================== *)

(** A loop body over the variable [v]: brace-free text, [{{ v }}] and
    [{{ v.field }}]. *)
Inductive loop_piece :=
| LText (s : string)
| LVar
| LField (f : string).

Definition field_ref (v f : string) : string := v ++ "." ++ f.

Definition to_piece (v : string) (lp : loop_piece) : piece :=
  match lp with
  | LText s => Text s
  | LVar => Ref v
  | LField f => Ref (field_ref v f)
  end.

Definition loop_body (v : string) (lps : list loop_piece) : string :=
  text (map (to_piece v) lps).






(** [pat in s]. *)
Fixpoint occurs (pat s : string) : bool :=
  match strip_prefix pat s with
  | Some _ => true
  | None =>
      match s with
      | "" => false
      | String _ s' => occurs pat s'
      end
  end.





(* ===================================================================== *)
(** ** A loop variable shadowed by a key of the context *)
(* ===================================================================== *)



(* ===================================================================== *)
(** ** Blocks inside blocks *)
(* ===================================================================== *)


(* ===================================================================== *)
(** ** Directive syntax left in the output *)
(* ===================================================================== *)

(** A [{{...}}] span and a [{%...%}] span in a text. *)
Definition has_var_span (s : string) : bool :=
  occurs "{{" s && occurs "}}" s.
Definition has_block_span (s : string) : bool :=
  occurs "{%" s && occurs "%}" s.

(* ===================================================================== *)
(** ** DocGenerator.build_context *)
(* ===================================================================== *)

(** [s.lstrip(chars)], [s.rstrip(chars)] and [s.strip(chars)], the set of
    characters given as a class. *)
Fixpoint lstrip_chars (cls : ascii -> bool) (s : string) : string :=
  match s with
  | "" => ""
  | String c s' => if cls c then lstrip_chars cls s' else s
  end.

Fixpoint rstrip_chars (cls : ascii -> bool) (s : string) : string :=
  match s with
  | "" => ""
  | String c s' =>
      match rstrip_chars cls s' with
      | "" => if cls c then "" else String c ""
      | r => String c r
      end
  end.

Definition strip_chars (cls : ascii -> bool) (s : string) : string :=
  rstrip_chars cls (lstrip_chars cls s).

(** [s.split(sep)] for a separator of one character. *)
Fixpoint split_on (sep : ascii) (s : string) : list string :=
  match s with
  | "" => [""]
  | String c s' =>
      if Ascii.eqb c sep then "" :: split_on sep s'
      else match split_on sep s' with
           | x :: xs => String c x :: xs
           | [] => [String c ""]
           end
  end.

(** [s.split(sep, 1)] when [sep in s]. *)
Fixpoint split_once (sep : ascii) (s : string) : option (string * string) :=
  match s with
  | "" => None
  | String c s' =>
      if Ascii.eqb c sep then Some ("", s')
      else match split_once sep s' with
           | Some (a, b) => Some (String c a, b)
           | None => None
           end
  end.

(** What a path names: a file that can be read, or something [open] or
    [read] fails on. *)
Inductive file :=
| Readable (content : string)
| Unreadable.

(** The files under the working directory, by relative path. *)
Definition filesystem := string -> option file.

(** The parts of a relative [Path]: empty parts and ["."] are dropped. *)
Definition path_parts (s : string) : list string :=
  filter (fun p => negb (String.eqb p "" || String.eqb p "."))
    (split_on "/" s).

Definition path_str (parts : list string) : string :=
  match parts with
  | [] => "."
  | _ => join "/" parts
  end.

(** [r'^---\s*\n(.*?)\n---\s*\n'], with [re.DOTALL]. *)
Definition frontmatter_pattern : list re :=
  [ Lit "---"; Rep true 0 is_space; Lit nl; Cap false 0 dot_all;
    Lit (nl ++ "---"); Rep true 0 is_space; Lit nl ].

Definition is_quote (c : ascii) : bool :=
  Ascii.eqb c dquote || Ascii.eqb c squote.

Definition extract_frontmatter (fs : filesystem) (file_path : string)
    : list (string * string) :=
  match fs file_path with
  | None => []
  | Some Unreadable => []
  | Some (Readable content) =>
      match exec frontmatter_pattern [] content with
      | Some ([frontmatter_text], _) =>
          fold_left
            (fun frontmatter line =>
               match split_once ":" line with
               | Some (key, v) =>
                   setitem frontmatter (strip_chars is_space key)
                     (strip_chars is_quote (strip_chars is_space v))
               | None => frontmatter
               end)
            (split_on (chr 10) frontmatter_text) []
      | _ => []
      end
  end.

(** [d.get(k, default)]. *)
Definition get_or {A} (d : list (string * A)) (k : string) (default : A) : A :=
  match lookup k d with
  | Some x => x
  | None => default
  end.

(** The clock reading behind [datetime.now()]. *)
Record datetime := {
  year : nat; month : nat; day : nat;
  hour : nat; minute : nat; second : nat
}.

Definition pad2 (n : nat) : string :=
  (if Nat.ltb n 10 then "0" else "") ++ str_int (Z.of_nat n).

(** [t.strftime("%Y-%m-%d %H:%M:%S")], for a year of four digits. *)
Definition strftime (t : datetime) : string :=
  str_int (Z.of_nat (year t)) ++ "-" ++ pad2 (month t) ++ "-" ++ pad2 (day t)
  ++ " " ++ pad2 (hour t) ++ ":" ++ pad2 (minute t) ++ ":" ++ pad2 (second t).

(** What [for x in v] iterates over. *)
Definition iterate (v : value) : result (list value) :=
  match v with
  | VList xs => Ok xs
  | VStr s => Ok (map (fun c => VStr (String c "")) (list_ascii_of_string s))
  | VDict kvs => Ok (map (fun kv => VStr (fst kv)) kvs)
  | _ => Raise TypeError
  end.

Definition as_str (v : value) : result string :=
  match v with
  | VStr s => Ok s
  | _ => Raise AttributeError
  end.

Definition as_dict (v : value) : result (list (string * value)) :=
  match v with
  | VDict kvs => Ok kvs
  | _ => Raise AttributeError
  end.

(** [context[k].append(x)]. *)
Definition append_to (ctx : context) (k : string) (x : value)
    : result context :=
  l <- getitem ctx k ;;
  match l with
  | VList xs => Ok (setitem ctx k (VList (xs ++ [x])))
  | _ => Raise AttributeError
  end.

(** [context["stats"][k] += n]. *)
Definition stat_add (ctx : context) (k : string) (n : nat) : result context :=
  stats <- getitem ctx "stats" ;;
  stats <- as_dict stats ;;
  old <- getitem stats k ;;
  match old with
  | VInt z =>
      Ok (setitem ctx "stats" (VDict (setitem stats k (VInt (z + Z.of_nat n)))))
  | _ => Raise TypeError
  end.

(** [context["stats"][k] = n]. *)
Definition stat_set (ctx : context) (k : string) (n : nat) : result context :=
  stats <- getitem ctx "stats" ;;
  stats <- as_dict stats ;;
  Ok (setitem ctx "stats" (VDict (setitem stats k (VInt (Z.of_nat n))))).

(** The [if category not in ...] test and the [append] that follows it.
    A category that is not a string is unhashable or is not a key a
    [VDict] holds; both raise here. *)
Definition file_under (ctx : context) (category plugin : value)
    : result context :=
  match category with
  | VStr c =>
      by_category <- getitem ctx "plugins_by_category" ;;
      by_category <- as_dict by_category ;;
      let by_category :=
        if negb (contains c by_category) then setitem by_category c (VList [])
        else by_category in
      members <- getitem by_category c ;;
      match members with
      | VList xs =>
          Ok (setitem ctx "plugins_by_category"
                (VDict (setitem by_category c (VList (xs ++ [plugin])))))
      | _ => Raise AttributeError
      end
  | _ => Raise TypeError
  end.

Fixpoint for_each {A} (f : context -> A -> result context) (xs : list A)
    (ctx : context) : result context :=
  match xs with
  | [] => Ok ctx
  | x :: xs' =>
      ctx <- f ctx x ;;
      for_each f xs' ctx
  end.

(** One of the three component loops of a plugin: [kind] is ["agents"],
    ["commands"] or ["skills"]. *)
Definition collect (fs : filesystem) (plugin : list (string * value))
    (plugin_name : value) (kind target total : string)
    (entry : string -> list (string * string) -> list (string * value))
    (leaf : list string) (ctx : context) : result context :=
  if contains kind plugin then
    paths <- getitem plugin kind ;;
    items <- iterate paths ;;
    ctx <- for_each
             (fun ctx item_path =>
                item_path <- as_str item_path ;;
                let item_file := replace ("./" ++ kind ++ "/") "" item_path in
                let full_path :=
                  path_str (path_parts ("plugins/" ++ str plugin_name)
                            ++ path_parts
                                 (lstrip_chars
                                    (fun c => Ascii.eqb c "." || Ascii.eqb c "/")
                                    item_path)
                            ++ leaf)%list in
                let frontmatter := extract_frontmatter fs full_path in
                append_to ctx target (VDict (entry item_file frontmatter)))
             items ctx ;;
    stat_add ctx total (List.length items)
  else Ok ctx.

Definition frontmatter_str (frontmatter : list (string * string))
    (k default : string) : value :=
  VStr (get_or frontmatter k default).

Definition build_plugin (fs : filesystem) (ctx : context) (plugin : value)
    : result context :=
  plugin <- as_dict plugin ;;
  let category := get_or plugin "category" (VStr "general") in
  ctx <- file_under ctx category (VDict plugin) ;;
  let plugin_name := get_or plugin "name" (VStr "") in
  ctx <- collect fs plugin plugin_name "agents" "all_agents" "total_agents"
           (fun agent_file frontmatter =>
              [ ("plugin", plugin_name);
                ("name", frontmatter_str frontmatter "name"
                           (replace ".md" "" agent_file));
                ("file", VStr agent_file);
                ("description", frontmatter_str frontmatter "description" "");
                ("model", frontmatter_str frontmatter "model" "") ])
           [] ctx ;;
  ctx <- collect fs plugin plugin_name "commands" "all_commands"
           "total_commands"
           (fun cmd_file frontmatter =>
              [ ("plugin", plugin_name);
                ("name", frontmatter_str frontmatter "name"
                           (replace ".md" "" cmd_file));
                ("file", VStr cmd_file);
                ("description", frontmatter_str frontmatter "description" "") ])
           [] ctx ;;
  collect fs plugin plugin_name "skills" "all_skills" "total_skills"
    (fun skill_name frontmatter =>
       [ ("plugin", plugin_name);
         ("name", frontmatter_str frontmatter "name" skill_name);
         ("path", VStr skill_name);
         ("description", frontmatter_str frontmatter "description" "") ])
    ["SKILL.md"] ctx.

Definition build_context (marketplace_data : list (string * value))
    (fs : filesystem) (clock : datetime) : result context :=
  let context :=
    [ ("marketplace", VDict marketplace_data);
      ("now", VStr (strftime clock));
      ("plugins_by_category", VDict []);
      ("all_agents", VList []);
      ("all_skills", VList []);
      ("all_commands", VList []);
      ("stats", VDict [ ("total_plugins", VInt 0); ("total_agents", VInt 0);
                        ("total_commands", VInt 0); ("total_skills", VInt 0) ])
    ] in
  if negb (contains "plugins" marketplace_data) then Ok context
  else
    plugins <- getitem marketplace_data "plugins" ;;
    items <- iterate plugins ;;
    context <- stat_set context "total_plugins" (List.length items) ;;
    for_each (build_plugin fs) items context.

(* ===================================================================== *)
(** ** The clock in [build_context] *)
(* ===================================================================== *)



(* ===================================================================== *)
(** ** [render] over a store of objects *)
(* ===================================================================== *)

(** The same [render], with the objects it is handed kept in a store:
    lists and dicts live at addresses and values refer to them, so that
    the copy [render] makes of the context and the item it stores in the
    copy are visible as allocations and writes. *)
Definition loc := nat.

Inductive hval :=
| HNone
| HBool (b : bool)
| HInt (z : Z)
| HStr (s : string)
| HRef (l : loc).

Inductive obj :=
| OList (xs : list hval)
| ODict (kvs : list (string * hval)).

Definition heap := list obj.

(** A computation on the store; what it has written stays when it
    raises. *)
Definition M (A : Type) : Type := heap -> result A * heap.

Definition ret_st {A} (a : A) : M A := fun h => (Ok a, h).
Definition raise_st {A} (e : exn) : M A := fun h => (Raise e, h).
Definition of_result {A} (r : result A) : M A := fun h => (r, h).

Definition bind_st {A B} (m : M A) (k : A -> M B) : M B :=
  fun h =>
    match m h with
    | (Ok a, h') => k a h'
    | (Raise e, h') => (Raise e, h')
    end.

Notation "x <~ c ;; k" := (bind_st c (fun x => k))
  (at level 61, c at next level, right associativity).

Definition alloc (o : obj) : M loc :=
  fun h => (Ok (List.length h), (h ++ [o])%list).

Definition load (l : loc) : M obj :=
  fun h =>
    match nth_error h l with
    | Some o => (Ok o, h)
    | None => (Raise (Dangling l), h)
    end.

Fixpoint update {A} (n : nat) (x : A) (xs : list A) : list A :=
  match xs with
  | [] => []
  | y :: xs' =>
      match n with
      | O => x :: xs'
      | S n' => y :: update n' x xs'
      end
  end.

Definition store (l : loc) (o : obj) : M unit :=
  fun h =>
    match nth_error h l with
    | Some _ => (Ok tt, update l o h)
    | None => (Raise (Dangling l), h)
    end.

Fixpoint all_some {A} (xs : list (option A)) : option (list A) :=
  match xs with
  | [] => Some []
  | None :: _ => None
  | Some x :: xs' =>
      match all_some xs' with
      | Some r => Some (x :: r)
      | None => None
      end
  end.

(** The value an [hval] stands for, followed through the store to the
    depth [fuel]. *)
Fixpoint lift (fuel : nat) (h : heap) (v : hval) : option value :=
  match v with
  | HNone => Some VNone
  | HBool b => Some (VBool b)
  | HInt z => Some (VInt z)
  | HStr s => Some (VStr s)
  | HRef l =>
      match fuel with
      | O => None
      | S n =>
          match nth_error h l with
          | Some (OList xs) => option_map VList (all_some (map (lift n h) xs))
          | Some (ODict kvs) =>
              option_map VDict
                (all_some
                   (map (fun kv => option_map (pair (fst kv))
                                     (lift n h (snd kv))) kvs))
          | None => None
          end
      end
  end.

(** A read of a whole value: [str(v)], [bool(v)], [v.items()]. *)
Definition read (fuel : nat) (v : hval) : M value :=
  fun h =>
    match lift fuel h v with
    | Some x => (Ok x, h)
    | None => (Raise RecursionError, h)
    end.

Definition dict_of (l : loc) : M (list (string * hval)) :=
  o <~ load l ;;
  match o with
  | ODict kvs => ret_st kvs
  | OList _ => raise_st AttributeError
  end.

Fixpoint substitute_st (fuel : nat) (items : list (string * hval))
    (result : string) : M string :=
  match items with
  | [] => ret_st result
  | (key, v) :: rest =>
      x <~ read fuel v ;;
      substitute_st fuel rest (replace (var_ref key) (str x) result)
  end.

(** One iteration of the loop of [replace_for]: [context.copy()] is a new
    dict and [loop_context[var_name] = item] writes to it. *)
Definition loop_item_st (fuel : nat) (ctx : loc) (var_name loop_body : string)
    (item : hval) : M string :=
  d <~ dict_of ctx ;;
  loop_context <~ alloc (ODict d) ;;
  d' <~ dict_of loop_context ;;
  _ <~ store loop_context (ODict (setitem d' var_name item)) ;;
  x <~ read fuel item ;;
  ret_st (item_text var_name loop_body x).

(** The [for item in items] loop, [output] being the list it fills. *)
Fixpoint loop_st (f : hval -> M string) (items : list hval)
    (output : list string) : M (list string) :=
  match items with
  | [] => ret_st output
  | item :: rest =>
      s <~ f item ;;
      loop_st f rest (output ++ [s])%list
  end.

Definition replace_for_st (fuel : nat) (ctx : loc) (groups : list string)
    : M string :=
  match groups with
  | [var_name; list_name; loop_body] =>
      d <~ dict_of ctx ;;
      if negb (contains list_name d) then ret_st ""
      else
        items <~ of_result (getitem d list_name) ;;
        match items with
        | HRef l =>
            o <~ load l ;;
            match o with
            | OList xs =>
                output <~ loop_st (loop_item_st fuel ctx var_name loop_body)
                            xs [] ;;
                ret_st (join "" output)
            | ODict _ => ret_st ""
            end
        | _ => ret_st ""
        end
  | _ => raise_st IndexError
  end.

Definition replace_if_st (fuel : nat) (ctx : loc) (groups : list string)
    : M string :=
  match groups with
  | [condition; body] =>
      d <~ dict_of ctx ;;
      if contains condition d then
        c <~ of_result (getitem d condition) ;;
        x <~ read fuel c ;;
        if truthy x then ret_st body else ret_st ""
      else ret_st ""
  | _ => raise_st IndexError
  end.

Fixpoint expand_st (repl : list string -> M string)
    (ts : list (tok (list string))) : M string :=
  match ts with
  | [] => ret_st ""
  | TChr c :: ts' =>
      r <~ expand_st repl ts' ;;
      ret_st (String c r)
  | TMatch g :: ts' =>
      x <~ repl g ;;
      r <~ expand_st repl ts' ;;
      ret_st (x ++ r)
  end.

Definition re_sub_st (p : list re) (repl : list string -> M string)
    (s : string) : M string :=
  expand_st repl (scan (exec p []) s).

Definition render_st (fuel : nat) (template : string) (ctx : loc) : M string :=
  d <~ dict_of ctx ;;
  result <~ substitute_st fuel d template ;;
  result <~ re_sub_st for_pattern (replace_for_st fuel ctx) result ;;
  result <~ re_sub_st if_pattern (replace_if_st fuel ctx) result ;;
  result <~ re_sub_st block_pattern (fun _ => ret_st "") result ;;
  result <~ re_sub_st var_pattern (fun _ => ret_st "") result ;;
  ret_st result.

(** A store with the context of the loop of the specification at address
    2: the list [[1, 2, 3]] at 0 and a record at 1. *)
Definition sample_heap : heap :=
  [ OList [HInt 1; HInt 2; HInt 3];
    ODict [("name", HStr "a")];
    ODict [("items", HRef 0); ("p", HRef 1); ("show", HBool true)] ].

(** A computation that leaves every object of the store as it was and at
    most adds new ones. *)
Definition grows {A} (m : M A) : Prop :=
  forall h, exists fresh, snd (m h) = (h ++ fresh)%list.

(** [h] holds the objects of [h0] and possibly more. *)
Definition ext (h0 h : heap) : Prop := exists fresh, h = (h0 ++ fresh)%list.

(** From any store that extends [h0], [m] gives [r] and leaves a store
    that extends [h0]. *)
Definition runs_to (h0 : heap) {A} (m : M A) (r : result A) : Prop :=
  forall h, ext h0 h -> exists h', ext h0 h' /\ m h = (r, h').

(** The entries of a dict of the store and the entries they stand for. *)
Definition entries (n : nat) (h : heap) (d : list (string * hval))
    (c : context) : Prop :=
  all_some (map (fun kv => option_map (pair (fst kv)) (lift n h (snd kv))) d)
  = Some c.

(** The context at [ctx], of entries [d], standing for [c]. *)
Definition holds_context (h0 : heap) (n : nat) (ctx : loc)
    (d : list (string * hval)) (c : context) : Prop :=
  nth_error h0 ctx = Some (ODict d) /\ entries n h0 d c.




(* ===================================================================== *)
(** ** Frontmatter written out *)
(* ===================================================================== *)

(** The body of the loop over the lines of a frontmatter block. *)
Definition parse_line (frontmatter : list (string * string)) (line : string)
    : list (string * string) :=
  match split_once ":" line with
  | Some (key, v) =>
      setitem frontmatter (strip_chars is_space key)
        (strip_chars is_quote (strip_chars is_space v))
  | None => frontmatter
  end.

(** A field as a line of a frontmatter block: [key: value]. *)
Definition field_line (kv : string * string) : string :=
  fst kv ++ ": " ++ snd kv.

(** A field that can be written on one line and read back: no colon in
    the key, no line break in either part, no space around either part, no
    quote around the value, and a key that does not look like the closing
    delimiter. *)
Definition field_ok (kv : string * string) : bool :=
  negb (mem_char ":" (fst kv)) && negb (mem_char (chr 10) (fst kv))
  && String.eqb (strip_chars is_space (fst kv)) (fst kv)
  && match strip_prefix "---" (fst kv) with Some _ => false | None => true end
  && negb (mem_char (chr 10) (snd kv))
  && String.eqb (strip_chars is_space (snd kv)) (snd kv)
  && String.eqb (strip_chars is_quote (snd kv)) (snd kv).

(** A markdown file with the fields as its frontmatter. *)
Definition with_frontmatter (kvs : list (string * string)) (rest : string)
    : string :=
  "---" ++ nl ++ join nl (map field_line kvs) ++ nl ++ "---" ++ nl ++ rest.

(* ===================================================================== *)
(** ** The context of [build_context], by its parts *)
(* ===================================================================== *)

(** What [build_context] fills in: the categories, the three lists and
    the four counters. *)
Record parts := {
  by_category : list (string * value);
  all_agents : list value;
  all_skills : list value;
  all_commands : list value;
  total_plugins : Z;
  total_agents : Z;
  total_commands : Z;
  total_skills : Z
}.

(** The dict literal of [build_context], with the parts in their places. *)
Definition context_of (marketplace now : value) (p : parts) : context :=
  [ ("marketplace", marketplace);
    ("now", now);
    ("plugins_by_category", VDict (by_category p));
    ("all_agents", VList (all_agents p));
    ("all_skills", VList (all_skills p));
    ("all_commands", VList (all_commands p));
    ("stats", VDict [ ("total_plugins", VInt (total_plugins p));
                      ("total_agents", VInt (total_agents p));
                      ("total_commands", VInt (total_commands p));
                      ("total_skills", VInt (total_skills p)) ]) ].


(** The three kinds of component a plugin lists. *)
Inductive component := Agent | Command | Skill.

Definition kind_of (k : component) : string :=
  match k with Agent => "agents" | Command => "commands" | Skill => "skills" end.







(* ===================================================================== *)
(** ** DocGenerator: loading, rendering and writing *)
(* ===================================================================== *)

(** What the generator and the updater raise besides the exceptions of
    [render] and [build_context]. *)
Inductive error :=
| FileNotFoundError (path : string)
| ValueError (msg : string)
| JSONDecodeError
| OSError (path : string)
| Exn (e : exn).

Inductive outcome (A : Type) :=
| Done (a : A)
| Failed (e : error).
Arguments Done {A} a.
Arguments Failed {A} e.

(** The three paths a [DocGenerator] is made with.  They are relative
    paths, held by their parts as a [Path] holds them. *)
Record DocGenerator := {
  marketplace_path : list string;
  templates_dir : list string;
  output_dir : list string
}.

(** [json.load]: a text is a JSON document or is not. *)
Definition json := string -> option value.

(** [load_marketplace]: the catalog read from the file. *)
Definition load_marketplace (self : DocGenerator) (fs : filesystem)
    (loads : json) : outcome value :=
  let path := path_str (marketplace_path self) in
  match fs path with
  | None => Failed (FileNotFoundError path)
  | Some Unreadable => Failed (OSError path)
  | Some (Readable text) =>
      match loads text with
      | Some data => Done data
      | None => Failed JSONDecodeError
      end
  end.

Definition no_parts : parts :=
  {| by_category := []; all_agents := []; all_skills := [];
     all_commands := [];
     total_plugins := 0; total_agents := 0; total_commands := 0;
     total_skills := 0 |}.

(** [build_context] on whatever the file held.  A document that is not an
    object is tested with [in] as a list or a string is, and cannot be
    indexed by ["plugins"]. *)
Definition build_context_any (marketplace_data : value) (fs : filesystem)
    (clock : datetime) : result context :=
  let context :=
    context_of marketplace_data (VStr (strftime clock)) no_parts in
  match marketplace_data with
  | VDict d => build_context d fs clock
  | VList xs =>
      if existsb (fun x => match x with
                           | VStr s => String.eqb s "plugins"
                           | _ => false
                           end) xs
      then Raise TypeError else Ok context
  | VStr s => if occurs "plugins" s then Raise TypeError else Ok context
  | _ => Raise TypeError
  end.

(** [render_template]. *)
Definition render_template (self : DocGenerator) (fs : filesystem)
    (template_name : string) (ctx : context) : outcome string :=
  let template_path :=
    path_str (templates_dir self ++ [(template_name ++ ".j2")%string])%list in
  match fs template_path with
  | None => Failed (FileNotFoundError template_path)
  | Some Unreadable => Failed (OSError template_path)
  | Some (Readable template_content) =>
      match render template_content ctx with
      | Ok s => Done s
      | Raise e => Failed (Exn e)
      end
  end.

(** What [generate_all] prints, by the statement that prints it, and the
    files it writes. *)
Inductive message :=
| Generating (output_file : string)
| Header (output_file : string)
| Body (s : string)
| Blank
| Generated (output_path : string)
| ErrorGenerating (output_file : string) (e : error).

Inductive event :=
| Print (m : message)
| Write (path content : string).

Definition docs_to_generate : list (string * string) :=
  [ ("agents", "agents.md");
    ("agent-skills", "agent-skills.md");
    ("plugins", "plugins.md");
    ("usage", "usage.md") ].

(** [content[:500] + "..." if len(content) > 500 else content]. *)
Definition preview (content : string) : string :=
  if Nat.ltb 500 (String.length content)
  then substring 0 500 content ++ "..."
  else content.

(** One turn of the loop of [generate_all].  [can_write] tells whether the
    directory can be made and the file written. *)
Definition generate_one (self : DocGenerator) (fs : filesystem)
    (can_write : string -> string -> bool) (dry_run : bool) (ctx : context)
    (doc : string * string) : list event :=
  let '(template_name, output_file) := doc in
  Print (Generating output_file) ::
  match render_template self fs template_name ctx with
  | Done content =>
      if dry_run then
        [ Print (Header output_file); Print (Body (preview content));
          Print Blank ]
      else
        let output_path := path_str (output_dir self ++ [output_file])%list in
        if can_write output_path content then
          [ Write output_path content; Print (Generated output_path) ]
        else [ Print (ErrorGenerating output_file (OSError output_path)) ]
  | Failed e => [ Print (ErrorGenerating output_file e) ]
  end.

(** [generate_all]: how it ends, and what it printed and wrote. *)
Definition generate_all (self : DocGenerator) (fs : filesystem)
    (loads : json) (clock : datetime) (can_write : string -> string -> bool)
    (dry_run : bool) (specific_file : option string)
    : outcome unit * list event :=
  match load_marketplace self fs loads with
  | Failed e => (Failed e, [])
  | Done marketplace_data =>
      match build_context_any marketplace_data fs clock with
      | Raise e => (Failed (Exn e), [])
      | Ok context =>
          let chosen :=
            match specific_file with
            | Some f =>
                if String.eqb f "" then Done docs_to_generate
                else match lookup f docs_to_generate with
                     | Some output_file => Done [(f, output_file)]
                     | None =>
                         Failed
                           (ValueError ("Unknown documentation file: " ++ f))
                     end
            | None => Done docs_to_generate
            end in
          match chosen with
          | Failed e => (Failed e, [])
          | Done docs =>
              (Done tt,
               flat_map (generate_one self fs can_write dry_run context) docs)
          end
      end
  end.





(* ===================================================================== *)
(** ** Operations on what a JSON document holds *)
(* ===================================================================== *)

Definition is_str (k : string) (x : value) : bool :=
  match x with
  | VStr s => String.eqb s k
  | _ => false
  end.

(** [k in v], for a string [k]: a key of a dict, an element of a list, a
    part of a string. *)
Definition has (k : string) (v : value) : result bool :=
  match v with
  | VDict d => Ok (contains k d)
  | VList xs => Ok (existsb (is_str k) xs)
  | VStr s => Ok (occurs k s)
  | _ => Raise TypeError
  end.

(** [v[k]], for a string [k]. *)
Definition subscript (v : value) (k : string) : result value :=
  match v with
  | VDict d => getitem d k
  | _ => Raise TypeError
  end.

(** [v[k] = x], for a string [k]. *)
Definition assign_item (v : value) (k : string) (x : value) : result value :=
  match v with
  | VDict d => Ok (VDict (setitem d k x))
  | _ => Raise TypeError
  end.

(** [v.get(k, default)]. *)
Definition dict_get (v : value) (k : string) (default : value)
    : result value :=
  match v with
  | VDict d => Ok (get_or d k default)
  | _ => Raise AttributeError
  end.

(** [v.append(x)]. *)
Definition list_append (v x : value) : result value :=
  match v with
  | VList xs => Ok (VList (xs ++ [x]))
  | _ => Raise AttributeError
  end.

(** [xs.remove(s)] for a string [s] that is in [xs]: the first element
    equal to it goes. *)
Fixpoint remove_str (s : string) (xs : list value) : list value :=
  match xs with
  | [] => []
  | x :: xs' => if is_str s x then xs' else x :: remove_str s xs'
  end.

(** [v.remove(s)]. *)
Definition list_remove (v : value) (s : string) : result value :=
  match v with
  | VList xs => Ok (VList (remove_str s xs))
  | _ => Raise AttributeError
  end.

(** The truth of an optional string or list argument. *)
Definition given {A} (empty : A -> bool) (x : option A) : option A :=
  match x with
  | Some a => if empty a then None else Some a
  | None => None
  end.

Definition given_str (x : option string) : option string :=
  given (fun s => String.eqb s "") x.

Definition given_list (x : option (list string)) : option (list string) :=
  given (fun l => match l with [] => true | _ => false end) x.

(** [xs[i] = x]. *)
Fixpoint set_nth (i : nat) (x : value) (xs : list value) : list value :=
  match xs, i with
  | [], _ => []
  | _ :: xs', O => x :: xs'
  | y :: xs', S i' => y :: set_nth i' x xs'
  end.

(** [del xs[i]]. *)
Fixpoint del_nth (i : nat) (xs : list value) : list value :=
  match xs, i with
  | [], _ => []
  | _ :: xs', O => xs'
  | y :: xs', S i' => y :: del_nth i' xs'
  end.

(* ===================================================================== *)
(** ** MarketplaceUpdater *)
(* ===================================================================== *)

Module Updater.

(** What is at the path of the catalog: nothing, something that cannot be
    opened, a text that is not JSON, or a JSON document. *)
Inductive stored :=
| Missing
| Broken
| Invalid (reason : string)
| Document (v : value).

(** The updater and the file it works on.  [read_only] tells that the file
    cannot be opened for writing. *)
Record MarketplaceUpdater := {
  marketplace_path : string;
  marketplace_file : stored;
  read_only : bool;
  marketplace_data : value
}.

(** A method: how it ends, and the updater and its file afterwards. *)
Definition U (A : Type) : Type :=
  MarketplaceUpdater -> outcome A * MarketplaceUpdater.

Definition ret {A} (a : A) : U A := fun self => (Done a, self).
Definition fail {A} (e : error) : U A := fun self => (Failed e, self).

Definition bind_u {A B} (m : U A) (k : A -> U B) : U B :=
  fun self =>
    match m self with
    | (Done a, self') => k a self'
    | (Failed e, self') => (Failed e, self')
    end.

Notation "x <<- c ;; k" := (bind_u c (fun x => k))
  (at level 61, c at next level, right associativity).

(** An operation of the language that returns or raises. *)
Definition try {A} (r : result A) : U A :=
  fun self =>
    (match r with Ok a => Done a | Raise e => Failed (Exn e) end, self).

Definition get_data : U value :=
  fun self => (Done (marketplace_data self), self).

Definition set_data (v : value) : U unit :=
  fun self =>
    (Done tt,
     {| marketplace_path := marketplace_path self;
        marketplace_file := marketplace_file self;
        read_only := read_only self;
        marketplace_data := v |}).

Definition load : U unit :=
  fun self =>
    match marketplace_file self with
    | Missing =>
        (Failed (FileNotFoundError
                   ("Marketplace file not found: " ++ marketplace_path self)),
         self)
    | Broken => (Failed (OSError (marketplace_path self)), self)
    | Invalid reason =>
        (Failed (ValueError ("Invalid JSON in marketplace file: " ++ reason)),
         self)
    | Document v => set_data v self
    end.

Definition save : U unit :=
  fun self =>
    if read_only self then (Failed (OSError (marketplace_path self)), self)
    else
      (Done tt,
       {| marketplace_path := marketplace_path self;
          marketplace_file := Document (marketplace_data self);
          read_only := read_only self;
          marketplace_data := marketplace_data self |}).

(** The loop of [_find_plugin]: the first plugin whose name is [name],
    with its place in the list. *)
Fixpoint find_from (name : string) (i : nat) (plugins : list value)
    : result (option (nat * list (string * value))) :=
  match plugins with
  | [] => Ok None
  | plugin :: rest =>
      match plugin with
      | VDict fields =>
          if match lookup "name" fields with
             | Some x => is_str name x
             | None => false
             end
          then Ok (Some (i, fields))
          else find_from name (S i) rest
      | _ => Raise AttributeError
      end
  end.

Definition _find_plugin (name : string)
    : U (option (nat * list (string * value))) :=
  data <<- get_data ;;
  has_plugins <<- try (has "plugins" data) ;;
  if negb has_plugins then ret None
  else
    plugins <<- try (subscript data "plugins") ;;
    plugins <<- try (iterate plugins) ;;
    try (find_from name 0 plugins).

(** The [author] entry of a new plugin. *)
Definition author_of (data : value) (author_name author_url : option string)
    : result (option value) :=
  match given_str author_name, given_str author_url with
  | None, None =>
      has_owner <- has "owner" data ;;
      if has_owner then
        owner <- subscript data "owner" ;;
        name <- dict_get owner "name" (VStr "") ;;
        owner <- subscript data "owner" ;;
        url <- dict_get owner "url" (VStr "") ;;
        Ok (Some (VDict [("name", name); ("url", url)]))
      else Ok None
  | n, u =>
      Ok (Some (VDict
                  ((match n with Some n => [("name", VStr n)] | None => [] end)
                   ++ (match u with Some u => [("url", VStr u)] | None => [] end))))
  end.

(** The [homepage] and [repository] entries of a new plugin. *)
Definition links_of (data : value) : result (list (string * value)) :=
  has_owner <- has "owner" data ;;
  if has_owner then
    owner <- subscript data "owner" ;;
    has_url <- has "url" owner ;;
    if has_url then
      owner <- subscript data "owner" ;;
      base_url <- subscript owner "url" ;;
      github <- has "github.com" base_url ;;
      if github then Ok [("homepage", base_url); ("repository", base_url)]
      else Ok []
    else Ok []
  else Ok [].

Definition listed (key prefix : string) (xs : option (list string))
    : list (string * value) :=
  match given_list xs with
  | Some xs => [(key, VList (map (fun x => VStr (prefix ++ x)) xs))]
  | None => []
  end.

Definition add_plugin (name description version category : string)
    (agents commands skills keywords : option (list string))
    (license : string) (strict : bool)
    (author_name author_url : option string) : U unit :=
  _ <<- load ;;
  data <<- get_data ;;
  has_plugins <<- try (has "plugins" data) ;;
  _ <<- (if negb has_plugins then
           data <<- try (assign_item data "plugins" (VList [])) ;;
           set_data data
         else ret tt) ;;
  existing_plugin <<- _find_plugin name ;;
  if match existing_plugin with
     | Some (_, fields) => truthy (VDict fields)
     | None => false
     end
  then fail (ValueError ("Plugin '" ++ name ++ "' already exists in marketplace"))
  else
    data <<- get_data ;;
    let plugin_entry :=
      [ ("name", VStr name);
        ("source", VStr ("./plugins/" ++ name));
        ("description", VStr description);
        ("version", VStr version);
        ("category", VStr category);
        ("license", VStr license);
        ("strict", VBool strict) ] in
    author <<- try (author_of data author_name author_url) ;;
    let plugin_entry :=
      (plugin_entry
       ++ match author with Some a => [("author", a)] | None => [] end)%list in
    links <<- try (links_of data) ;;
    let plugin_entry :=
      (plugin_entry ++ links
       ++ match given_list keywords with
          | Some ks => [("keywords", VList (map VStr ks))]
          | None => []
          end
       ++ listed "agents" "./agents/" agents
       ++ listed "commands" "./commands/" commands
       ++ listed "skills" "./skills/" skills)%list in
    plugins <<- try (subscript data "plugins") ;;
    plugins <<- try (list_append plugins (VDict plugin_entry)) ;;
    data <<- try (assign_item data "plugins" plugins) ;;
    _ <<- set_data data ;;
    save.

(** [plugin[key] = x] when the argument is given. *)
Definition set_given (key : string) (x : option value)
    (plugin : list (string * value)) : list (string * value) :=
  match x with
  | Some x => setitem plugin key x
  | None => plugin
  end.

(** The [add_...] argument of [update_plugin], for one kind. *)
Definition add_component (key prefix : string) (x : option string)
    (plugin : list (string * value)) : result (list (string * value)) :=
  match given_str x with
  | Some x =>
      let plugin :=
        if negb (contains key plugin) then setitem plugin key (VList [])
        else plugin in
      let path := prefix ++ x in
      listed <- getitem plugin key ;;
      present <- has path listed ;;
      if negb present then
        listed <- getitem plugin key ;;
        listed <- list_append listed (VStr path) ;;
        Ok (setitem plugin key listed)
      else Ok plugin
  | None => Ok plugin
  end.

(** The [remove_...] argument of [update_plugin], for one kind. *)
Definition remove_component (key prefix : string) (x : option string)
    (plugin : list (string * value)) : result (list (string * value)) :=
  match given_str x with
  | Some x =>
      if contains key plugin then
        let path := prefix ++ x in
        listed <- getitem plugin key ;;
        present <- has path listed ;;
        if present then
          listed <- getitem plugin key ;;
          listed <- list_remove listed path ;;
          Ok (setitem plugin key listed)
        else Ok plugin
      else Ok plugin
  | None => Ok plugin
  end.

(** The steps that change the plugin found, one after the other: a step
    that raises leaves the plugin as the steps before it made it. *)
Fixpoint run_steps
    (steps : list (list (string * value) -> result (list (string * value))))
    (plugin : list (string * value))
    : option exn * list (string * value) :=
  match steps with
  | [] => (None, plugin)
  | step :: rest =>
      match step plugin with
      | Ok plugin' => run_steps rest plugin'
      | Raise e => (Some e, plugin)
      end
  end.

(** The plugin found is an object of the list of the catalog: what is
    done to it is done there. *)
Definition put_plugins (f : list value -> list value) : U unit :=
  data <<- get_data ;;
  match data with
  | VDict d =>
      match lookup "plugins" d with
      | Some (VList plugins) =>
          set_data (VDict (setitem d "plugins" (VList (f plugins))))
      | _ => ret tt
      end
  | _ => ret tt
  end.

Definition not_found (name : string) : error :=
  ValueError ("Plugin '" ++ name ++ "' not found in marketplace").

Definition update_plugin (name : string)
    (description version category : option string)
    (keywords : option (list string))
    (add_agent remove_agent add_command remove_command
     add_skill remove_skill : option string) : U unit :=
  _ <<- load ;;
  plugin <<- _find_plugin name ;;
  match plugin with
  | Some (i, plugin) =>
      if negb (truthy (VDict plugin)) then fail (not_found name)
      else
        let plugin :=
          set_given "description" (option_map VStr (given_str description))
            plugin in
        let plugin :=
          set_given "version" (option_map VStr (given_str version)) plugin in
        let plugin :=
          set_given "category" (option_map VStr (given_str category)) plugin in
        let plugin :=
          set_given "keywords"
            (option_map (fun ks => VList (map VStr ks)) (given_list keywords))
            plugin in
        let '(raised, plugin) :=
          run_steps
            [ add_component "agents" "./agents/" add_agent;
              remove_component "agents" "./agents/" remove_agent;
              add_component "commands" "./commands/" add_command;
              remove_component "commands" "./commands/" remove_command;
              add_component "skills" "./skills/" add_skill;
              remove_component "skills" "./skills/" remove_skill ]
            plugin in
        _ <<- put_plugins (set_nth i (VDict plugin)) ;;
        match raised with
        | Some e => fail (Exn e)
        | None => save
        end
  | None => fail (not_found name)
  end.

(** [remove_plugin].  The plugin found is the first element of the list
    that is equal to it, since an equal one before it would have been
    found in its place: it is the one that [remove] takes out. *)
Definition remove_plugin (name : string) : U unit :=
  _ <<- load ;;
  plugin <<- _find_plugin name ;;
  match plugin with
  | Some (i, plugin) =>
      if negb (truthy (VDict plugin)) then fail (not_found name)
      else
        _ <<- put_plugins (del_nth i) ;;
        save
  | None => fail (not_found name)
  end.

(** What [validate] reports: the errors, which make it fail, and the
    warnings, which do not. *)
Inductive problem :=
| MissingField (field : string)
| PluginMissingField (i : nat) (field : string)
| DuplicateName (name : value).

Inductive warning :=
| FileNotFound (plugin_name : value) (kind : component) (path : string).

(** The [for field in ...: if field not in v] loops. *)
Fixpoint missing_fields (report : string -> problem) (fields : list string)
    (v : value) : result (list problem) :=
  match fields with
  | [] => Ok []
  | field :: rest =>
      present <- has field v ;;
      found <- missing_fields report rest v ;;
      Ok (if present then found else report field :: found)
  end.

(** Whether a value can be a member of a [set], and whether two such
    values are the same member. *)
Definition hashable (v : value) : bool :=
  match v with
  | VList _ | VDict _ => false
  | _ => true
  end.

Definition as_number (v : value) : option Z :=
  match v with
  | VBool b => Some (if b then 1 else 0)%Z
  | VInt z => Some z
  | _ => None
  end.

Definition same_member (a b : value) : bool :=
  match a, b with
  | VNone, VNone => true
  | VStr s, VStr s' => String.eqb s s'
  | _, _ =>
      match as_number a, as_number b with
      | Some x, Some y => Z.eqb x y
      | _, _ => false
      end
  end.

Section Validate.

(** [str(Path(base) / part / ...)] and [Path.exists], as the file system
    has them. *)
Variable joinpath : string -> list string -> string.
Variable path_exists : string -> bool.

Fixpoint component_files (plugin_name : value) (plugin_dir : string)
    (kind : component) (leaf : list string) (items : list value)
    : result (list warning) :=
  match items with
  | [] => Ok []
  | item :: rest =>
      match item with
      | VStr s =>
          let path := joinpath plugin_dir (s :: leaf) in
          found <- component_files plugin_name plugin_dir kind leaf rest ;;
          Ok (if path_exists path then found
              else FileNotFound plugin_name kind path :: found)
      | _ => Raise TypeError
      end
  end.

Definition component_warnings (plugin : value) (plugin_name : value)
    (plugin_dir : string) (kind : component) (leaf : list string)
    : result (list warning) :=
  listed <- has (kind_of kind) plugin ;;
  if listed then
    items <- subscript plugin (kind_of kind) ;;
    items <- iterate items ;;
    component_files plugin_name plugin_dir kind leaf items
  else Ok [].

(** One turn of the loop over the plugins: the errors and warnings it
    adds, and the names seen so far. *)
Definition check_plugin (i : nat) (plugin : value) (names : list value)
    : result (list problem * list warning * list value) :=
  missing <- missing_fields (PluginMissingField i)
               ["name"; "source"; "description"; "version"] plugin ;;
  named <- has "name" plugin ;;
  if named then
    name <- subscript plugin "name" ;;
    if negb (hashable name) then Raise TypeError
    else
      let seen := existsb (same_member name) names in
      let duplicate := if seen then [DuplicateName name] else [] in
      let names := if seen then names else (names ++ [name])%list in
      let plugin_dir := "plugins/" ++ str name in
      agents <- component_warnings plugin name plugin_dir Agent [] ;;
      commands <- component_warnings plugin name plugin_dir Command [] ;;
      skills <- component_warnings plugin name plugin_dir Skill ["SKILL.md"] ;;
      Ok ((missing ++ duplicate)%list, (agents ++ commands ++ skills)%list,
          names)
  else Ok (missing, [], names).

Fixpoint check_plugins (i : nat) (plugins : list value) (names : list value)
    : result (list problem * list warning) :=
  match plugins with
  | [] => Ok ([], [])
  | plugin :: rest =>
      checked <- check_plugin i plugin names ;;
      let '(errors, warnings, names) := checked in
      others <- check_plugins (S i) rest names ;;
      Ok ((errors ++ fst others)%list, (warnings ++ snd others)%list)
  end.

Definition check (data : value) : result (list problem * list warning) :=
  errors <- missing_fields MissingField
              ["name"; "owner"; "metadata"; "plugins"] data ;;
  has_plugins <- has "plugins" data ;;
  if has_plugins then
    plugins <- subscript data "plugins" ;;
    plugins <- iterate plugins ;;
    checked <- check_plugins 0 plugins [] ;;
    Ok ((errors ++ fst checked)%list, snd checked)
  else Ok (errors, []).

(** [validate]: its verdict, with the errors and the warnings it prints. *)
Definition validate : U (bool * list problem * list warning) :=
  _ <<- load ;;
  data <<- get_data ;;
  checked <<- try (check data) ;;
  ret (match fst checked with [] => true | _ => false end,
       fst checked, snd checked).

End Validate.

End Updater.

(** A method that leaves the file, its path and its mode as they are. *)
Definition quiet {A} (m : Updater.U A) : Prop :=
  forall self,
    Updater.marketplace_file (snd (m self)) = Updater.marketplace_file self
    /\ Updater.marketplace_path (snd (m self)) = Updater.marketplace_path self
    /\ Updater.read_only (snd (m self)) = Updater.read_only self.

(** A method that changes the file only when it returns. *)
Definition atomic {A} (m : Updater.U A) : Prop :=
  forall self e self',
    m self = (Failed e, self') ->
    Updater.marketplace_file self' = Updater.marketplace_file self.

(** [plugin.get("name") == name]. *)
Definition named (name : string) (plugin : list (string * value)) : bool :=
  match lookup "name" plugin with
  | Some x => is_str name x
  | None => false
  end.

(** The updater as [load] leaves it on a document. *)
Definition loaded (self : Updater.MarketplaceUpdater) (v : value)
    : Updater.MarketplaceUpdater :=
  {| Updater.marketplace_path := Updater.marketplace_path self;
     Updater.marketplace_file := Updater.marketplace_file self;
     Updater.read_only := Updater.read_only self;
     Updater.marketplace_data := v |}.

(** The updater as [save] leaves it. *)
Definition saved (self : Updater.MarketplaceUpdater) (v : value)
    : Updater.MarketplaceUpdater :=
  {| Updater.marketplace_path := Updater.marketplace_path self;
     Updater.marketplace_file := Updater.Document v;
     Updater.read_only := Updater.read_only self;
     Updater.marketplace_data := v |}.

(** An example catalog of one plugin, and an updater on it. *)
Definition example_catalog : list (string * value) :=
  [ ("name", VStr "market");
    ("owner", VDict [("name", VStr "o"); ("url", VStr "https://github.com/o")]);
    ("metadata", VDict []);
    ("plugins",
     VList [VDict [ ("name", VStr "a"); ("source", VStr "./plugins/a");
                    ("description", VStr "first"); ("version", VStr "1.0");
                    ("agents", VList [VStr "./agents/x.md"]) ]]) ].

Definition example_updater : Updater.MarketplaceUpdater :=
  {| Updater.marketplace_path := ".claude-plugin/marketplace.json";
     Updater.marketplace_file := Updater.Document (VDict example_catalog);
     Updater.read_only := false;
     Updater.marketplace_data := VDict [] |}.

(** Two outcomes that raise alike, or return values with the same view. *)
Definition agree {A B} (view : A -> B) (r r' : result A) : Prop :=
  match r, r' with
  | Ok a, Ok a' => view a = view a'
  | Raise e, Raise e' => e = e'
  | _, _ => False
  end.


(** The entry [add_plugin] builds, with the author and the links it took
    from the catalog. *)
Definition plugin_entry (name description version category license : string)
    (strict : bool) (author : option value) (links : list (string * value))
    (keywords agents commands skills : option (list string))
    : list (string * value) :=
  ([ ("name", VStr name);
     ("source", VStr ("./plugins/" ++ name));
     ("description", VStr description);
     ("version", VStr version);
     ("category", VStr category);
     ("license", VStr license);
     ("strict", VBool strict) ]
   ++ (match author with Some a => [("author", a)] | None => [] end
       ++ links
       ++ match given_list keywords with
          | Some ks => [("keywords", VList (map VStr ks))]
          | None => []
          end
       ++ Updater.listed "agents" "./agents/" agents
       ++ Updater.listed "commands" "./commands/" commands
       ++ Updater.listed "skills" "./skills/" skills))%list.

(** The set of names [validate] has seen after the plugin [f]. *)
Definition note_name (f : list (string * value)) (names : list value)
    : list value :=
  match lookup "name" f with
  | Some n =>
      if existsb (Updater.same_member n) names then names
      else (names ++ [n])%list
  | None => names
  end.

Definition seen (pls : list (list (string * value))) (names : list value)
    : list value :=
  fold_left (fun names f => note_name f names) pls names.

(** A step of [update_plugin] that works on the key [K] only, and that
    has nothing left to do on a plugin that holds under [K] what the step
    left there. *)
Definition settles (K : string)
    (step : list (string * value) -> result (list (string * value)))
    : Prop :=
  forall g g',
    step g = Ok g' ->
    (forall K', K' <> K -> lookup K' g' = lookup K' g)
    /\ forall h, lookup K h = lookup K g' -> step h = Ok h.

(* ##################################################################### *)
(** * Part II: its properties *)
(* ##################################################################### *)

(* ===================================================================== *)
(** ** Facts about text *)
(* ===================================================================== *)

Lemma append_nil_r (s : string) : s ++ "" = s.
Proof. induction s as [|c s IH]; simpl; [reflexivity | now rewrite IH]. Qed.

Lemma append_assoc (a b c : string) : (a ++ b) ++ c = a ++ (b ++ c).
Proof. induction a as [|x a IH]; simpl; [reflexivity | now rewrite IH]. Qed.

Lemma length_append (a b : string) :
  String.length (a ++ b) = String.length a + String.length b.
Proof. induction a as [|x a IH]; simpl; [reflexivity | now rewrite IH]. Qed.

Lemma append_snoc (a : string) (c : ascii) (b : string) :
  (a ++ String c "") ++ b = a ++ String c b.
Proof. now rewrite append_assoc. Qed.

Lemma strip_prefix_app (p s : string) : strip_prefix p (p ++ s) = Some s.
Proof.
  induction p as [|a p IH]; simpl; [reflexivity |].
  now rewrite Ascii.eqb_refl.
Qed.

Lemma strip_prefix_inv (p s r : string) :
  strip_prefix p s = Some r -> s = p ++ r.
Proof.
  revert s; induction p as [|a p IH]; simpl; intros s H.
  - now inversion H.
  - destruct s as [|b s]; [discriminate |].
    destruct (Ascii.eqb_spec a b) as [->|]; [| discriminate].
    now rewrite (IH _ H).
Qed.

Lemma strip_prefix_head (a b : ascii) (p s : string) :
  a <> b -> strip_prefix (String a p) (String b s) = None.
Proof.
  intros H; simpl. now destruct (Ascii.eqb_spec a b).
Qed.

Lemma mem_char_app (c : ascii) (a b : string) :
  mem_char c (a ++ b) = mem_char c a || mem_char c b.
Proof.
  induction a as [|x a IH]; simpl; [reflexivity |].
  now rewrite IH, orb_assoc.
Qed.

(** *** The scan *)

Lemma scan_go_fuel {A} (m : string -> option (A * string)) :
  shrinks m ->
  forall n s, String.length s <= n -> scan_go m n s = scan m s.
Proof.
  intros Hm n; unfold scan.
  induction n as [n IH] using lt_wf_ind; intros s Hs.
  destruct n as [|n].
  - destruct s; [reflexivity | simpl in Hs; lia].
  - destruct s as [|c s]; [reflexivity |].
    simpl. destruct (m (String c s)) as [[a r]|] eqn:E.
    + apply Hm in E. simpl in *.
      rewrite (IH n) by lia. rewrite (IH (String.length s)) by lia.
      reflexivity.
    + simpl in Hs. now rewrite (IH n) by lia.
Qed.

Lemma scan_miss {A} (m : string -> option (A * string)) c s :
  m (String c s) = None -> scan m (String c s) = TChr c :: scan m s.
Proof. intros E. unfold scan; simpl. now rewrite E. Qed.

Lemma scan_hit {A} (m : string -> option (A * string)) s a r :
  shrinks m -> m s = Some (a, r) -> scan m s = TMatch a :: scan m r.
Proof.
  intros Hm E. pose proof (Hm _ _ _ E) as Hlt.
  destruct s as [|c s]; [simpl in Hlt; lia |].
  unfold scan at 1; simpl. rewrite E.
  rewrite scan_go_fuel; [reflexivity | assumption | simpl in Hlt; lia].
Qed.

(** Characters at which the matcher cannot start are passed through. *)
Lemma scan_pass {A} (m : string -> option (A * string)) (c0 : ascii) :
  (forall c s, c <> c0 -> m (String c s) = None) ->
  forall pre s, mem_char c0 pre = false ->
  scan m (pre ++ s) = (map TChr (list_ascii_of_string pre) ++ scan m s)%list.
Proof.
  intros Hm pre s; induction pre as [|c pre IH]; simpl; intros H.
  - reflexivity.
  - apply orb_false_iff in H as [Hc Hpre].
    rewrite scan_miss.
    + now rewrite IH.
    + apply Hm. intros ->. now rewrite Ascii.eqb_refl in Hc.
Qed.

(** *** [str.replace] *)

Lemma find_lit_shrinks (a : ascii) (old : string) :
  shrinks (find_lit (String a old)).
Proof.
  intros s [] r; unfold find_lit.
  destruct (strip_prefix (String a old) s) eqn:E; [| discriminate].
  intros [= ->]. apply strip_prefix_inv in E as ->.
  simpl. rewrite length_append. lia.
Qed.

Lemma replace_nil (a : ascii) (old new : string) :
  replace (String a old) new "" = "".
Proof. reflexivity. Qed.

Lemma replace_hit (a : ascii) (old new s : string) :
  replace (String a old) new (String a old ++ s)
  = new ++ replace (String a old) new s.
Proof.
  unfold replace.
  rewrite (scan_hit _ _ tt s (find_lit_shrinks a old)); [reflexivity |].
  unfold find_lit. now rewrite strip_prefix_app.
Qed.

Lemma replace_miss (a : ascii) (old new : string) c s :
  strip_prefix (String a old) (String c s) = None ->
  replace (String a old) new (String c s)
  = String c (replace (String a old) new s).
Proof.
  intros E. unfold replace. rewrite scan_miss; [reflexivity |].
  unfold find_lit. now rewrite E.
Qed.

Lemma splice_chars (new pre : string) ts :
  splice new (map TChr (list_ascii_of_string pre) ++ ts)%list
  = pre ++ splice new ts.
Proof. induction pre as [|c pre IH]; simpl; [reflexivity | now rewrite IH]. Qed.

(** Text without the first character of [old] is passed through. *)
Lemma replace_pass (a : ascii) (old new pre s : string) :
  mem_char a pre = false ->
  replace (String a old) new (pre ++ s)
  = pre ++ replace (String a old) new s.
Proof.
  intros H. unfold replace.
  rewrite (scan_pass _ a); [apply splice_chars | | assumption].
  intros c s' Hc. unfold find_lit.
  rewrite strip_prefix_head; [reflexivity | congruence].
Qed.

Lemma replace_absent (a : ascii) (old new s : string) :
  mem_char a s = false -> replace (String a old) new s = s.
Proof.
  intros H. rewrite <- (append_nil_r s) at 1.
  rewrite replace_pass by assumption.
  now rewrite replace_nil, append_nil_r.
Qed.

(* ===================================================================== *)
(** ** Facts about the matcher *)
(* ===================================================================== *)

Lemma all_chars_app cls a b :
  all_chars cls (a ++ b) = all_chars cls a && all_chars cls b.
Proof.
  induction a as [|c a IH]; simpl; [reflexivity |].
  now rewrite IH, andb_assoc.
Qed.

Section RepFacts.
Context {R : Type}.
Implicit Types (k : string -> string -> option R).

Lemma rep_inv g cls k : forall s min acc r,
  rep g cls min s acc k = Some r ->
  exists w s', s = w ++ s' /\ k (acc ++ w) s' = Some r.
Proof.
  assert (Stop : forall s min acc r,
    match min with O => k acc s | _ => None end = Some r ->
    exists w s', s = w ++ s' /\ k (acc ++ w) s' = Some r).
  { intros s [|m] acc r H; [| discriminate].
    exists "", s. now rewrite append_nil_r. }
  assert (More : forall c s w s' acc r,
    s = w ++ s' -> k ((acc ++ String c "") ++ w) s' = Some r ->
    exists w0 s0, String c s = w0 ++ s0 /\ k (acc ++ w0) s0 = Some r).
  { intros c s w s' acc r -> H. exists (String c w), s'.
    split; [reflexivity |]. now rewrite append_snoc in H. }
  induction s as [|c s IH]; intros min acc r H.
  - simpl in H. now apply Stop in H.
  - simpl in H. destruct (cls c); [| now apply Stop in H].
    destruct g.
    + destruct (rep true cls (pred min) s (acc ++ String c "") k) eqn:E.
      * injection H as ->. apply IH in E as (w & s' & Hs & Hk). eauto.
      * now apply Stop in H.
    + destruct (match min with O => k acc (String c s) | _ => None end) eqn:E.
      * injection H as ->. now apply Stop in E.
      * apply IH in H as (w & s' & Hs & Hk). eauto.
Qed.


(** A lazy repetition stops as soon as what follows accepts. *)
Lemma rep_lazy_stop cls k s acc r :
  k acc s = Some r -> rep false cls 0 s acc k = Some r.
Proof.
  intros H. destruct s as [|c s]; simpl; [assumption |].
  rewrite H. now destruct (cls c).
Qed.

Lemma rep_lazy_step cls k c s acc :
  cls c = true -> k acc (String c s) = None ->
  rep false cls 0 (String c s) acc k
  = rep false cls 0 s (acc ++ String c "") k.
Proof. intros Hc Hk. simpl. now rewrite Hc, Hk. Qed.

(** A lazy repetition runs over text in which what follows cannot
    start. *)
Lemma rep_lazy_skip cls k (c0 : ascii) :
  (forall acc c s, c <> c0 -> k acc (String c s) = None) ->
  forall w s acc,
  all_chars cls w = true -> mem_char c0 w = false ->
  rep false cls 0 (w ++ s) acc k = rep false cls 0 s (acc ++ w) k.
Proof.
  intros Hk; induction w as [|c w IH]; intros s acc Hw Hm.
  - now rewrite append_nil_r.
  - simpl in Hw, Hm. apply andb_true_iff in Hw as [Hc Hw].
    apply orb_false_iff in Hm as [Hm1 Hm2].
    change (String c w ++ s) with (String c (w ++ s)).
    rewrite rep_lazy_step, IH, append_snoc; try assumption; [reflexivity |].
    apply Hk. intros ->. now rewrite Ascii.eqb_refl in Hm1.
Qed.
End RepFacts.

Lemma exec_inv p : forall groups s g r,
  exec p groups s = Some (g, r) ->
  String.length r <= String.length s
  /\ List.length g = List.length groups + ngroups p.
Proof.
  induction p as [|[l|gr min cls|gr min cls] p IH]; intros groups s g r H;
    simpl in H.
  - injection H as <- <-. simpl. lia.
  - destruct (strip_prefix l s) as [s'|] eqn:E; [| discriminate].
    apply strip_prefix_inv in E as ->. apply IH in H as [H1 H2].
    rewrite length_append. simpl. lia.
  - apply rep_inv in H as (w & s' & -> & H). apply IH in H as [H1 H2].
    rewrite length_append. simpl. lia.
  - apply rep_inv in H as (w & s' & -> & H). apply IH in H as [H1 H2].
    rewrite length_append, length_app in *. simpl in *. lia.
Qed.

Lemma exec_shrinks a l p : shrinks (exec (Lit (String a l) :: p) []).
Proof.
  intros s g r H. simpl in H.
  destruct s as [|b s]; [discriminate |].
  destruct (Ascii.eqb a b); [| discriminate].
  destruct (strip_prefix l s) as [s'|] eqn:E; [| discriminate].
  apply strip_prefix_inv in E as ->. apply exec_inv in H as [H _].
  simpl. rewrite length_append. lia.
Qed.

Lemma exec_head a l p groups c s :
  c <> a -> exec (Lit (String a l) :: p) groups (String c s) = None.
Proof.
  intros H. simpl. destruct (Ascii.eqb_spec a c); [congruence | reflexivity].
Qed.

(** *** [re.sub] *)

Lemma prepend_nil r : prepend "" r = r.
Proof. now destruct r. Qed.


Lemma expand_chars repl pre ts :
  expand repl (map TChr (list_ascii_of_string pre) ++ ts)%list
  = prepend pre (expand repl ts).
Proof.
  induction pre as [|c pre IH]; simpl.
  - now rewrite prepend_nil.
  - rewrite IH. now destruct (expand repl ts).
Qed.

Section SubFacts.
Variables (a : ascii) (l : string) (p : list re).
Variable repl : list string -> result string.
Let pat := Lit (String a l) :: p.

Lemma re_sub_nil : re_sub pat repl "" = Ok "".
Proof. reflexivity. Qed.

Lemma re_sub_pass pre s :
  mem_char a pre = false ->
  re_sub pat repl (pre ++ s) = prepend pre (re_sub pat repl s).
Proof.
  intros H. unfold re_sub.
  rewrite (scan_pass _ a); [apply expand_chars | | assumption].
  intros c s' Hc. now apply exec_head.
Qed.

Lemma re_sub_absent s :
  mem_char a s = false -> re_sub pat repl s = Ok s.
Proof.
  intros H. rewrite <- (append_nil_r s) at 1.
  rewrite re_sub_pass by assumption. rewrite re_sub_nil. simpl.
  now rewrite append_nil_r.
Qed.

Lemma re_sub_miss c s :
  exec pat [] (String c s) = None ->
  re_sub pat repl (String c s) = prepend (String c "") (re_sub pat repl s).
Proof. intros E. unfold re_sub. now rewrite scan_miss. Qed.

Lemma re_sub_hit s g r :
  exec pat [] s = Some (g, r) ->
  re_sub pat repl s = x <- repl g ;; prepend x (re_sub pat repl r).
Proof.
  intros E. unfold re_sub, pat in *.
  now rewrite (scan_hit _ _ g r (exec_shrinks a l p) E).
Qed.
End SubFacts.

(* ===================================================================== *)
(** ** Totality of [render] *)
(* ===================================================================== *)







(* ===================================================================== *)
(** ** Scalar references *)
(* ===================================================================== *)

Lemma plain_open s : plain s = true -> mem_char "{" s = false.
Proof.
  unfold plain. intros H. apply andb_true_iff in H as [H _].
  now apply negb_true_iff in H.
Qed.

Lemma plain_close s : plain s = true -> mem_char "}" s = false.
Proof.
  unfold plain. intros H. apply andb_true_iff in H as [_ H].
  now apply negb_true_iff in H.
Qed.


Lemma no_open_pass a b : mem_char "{" a = false -> no_open (a ++ b) = no_open b.
Proof.
  induction a as [|c a IH]; simpl; intros H; [reflexivity |].
  apply orb_false_iff in H as [H1 H2]. rewrite H1. simpl. auto.
Qed.

Lemma no_open_plain s : mem_char "{" s = false -> no_open s = true.
Proof.
  intros H. rewrite <- (append_nil_r s). now rewrite no_open_pass.
Qed.

Lemma re_sub_no_open p repl s :
  no_open s = true -> re_sub (Lit "{%" :: p) repl s = Ok s.
Proof.
  induction s as [|c s IH]; intros H; [reflexivity |].
  simpl in H. apply andb_true_iff in H as [H1 H2].
  rewrite re_sub_miss, IH; [reflexivity | assumption |].
  destruct (Ascii.eqb_spec c "{") as [->|Hc]; [| now apply exec_head].
  destruct s as [|d s]; [reflexivity |].
  simpl in H1. apply negb_true_iff in H1.
  simpl. now rewrite Ascii.eqb_sym, H1.
Qed.

Lemma replace_ref_pass k new pre s :
  mem_char "{" pre = false ->
  replace (var_ref k) new (pre ++ s) = pre ++ replace (var_ref k) new s.
Proof. apply replace_pass. Qed.

Lemma replace_ref_hit k new s :
  replace (var_ref k) new (var_ref k ++ s) = new ++ replace (var_ref k) new s.
Proof. apply replace_hit. Qed.

Lemma replace_ref_absent k new s :
  mem_char "{" s = false -> replace (var_ref k) new s = s.
Proof. apply replace_absent. Qed.


(** Two references with brace-free names coincide as soon as one starts
    the other. *)
Lemma ref_tail_inj : forall name k post r,
  mem_char "}" name = false -> mem_char "}" post = false ->
  name ++ " }}" ++ post = k ++ " }}" ++ r -> name = k.
Proof.
  induction name as [|c name IH]; intros k post r Hn Hp E.
  - destruct k as [|c1 [|c2 [|c3 k]]]; try reflexivity; simpl in E;
      try discriminate.
    injection E as <- <- <- E. rewrite E, mem_char_app in Hp.
    simpl in Hp. now rewrite !orb_true_r in Hp.
  - simpl in Hn. apply orb_false_iff in Hn as [Hc Hn].
    destruct k as [|c' k].
    + simpl in E. injection E as -> E.
      destruct name as [|c2 name]; [discriminate |].
      simpl in E. injection E as -> _. simpl in Hn. discriminate.
    + simpl in E. injection E as -> E. f_equal.
      now apply (IH k post r).
Qed.

Lemma ref_mismatch k name post :
  k <> name -> mem_char "}" name = false -> mem_char "}" post = false ->
  strip_prefix (var_ref k) (var_ref name ++ post) = None.
Proof.
  intros Hk Hn Hp.
  destruct (strip_prefix (var_ref k) (var_ref name ++ post)) eqn:E;
    [| reflexivity].
  apply strip_prefix_inv in E. unfold var_ref in E.
  rewrite !append_assoc in E. simpl in E. injection E as E.
  apply ref_tail_inj in E; congruence.
Qed.

(** A replacement of another key leaves a reference alone. *)
Lemma replace_other k new name post :
  k <> name -> plain name = true -> plain post = true ->
  replace (var_ref k) new (var_ref name ++ post) = var_ref name ++ post.
Proof.
  intros Hk Hn Hp.
  change (var_ref k) with (String "{" ("{ " ++ k ++ " }}")).
  change (var_ref name ++ post)
    with (String "{" (String "{" (String " " ((name ++ " }}") ++ post)))).
  rewrite replace_miss.
  2:{ apply (ref_mismatch k name post Hk); auto using plain_close. }
  rewrite replace_miss by reflexivity.
  rewrite replace_absent; [reflexivity |].
  simpl. rewrite !mem_char_app. simpl.
  now rewrite (plain_open _ Hn), (plain_open _ Hp).
Qed.


Lemma exec_lit l p g s : exec (Lit l :: p) g (l ++ s) = exec p g s.
Proof. simpl. now rewrite strip_prefix_app. Qed.

(** A lazy repetition in front of a literal runs up to the first place
    where the literal can start. *)
Lemma exec_rep_lazy cls (a : ascii) l p g w s r :
  all_chars cls w = true -> mem_char a w = false ->
  exec p g s = Some r ->
  exec (Rep false 0 cls :: Lit (String a l) :: p) g (w ++ String a l ++ s)
  = Some r.
Proof.
  intros Hw Ha Hr. cbn [exec].
  rewrite (rep_lazy_skip cls _ a); try assumption.
  - apply rep_lazy_stop.
    change (exec (Lit (String a l) :: p) g (String a l ++ s) = Some r).
    now rewrite exec_lit.
  - intros acc c s' Hc. now apply exec_head.
Qed.

(** The three stages that look for ["{%"] leave a text without it alone. *)
Lemma render_no_open template ctx :
  no_open (substitute ctx template) = true ->
  render template ctx
  = re_sub var_pattern (fun _ => Ok "") (substitute ctx template).
Proof.
  intros H. unfold render, for_pattern, if_pattern, block_pattern.
  rewrite re_sub_no_open by assumption. cbn [bind].
  rewrite re_sub_no_open by assumption. cbn [bind].
  rewrite re_sub_no_open by assumption. cbn [bind].
  now destruct (re_sub var_pattern _ _).
Qed.

Lemma var_ref_app name s :
  var_ref name ++ s = "{{" ++ (" " ++ name ++ " ") ++ "}}" ++ s.
Proof. unfold var_ref. now rewrite !append_assoc. Qed.

Lemma one_line_app a b : one_line (a ++ b) = one_line a && one_line b.
Proof. apply all_chars_app. Qed.

(** The last stage deletes a reference whose name is on one line. *)
Lemma exec_var_ref name s :
  plain name = true -> one_line name = true ->
  exec var_pattern [] (var_ref name ++ s) = Some ([], s).
Proof.
  intros Hp Hl. rewrite var_ref_app. unfold var_pattern.
  rewrite exec_lit. apply exec_rep_lazy; [| | reflexivity].
  - change (all_chars dot) with one_line. rewrite !one_line_app, Hl.
    reflexivity.
  - rewrite !mem_char_app, (plain_close _ Hp). reflexivity.
Qed.

Lemma cleanup_ref name s :
  plain name = true -> one_line name = true ->
  re_sub var_pattern (fun _ => Ok "") (var_ref name ++ s)
  = re_sub var_pattern (fun _ => Ok "") s.
Proof.
  intros Hp Hl. unfold var_pattern.
  rewrite (re_sub_hit _ _ _ _ _ [] s) by now apply exec_var_ref.
  cbn [bind]. apply prepend_nil.
Qed.

Lemma cleanup_pass pre s :
  mem_char "{" pre = false ->
  re_sub var_pattern (fun _ => Ok "") (pre ++ s)
  = prepend pre (re_sub var_pattern (fun _ => Ok "") s).
Proof. apply re_sub_pass. Qed.

Lemma cleanup_absent s :
  mem_char "{" s = false -> re_sub var_pattern (fun _ => Ok "") s = Ok s.
Proof. apply re_sub_absent. Qed.

Lemma no_open_ref name s :
  plain name = true -> no_open (var_ref name ++ s) = no_open (" }}" ++ s).
Proof.
  intros H. rewrite var_ref_app. cbn [append no_open Ascii.eqb Bool.eqb andb negb].
  rewrite append_assoc.
  now rewrite (no_open_pass name) by now apply plain_open.
Qed.



(* ===================================================================== *)
(** ** Templates as sequences of pieces *)
(* ===================================================================== *)












(** *** The first stage on pieces *)







(** *** The later stages on pieces *)


Section OpenStage.
Variable p : list re.
Variable repl : list string -> result string.
Let pat := Lit "{%" :: p.




End OpenStage.





(* ===================================================================== *)
(** ** Loop and conditional blocks *)
(* ===================================================================== *)

Section RepNone.
Context {R1 R2 : Type}.

End RepNone.


Lemma all_dot_all s : all_chars dot_all s = true.
Proof. induction s; cbn; auto. Qed.



















(* ===================================================================== *)
(** ** Loop bodies *)
(* ===================================================================== *)
































(* ===================================================================== *)
(** ** A loop variable shadowed by a key of the context *)
(* ===================================================================== *)





(* ===================================================================== *)
(** ** Blocks inside blocks *)
(* ===================================================================== *)
























(* ===================================================================== *)
(** ** Directive syntax left in the output *)
(* ===================================================================== *)

(** C6 fails on the code.  The cleanup patterns are compiled without
    [re.DOTALL], so a directive that holds a line feed is not deleted; and
    each cleanup is one pass, so the deletion of one span can bring the
    two halves of another together. *)
Theorem cleanup_leaves_directives :
  render ("{{ name" ++ nl ++ "}}") [] = Ok ("{{ name" ++ nl ++ "}}")
  /\ has_var_span ("{{ name" ++ nl ++ "}}") = true
  /\ render ("{% for x in items" ++ nl ++ "%}") [] 
     = Ok ("{% for x in items" ++ nl ++ "%}")
  /\ has_block_span ("{% for x in items" ++ nl ++ "%}") = true
  /\ render "{% a %{{ x }}}" [] = Ok "{% a %}"
  /\ render "{{% a %}% b %}" [] = Ok "{% b %}".
Proof. repeat split; vm_compute; reflexivity. Qed.

(* ===================================================================== *)
(** ** The clock in [build_context] *)
(* ===================================================================== *)

Lemma lookup_setitem_other {A} k k' (y : A) : k <> k' ->
  forall c, lookup k (setitem c k' y) = lookup k c.
Proof.
  intros Hne; induction c as [|[a v] c IH]; cbn [setitem lookup].
  - destruct (String.eqb_spec k' k); [congruence | reflexivity].
  - destruct (String.eqb_spec a k') as [->|Ha]; cbn [lookup].
    + destruct (String.eqb_spec k' k); [congruence | reflexivity].
    + now rewrite IH.
Qed.

Lemma lookup_setitem_same {A} k (y : A) :
  forall c, lookup k (setitem c k y) = Some y.
Proof.
  induction c as [|[a v] c IH]; cbn [setitem lookup].
  - now rewrite String.eqb_refl.
  - destruct (String.eqb_spec a k) as [->|Ha]; cbn [lookup].
    + now rewrite String.eqb_refl.
    + destruct (String.eqb_spec a k); [congruence | assumption].
Qed.



Lemma setitem_same_id {A} k (v : A) :
  forall c, lookup k c = Some v -> setitem c k v = c.
Proof.
  induction c as [|[a x] c IH]; [discriminate |]. cbn [lookup setitem].
  destruct (String.eqb_spec a k) as [->|Ha].
  - now intros [= ->].
  - intros H. now rewrite IH.
Qed.















(* ===================================================================== *)
(** ** [render] over a store of objects *)
(* ===================================================================== *)

(** *** What [render] writes *)

Lemma grows_ret {A} (a : A) : grows (ret_st a).
Proof. intros h. exists []. cbn. now rewrite app_nil_r. Qed.

Lemma grows_raise {A} e : grows (@raise_st A e).
Proof. intros h. exists []. cbn. now rewrite app_nil_r. Qed.

Lemma grows_of_result {A} (r : result A) : grows (of_result r).
Proof. intros h. exists []. cbn. now rewrite app_nil_r. Qed.

Lemma grows_load l : grows (load l).
Proof.
  intros h. exists []. unfold load.
  destruct (nth_error h l); cbn; now rewrite app_nil_r.
Qed.

Lemma grows_read fuel v : grows (read fuel v).
Proof.
  intros h. exists []. unfold read.
  destruct (lift fuel h v); cbn; now rewrite app_nil_r.
Qed.

Lemma grows_bind {A B} (m : M A) (k : A -> M B) :
  grows m -> (forall a, grows (k a)) -> grows (x <~ m ;; k x).
Proof.
  intros Hm Hk h. unfold bind_st. destruct (Hm h) as [f1 E1].
  destruct (m h) as [[a|e] h1]; cbn [snd] in *; subst h1.
  - destruct (Hk a (h ++ f1)%list) as [f2 E2]. exists (f1 ++ f2)%list.
    now rewrite E2, app_assoc.
  - now exists f1.
Qed.

Lemma grows_dict_of l : grows (dict_of l).
Proof.
  apply grows_bind; [apply grows_load |].
  intros []; [apply grows_raise | apply grows_ret].
Qed.

Lemma grows_substitute_st fuel items : forall result,
  grows (substitute_st fuel items result).
Proof.
  induction items as [|[k v] items IH]; intros result; cbn [substitute_st].
  - apply grows_ret.
  - apply grows_bind; [apply grows_read | auto].
Qed.

Lemma update_last {A} (x y : A) h :
  update (List.length h) y (h ++ [x])%list = (h ++ [y])%list.
Proof. induction h as [|z h IH]; cbn; [reflexivity | now rewrite IH]. Qed.

Lemma nth_error_last {A} (x : A) h :
  nth_error (h ++ [x])%list (List.length h) = Some x.
Proof. induction h as [|z h IH]; cbn; auto. Qed.

Lemma bind_st_ok {A B} (m : M A) (k : A -> M B) h a h' :
  m h = (Ok a, h') -> (x <~ m ;; k x) h = k a h'.
Proof. intros E. unfold bind_st. now rewrite E. Qed.

Lemma bind_st_raise {A B} (m : M A) (k : A -> M B) h e h' :
  m h = (Raise e, h') -> (x <~ m ;; k x) h = (Raise e, h').
Proof. intros E. unfold bind_st. now rewrite E. Qed.

Lemma dict_of_run l h :
  dict_of l h = match nth_error h l with
                | Some (ODict d) => (Ok d, h)
                | Some (OList _) => (Raise AttributeError, h)
                | None => (Raise (Dangling l), h)
                end.
Proof.
  unfold dict_of, bind_st, load. now destruct (nth_error h l) as [[]|].
Qed.

(** The one write of [render] goes to the copy it has just made. *)
Lemma loop_item_st_run fuel ctx v body item h :
  loop_item_st fuel ctx v body item h
  = match nth_error h ctx with
    | Some (ODict d) =>
        let h' := (h ++ [ODict (setitem d v item)])%list in
        match lift fuel h' item with
        | Some x => (Ok (item_text v body x), h')
        | None => (Raise RecursionError, h')
        end
    | Some (OList _) => (Raise AttributeError, h)
    | None => (Raise (Dangling ctx), h)
    end.
Proof.
  unfold loop_item_st.
  destruct (nth_error h ctx) as [[xs|d]|] eqn:E.
  - apply bind_st_raise. now rewrite dict_of_run, E.
  - rewrite (bind_st_ok _ _ h d h) by now rewrite dict_of_run, E.
    rewrite (bind_st_ok _ _ h (List.length h) (h ++ [ODict d])%list)
      by reflexivity.
    rewrite (bind_st_ok _ _ _ d (h ++ [ODict d])%list)
      by now rewrite dict_of_run, nth_error_last.
    rewrite (bind_st_ok _ _ _ tt (h ++ [ODict (setitem d v item)])%list)
      by (unfold store; now rewrite nth_error_last, update_last).
    cbv zeta. unfold bind_st, read.
    now destruct (lift fuel _ item).
  - apply bind_st_raise. now rewrite dict_of_run, E.
Qed.

Lemma loop_item_st_writes fuel ctx v body item h :
  snd (loop_item_st fuel ctx v body item h) = h
  \/ exists d, snd (loop_item_st fuel ctx v body item h)
               = (h ++ [ODict (setitem d v item)])%list.
Proof.
  rewrite loop_item_st_run.
  destruct (nth_error h ctx) as [[xs|d]|]; auto.
  right. exists d. cbv zeta. now destruct (lift fuel _ item).
Qed.

Lemma grows_loop_item_st fuel ctx v body item :
  grows (loop_item_st fuel ctx v body item).
Proof.
  intros h. destruct (loop_item_st_writes fuel ctx v body item h) as [E|[d E]];
    rewrite E; [exists []; now rewrite app_nil_r | eauto].
Qed.

Lemma grows_loop_st f items : (forall item, grows (f item)) ->
  forall output, grows (loop_st f items output).
Proof.
  intros Hf. induction items as [|item items IH]; intros output;
    cbn [loop_st].
  - apply grows_ret.
  - apply grows_bind; auto.
Qed.

Lemma grows_replace_for_st fuel ctx groups :
  grows (replace_for_st fuel ctx groups).
Proof.
  unfold replace_for_st.
  destruct groups as [|v [|l [|b [|]]]]; try apply grows_raise.
  apply grows_bind; [apply grows_dict_of | intros d].
  destruct (negb (contains l d)); [apply grows_ret |].
  apply grows_bind; [apply grows_of_result | intros items].
  destruct items; try apply grows_ret.
  apply grows_bind; [apply grows_load | intros o].
  destruct o; [| apply grows_ret].
  apply grows_bind; [| intros; apply grows_ret].
  apply grows_loop_st. intros item. apply grows_loop_item_st.
Qed.

Lemma grows_replace_if_st fuel ctx groups :
  grows (replace_if_st fuel ctx groups).
Proof.
  unfold replace_if_st.
  destruct groups as [|c [|b [|]]]; try apply grows_raise.
  apply grows_bind; [apply grows_dict_of | intros d].
  destruct (contains c d); [| apply grows_ret].
  apply grows_bind; [apply grows_of_result | intros x].
  apply grows_bind; [apply grows_read | intros y].
  destruct (truthy y); apply grows_ret.
Qed.

Lemma grows_expand_st repl ts :
  (forall g, grows (repl g)) -> grows (expand_st repl ts).
Proof.
  intros Hr. induction ts as [|[c|g] ts IH]; cbn [expand_st].
  - apply grows_ret.
  - apply grows_bind; [assumption | intros; apply grows_ret].
  - apply grows_bind; [apply Hr | intros x].
    apply grows_bind; [assumption | intros; apply grows_ret].
Qed.

Lemma grows_render_st fuel template ctx : grows (render_st fuel template ctx).
Proof.
  unfold render_st, re_sub_st.
  apply grows_bind; [apply grows_dict_of | intros d].
  apply grows_bind; [apply grows_substitute_st | intros r0].
  apply grows_bind;
    [apply grows_expand_st; intros; apply grows_replace_for_st | intros r1].
  apply grows_bind;
    [apply grows_expand_st; intros; apply grows_replace_if_st | intros r2].
  apply grows_bind;
    [apply grows_expand_st; intros; apply grows_ret | intros r3].
  apply grows_bind;
    [apply grows_expand_st; intros; apply grows_ret | intros r4].
  apply grows_ret.
Qed.

(** *** What the store stands for *)

Lemma nth_error_grow {A} (h fresh : list A) l o :
  nth_error h l = Some o -> nth_error (h ++ fresh)%list l = Some o.
Proof.
  intros H. rewrite nth_error_app1; [assumption |].
  apply nth_error_Some. congruence.
Qed.

Lemma all_some_ext {A B} (f g : A -> option B) xs r :
  (forall x y, In x xs -> f x = Some y -> g x = Some y) ->
  all_some (map f xs) = Some r -> all_some (map g xs) = Some r.
Proof.
  revert r; induction xs as [|x xs IH]; intros r H; cbn [map all_some];
    [auto |].
  destruct (f x) as [y|] eqn:E; [| discriminate].
  rewrite (H x y (or_introl eq_refl) E).
  destruct (all_some (map f xs)) as [r'|] eqn:E'; [| discriminate].
  intros [= <-]. rewrite (IH r'); auto. intros x0 y0 Hin. apply H. now right.
Qed.

(** Objects added to the store, and more fuel, do not change what a value
    stands for. *)
Lemma lift_mono h fresh : forall n m v x,
  n <= m -> lift n h v = Some x -> lift m (h ++ fresh)%list v = Some x.
Proof.
  induction n as [|n IH]; intros m v x Hnm H.
  - destruct v; cbn in *; try discriminate; destruct m; assumption.
  - destruct v as [| b | z | s | l]; try (destruct m; assumption).
    destruct m as [|m]; [lia |]. cbn [lift] in *.
    destruct (nth_error h l) as [o|] eqn:E; [| discriminate].
    rewrite (nth_error_grow _ fresh _ _ E).
    assert (Hle : n <= m) by lia.
    destruct o as [xs|kvs].
    + destruct (all_some (map (lift n h) xs)) as [r|] eqn:Er; [| discriminate].
      erewrite all_some_ext; [eassumption | | eassumption].
      intros; now apply IH.
    + destruct (all_some (map _ kvs)) as [r|] eqn:Er; [| discriminate].
      erewrite all_some_ext; [eassumption | | eassumption].
      intros [k y] z _. cbn [fst snd].
      destruct (lift n h y) as [y'|] eqn:Ey; [| discriminate].
      now rewrite (IH m y y' Hle Ey).
Qed.

(** C8. [render] does not write to what it is given: in the store a call
    of [render] leaves, every object that was there before the call (the
    context, its lists and its records) is as it was, whatever the template
    and whether the call returns or raises; the copies of the context the
    loop makes are new objects.  Hence whatever a value stood for before
    the call it stands for after it. *)
Theorem render_st_frame (fuel : nat) (template : string) (ctx : loc)
    (h : heap) :
  let h' := snd (render_st fuel template ctx h) in
  (exists fresh, h' = (h ++ fresh)%list)
  /\ (forall l o, nth_error h l = Some o -> nth_error h' l = Some o)
  /\ (forall n v x, lift n h v = Some x -> lift n h' v = Some x).
Proof.
  cbv zeta. destruct (grows_render_st fuel template ctx h) as [fresh E].
  rewrite E. repeat split.
  - now exists fresh.
  - intros l o. apply nth_error_grow.
  - intros n v x. now apply lift_mono.
Qed.

(** *** The two models of [render] agree *)

Lemma ext_refl h : ext h h.
Proof. exists []. now rewrite app_nil_r. Qed.

Lemma ext_grow h0 h fresh : ext h0 h -> ext h0 (h ++ fresh)%list.
Proof. intros [f ->]. exists (f ++ fresh)%list. now rewrite app_assoc. Qed.

Lemma runs_ret h0 {A} (a : A) : runs_to h0 (ret_st a) (Ok a).
Proof. intros h H. now exists h. Qed.

Lemma runs_raise h0 {A} e : runs_to h0 (@raise_st A e) (Raise e).
Proof. intros h H. now exists h. Qed.

Lemma runs_of_result h0 {A} (r : result A) : runs_to h0 (of_result r) r.
Proof. intros h H. now exists h. Qed.

Lemma runs_bind h0 {A B} (m : M A) (k : A -> M B) r (f : A -> result B) :
  runs_to h0 m r -> (forall a, r = Ok a -> runs_to h0 (k a) (f a)) ->
  runs_to h0 (x <~ m ;; k x) (bind r f).
Proof.
  intros Hm Hk h H. destruct (Hm h H) as (h1 & H1 & E1).
  unfold bind_st. rewrite E1. destruct r as [a|e]; cbn [bind].
  - now apply Hk.
  - now exists h1.
Qed.

Lemma runs_load h0 l o :
  nth_error h0 l = Some o -> runs_to h0 (load l) (Ok o).
Proof.
  intros E h [fresh ->]. exists (h0 ++ fresh)%list.
  split; [now exists fresh |]. unfold load.
  now rewrite (nth_error_grow _ _ _ _ E).
Qed.

Lemma runs_read h0 n fuel v x :
  lift n h0 v = Some x -> n <= fuel -> runs_to h0 (read fuel v) (Ok x).
Proof.
  intros E Hn h [fresh ->]. exists (h0 ++ fresh)%list.
  split; [now exists fresh |]. unfold read.
  now rewrite (lift_mono h0 fresh n fuel v x Hn E).
Qed.

Lemma runs_dict_of h0 l d :
  nth_error h0 l = Some (ODict d) -> runs_to h0 (dict_of l) (Ok d).
Proof.
  intros E. apply (runs_bind h0 (load l) _ (Ok (ODict d)) (fun _ => Ok d)).
  - now apply runs_load.
  - intros a [= <-]. apply runs_ret.
Qed.

Lemma entries_cons n h k hv d c :
  entries n h ((k, hv) :: d) c ->
  exists x c', c = (k, x) :: c' /\ lift n h hv = Some x /\ entries n h d c'.
Proof.
  unfold entries. cbn [map all_some fst snd].
  destruct (lift n h hv) as [x|]; [| discriminate]. cbn [option_map].
  destruct (all_some _) as [c'|]; [| discriminate].
  intros [= <-]. eauto.
Qed.

Lemma entries_lookup n h k : forall d c, entries n h d c ->
  match lookup k d with
  | Some hv => exists x, lift n h hv = Some x /\ lookup k c = Some x
  | None => lookup k c = None
  end.
Proof.
  induction d as [|[k' hv] d IH]; intros c H.
  - injection H as <-. reflexivity.
  - apply entries_cons in H as (x & c' & -> & Hx & H). cbn [lookup].
    destruct (String.eqb k' k); [eauto | now apply IH].
Qed.

Lemma entries_contains n h k d c :
  entries n h d c -> contains k d = contains k c.
Proof.
  intros H. apply (entries_lookup n h k) in H. unfold contains.
  destruct (lookup k d); [destruct H as (x & _ & ->) | rewrite H]; reflexivity.
Qed.

Lemma runs_substitute_st h0 n fuel : n <= fuel ->
  forall d c result, entries n h0 d c ->
  runs_to h0 (substitute_st fuel d result) (Ok (substitute c result)).
Proof.
  intros Hn. induction d as [|[k hv] d IH]; intros c result H.
  - injection H as <-. apply runs_ret.
  - apply entries_cons in H as (x & c' & -> & Hx & H).
    cbn [substitute_st].
    apply (runs_bind h0 _ _ (Ok x)
             (fun x => Ok (substitute c' (replace (var_ref k) (str x) result)))).
    + now apply (runs_read h0 n).
    + intros a [= <-]. now apply IH.
Qed.

Lemma runs_expand_st h0 repl_st repl ts :
  (forall g, runs_to h0 (repl_st g) (repl g)) ->
  runs_to h0 (expand_st repl_st ts) (expand repl ts).
Proof.
  intros Hr. induction ts as [|[c|g] ts IH]; cbn [expand_st expand].
  - apply runs_ret.
  - apply runs_bind; [assumption | intros; apply runs_ret].
  - apply runs_bind; [apply Hr | intros x _].
    apply runs_bind; [assumption | intros; apply runs_ret].
Qed.

Lemma lift_context fuel h ctx c :
  lift fuel h (HRef ctx) = Some (VDict c) ->
  exists n d, fuel = S n /\ holds_context h n ctx d c.
Proof.
  destruct fuel as [|n]; [discriminate |]. cbn [lift].
  destruct (nth_error h ctx) as [[xs|d]|] eqn:Eh; try discriminate.
  - destruct (all_some _); discriminate.
  - destruct (all_some _) as [c'|] eqn:E; [| discriminate].
    intros [= <-]. exists n, d. split; [reflexivity | split; assumption].
Qed.

Lemma runs_loop_item_st h0 n fuel ctx d c v body m hv x :
  holds_context h0 n ctx d c -> lift m h0 hv = Some x -> m <= fuel ->
  runs_to h0 (loop_item_st fuel ctx v body hv) (Ok (loop_item c v body x)).
Proof.
  intros [Hd _] Hx Hm h [fresh ->].
  rewrite loop_item_st_run, (nth_error_grow _ _ _ _ Hd). cbv zeta.
  rewrite <- app_assoc.
  rewrite (lift_mono h0 _ m fuel hv x Hm Hx).
  eexists. split; [| reflexivity]. now eexists.
Qed.

Lemma runs_loop_st h0 f g : forall hxs xs m,
  all_some (map (lift m h0) hxs) = Some xs ->
  (forall hv x, lift m h0 hv = Some x -> runs_to h0 (f hv) (Ok (g x))) ->
  forall output,
  runs_to h0 (loop_st f hxs output) (Ok (output ++ map g xs)%list).
Proof.
  induction hxs as [|hv hxs IH]; intros xs m H Hf output; cbn [map all_some] in H.
  - injection H as <-. cbn [loop_st map]. rewrite app_nil_r. apply runs_ret.
  - destruct (lift m h0 hv) as [x|] eqn:Ex; [| discriminate].
    destruct (all_some _) as [xs'|] eqn:E; [| discriminate].
    injection H as <-. cbn [loop_st map].
    apply (runs_bind h0 _ _ (Ok (g x))
             (fun s => Ok (output ++ g x :: map g xs')%list)).
    + now apply Hf.
    + intros a [= <-].
      replace (output ++ g x :: map g xs')%list
        with ((output ++ [g x]) ++ map g xs')%list
        by now rewrite <- app_assoc.
      now apply (IH xs' m).
Qed.

Lemma runs_replace_for_st h0 n fuel ctx d c groups :
  holds_context h0 n ctx d c -> n <= fuel ->
  runs_to h0 (replace_for_st fuel ctx groups) (replace_for c groups).
Proof.
  intros Hc Hn. pose proof Hc as [Hd He].
  unfold replace_for_st, replace_for.
  destruct groups as [|v [|l [|b [|]]]]; try apply runs_raise.
  apply (runs_bind h0 _ _ (Ok d)
           (fun _ => if negb (contains l c) then Ok ""
                     else items <- getitem c l ;;
                          match items with
                          | VList xs => Ok (join "" (map (loop_item c v b) xs))
                          | _ => Ok ""
                          end)).
  { now apply runs_dict_of. }
  intros a [= <-]. rewrite (entries_contains n h0 l d c He).
  destruct (negb (contains l c)); [apply runs_ret |].
  pose proof (entries_lookup n h0 l d c He) as Hl. unfold getitem.
  destruct (lookup l d) as [hv|].
  2:{ rewrite Hl. cbn [bind]. intros h Hh. exists h. split; [assumption |].
      reflexivity. }
  destruct Hl as (x & Hx & ->). cbn [bind].
  intros h Hh. unfold bind_st at 1, of_result.
  revert h Hh. change (runs_to h0
    (match hv with
     | HRef l0 =>
         o <~ load l0 ;;
         match o with
         | OList xs =>
             output <~ loop_st (loop_item_st fuel ctx v b) xs [] ;;
             ret_st (join "" output)
         | ODict _ => ret_st ""
         end
     | _ => ret_st ""
     end)
    (match x with
     | VList xs => Ok (join "" (map (loop_item c v b) xs))
     | _ => Ok ""
     end)).
  destruct hv as [| bb | z | s | l2];
    try (destruct n; injection Hx as <-; apply runs_ret).
  destruct n as [|n']; [discriminate |]. cbn [lift] in Hx.
  destruct (nth_error h0 l2) as [[hxs|kvs]|] eqn:El; try discriminate.
  - destruct (all_some (map (lift n' h0) hxs)) as [xs|] eqn:Exs;
      [| discriminate].
    injection Hx as <-.
    apply (runs_bind h0 _ _ (Ok (OList hxs))
             (fun _ => Ok (join "" (map (loop_item c v b) xs)))).
    { now apply runs_load. }
    intros a [= <-].
    apply (runs_bind h0 _ _ (Ok ([] ++ map (loop_item c v b) xs)%list)
             (fun output => Ok (join "" output))).
    + apply (runs_loop_st h0 _ _ hxs xs n' Exs).
      intros hv x Hv. apply (runs_loop_item_st h0 (S n') fuel ctx d c v b n');
        auto; lia.
    + intros a [= <-]. apply runs_ret.
  - destruct (all_some _) as [fields|]; [| discriminate].
    injection Hx as <-.
    apply (runs_bind h0 _ _ (Ok (ODict kvs)) (fun _ => Ok "")).
    { now apply runs_load. }
    intros a [= <-]. apply runs_ret.
Qed.

Lemma runs_replace_if_st h0 n fuel ctx d c groups :
  holds_context h0 n ctx d c -> n <= fuel ->
  runs_to h0 (replace_if_st fuel ctx groups) (replace_if c groups).
Proof.
  intros [Hd He] Hn. unfold replace_if_st, replace_if.
  destruct groups as [|cond [|b [|]]]; try apply runs_raise.
  apply (runs_bind h0 _ _ (Ok d)
           (fun _ => if contains cond c
                     then x <- getitem c cond ;;
                          if truthy x then Ok b else Ok ""
                     else Ok "")).
  { now apply runs_dict_of. }
  intros a [= <-]. rewrite (entries_contains n h0 cond d c He).
  destruct (contains cond c); [| apply runs_ret].
  pose proof (entries_lookup n h0 cond d c He) as Hl. unfold getitem.
  destruct (lookup cond d) as [hv|].
  2:{ rewrite Hl. cbn [bind]. intros h Hh. now exists h. }
  destruct Hl as (x & Hx & ->). cbn [bind].
  intros h Hh. unfold bind_st at 1, of_result. revert h Hh.
  change (runs_to h0
            (x0 <~ read fuel hv ;; if truthy x0 then ret_st b else ret_st "")
            (bind (Ok x) (fun x => if truthy x then Ok b else Ok ""))).
  apply runs_bind; [now apply (runs_read h0 n) |].
  intros a _. destruct (truthy a); apply runs_ret.
Qed.

Lemma runs_cleanup h0 p s :
  runs_to h0 (re_sub_st p (fun _ => ret_st "") s)
    (re_sub p (fun _ => Ok "") s).
Proof. apply runs_expand_st. intros g. apply runs_ret. Qed.

Lemma runs_render_st h0 fuel template ctx c :
  lift fuel h0 (HRef ctx) = Some (VDict c) ->
  runs_to h0 (render_st fuel template ctx) (render template c).
Proof.
  intros H. apply lift_context in H as (n & d & -> & Hc).
  pose proof Hc as [Hd He].
  assert (Hn : n <= S n) by lia.
  unfold render_st, render.
  apply (runs_bind h0 _ _ (Ok d)
           (fun _ =>
              result <- re_sub for_pattern (replace_for c)
                          (substitute c template) ;;
              result <- re_sub if_pattern (replace_if c) result ;;
              result <- re_sub block_pattern (fun _ => Ok "") result ;;
              result <- re_sub var_pattern (fun _ => Ok "") result ;;
              Ok result)).
  { now apply runs_dict_of. }
  intros a [= <-].
  apply (runs_bind h0 _ _ (Ok (substitute c template))
           (fun r0 =>
              result <- re_sub for_pattern (replace_for c) r0 ;;
              result <- re_sub if_pattern (replace_if c) result ;;
              result <- re_sub block_pattern (fun _ => Ok "") result ;;
              result <- re_sub var_pattern (fun _ => Ok "") result ;;
              Ok result)).
  { now apply (runs_substitute_st h0 n). }
  intros r0 [= <-].
  apply runs_bind.
  { apply runs_expand_st. intros g.
    now apply (runs_replace_for_st h0 n (S n) ctx d c). }
  intros r1 _. apply runs_bind.
  { apply runs_expand_st. intros g.
    now apply (runs_replace_if_st h0 n (S n) ctx d c). }
  intros r2 _. apply runs_bind; [apply runs_cleanup |].
  intros r3 _. apply runs_bind; [apply runs_cleanup |].
  intros r4 _. apply runs_ret.
Qed.

(** C7. [render] is deterministic: what a call returns is decided by the
    template and by what the context stands for.  Two calls on the same
    template and on contexts of the same content return the same string
    (or raise alike), wherever the two contexts are kept, whatever else
    the store holds, and also when the second call runs in the store the
    first has left; the string is the one [render] gives on the
    content. *)
Theorem render_deterministic (template : string) (c : context)
    (fuel1 fuel2 : nat) (h1 h2 : heap) (ctx1 ctx2 : loc) :
  lift fuel1 h1 (HRef ctx1) = Some (VDict c) ->
  lift fuel2 h2 (HRef ctx2) = Some (VDict c) ->
  fst (render_st fuel1 template ctx1 h1) = render template c
  /\ fst (render_st fuel1 template ctx1 h1)
     = fst (render_st fuel2 template ctx2 h2)
  /\ fst (render_st fuel1 template ctx1
            (snd (render_st fuel1 template ctx1 h1)))
     = fst (render_st fuel1 template ctx1 h1).
Proof.
  intros H1 H2.
  destruct (runs_render_st h1 fuel1 template ctx1 c H1 h1 (ext_refl h1))
    as (h1' & [fresh ->] & E1).
  destruct (runs_render_st h2 fuel2 template ctx2 c H2 h2 (ext_refl h2))
    as (h2' & _ & E2).
  destruct (runs_render_st h1 fuel1 template ctx1 c H1 (h1 ++ fresh)%list)
    as (h3 & _ & E3); [now exists fresh |].
  rewrite E1, E2. cbn [fst snd]. rewrite E3. auto.
Qed.

(** Two calls of [render] on the sample store, the second in the store the
    first has left, and a call on the same context kept elsewhere. *)
Lemma render_deterministic_witness :
  let template := "{% for x in items %}[{{ x }}]{% endfor %}{{ p }}" in
  let c := [("items", VList [VInt 1; VInt 2; VInt 3]);
            ("p", VDict [("name", VStr "a")]); ("show", VBool true)] in
  let moved := (OList [] :: ODict [("name", HStr "a")]
                :: OList [HInt 1; HInt 2; HInt 3]
                :: [ODict [("items", HRef 2); ("p", HRef 1);
                           ("show", HBool true)]])%list in
  fst (render_st 3 template 2 sample_heap) = render template c
  /\ fst (render_st 3 template 2 sample_heap)
     = fst (render_st 7 template 3 moved)
  /\ fst (render_st 3 template 2 (snd (render_st 3 template 2 sample_heap)))
     = fst (render_st 3 template 2 sample_heap).
Proof.
  cbv zeta. apply render_deterministic; reflexivity.
Defined.

(** The store a call of [render] leaves on the sample store: the three
    objects of the context as they were, then the three copies of the
    context the loop has made. *)
Lemma render_st_frame_witness :
  let h' := snd (render_st 3 "{% for x in items %}[{{ x }}]{% endfor %}" 2
                   sample_heap) in
  firstn 3 h' = sample_heap
  /\ lift 3 h' (HRef 2) = lift 3 sample_heap (HRef 2)
  /\ List.length h' = 6.
Proof.
  cbv zeta.
  destruct (render_st_frame 3 "{% for x in items %}[{{ x }}]{% endfor %}" 2
              sample_heap) as (_ & _ & Hlift).
  split; [reflexivity | split; [| reflexivity]].
  rewrite (Hlift 3 (HRef 2) _ eq_refl). reflexivity.
Defined.



(* ===================================================================== *)
(** ** Templates without directives *)
(* ===================================================================== *)







(** X2. The first stage follows the order of the context, and a value it
    inserts is read as template text by the keys that come after: a
    reference brought in by the value of an earlier key is resolved by a
    later key, while the same two entries in the other order leave the
    reference to the cleanup, which deletes it. *)
Theorem render_follows_context_order (pre a b post : string) (x : value) :
  plain pre = true -> plain a = true -> plain b = true ->
  one_line b = true -> plain post = true -> a <> b ->
  plain (str x) = true ->
  render (pre ++ var_ref a ++ post) [(a, VStr (var_ref b)); (b, x)]
  = Ok (pre ++ str x ++ post)
  /\ render (pre ++ var_ref a ++ post) [(b, x); (a, VStr (var_ref b))]
     = Ok (pre ++ post).
Proof.
  intros Hpre Ha Hb Hl Hpost Hab Hx. split.
  - assert (Hs : substitute [(a, VStr (var_ref b)); (b, x)]
                   (pre ++ var_ref a ++ post) = pre ++ str x ++ post).
    { unfold substitute. cbn [fold_left str].
      rewrite (replace_ref_pass a _ pre) by now apply plain_open.
      rewrite replace_ref_hit.
      rewrite (replace_ref_absent a _ post) by now apply plain_open.
      rewrite (replace_ref_pass b _ pre) by now apply plain_open.
      rewrite replace_ref_hit.
      rewrite (replace_ref_absent b _ post) by now apply plain_open.
      reflexivity. }
    assert (Hm : mem_char "{" (pre ++ str x ++ post) = false).
    { now rewrite !mem_char_app, !plain_open. }
    rewrite render_no_open; rewrite Hs.
    + now apply cleanup_absent.
    + now apply no_open_plain.
  - assert (Hs : substitute [(b, x); (a, VStr (var_ref b))]
                   (pre ++ var_ref a ++ post) = pre ++ var_ref b ++ post).
    { unfold substitute. cbn [fold_left str].
      rewrite (replace_ref_pass b _ pre) by now apply plain_open.
      rewrite replace_other by auto.
      rewrite (replace_ref_pass a _ pre) by now apply plain_open.
      rewrite replace_ref_hit.
      rewrite (replace_ref_absent a _ post) by now apply plain_open.
      reflexivity. }
    rewrite render_no_open; rewrite Hs.
    + rewrite cleanup_pass, cleanup_ref, cleanup_absent
        by auto using plain_open.
      reflexivity.
    + rewrite no_open_pass, no_open_ref by auto using plain_open.
      rewrite (no_open_pass " }}") by reflexivity.
      apply no_open_plain. now apply plain_open.
Qed.

(** The two orders of the same two entries. *)
Lemma render_follows_context_order_witness :
  render "<{{ a }}>" [("a", VStr "{{ b }}"); ("b", VInt 7)] = Ok "<7>"
  /\ render "<{{ a }}>" [("b", VInt 7); ("a", VStr "{{ b }}")] = Ok "<>".
Proof.
  apply (render_follows_context_order "<" "a" "b" ">" (VInt 7));
    try reflexivity.
  discriminate.
Defined.

(* ===================================================================== *)
(** ** Frontmatter *)
(* ===================================================================== *)

Section RepClass.
Context {R : Type}.

(** What a repetition hands on: a run of the class, and the text after
    it. *)
Lemma rep_inv_class g cls (k : string -> string -> option R) :
  forall s min acc r,
  rep g cls min s acc k = Some r ->
  exists w s',
    s = w ++ s' /\ all_chars cls w = true /\ k (acc ++ w) s' = Some r.
Proof.
  assert (Stop : forall s min acc r,
    match min with O => k acc s | _ => None end = Some r ->
    exists w s',
      s = w ++ s' /\ all_chars cls w = true /\ k (acc ++ w) s' = Some r).
  { intros s [|m] acc r H; [| discriminate].
    exists "", s. now rewrite append_nil_r. }
  induction s as [|c s IH]; intros min acc r H; cbn [rep] in H.
  - now apply Stop in H.
  - destruct (cls c) eqn:Hc; [| now apply Stop in H].
    assert (More : forall r,
      rep g cls (pred min) s (acc ++ String c "") k = Some r ->
      exists w s',
        String c s = w ++ s' /\ all_chars cls w = true
        /\ k (acc ++ w) s' = Some r).
    { intros r' E. apply IH in E as (w & s' & -> & Hw & Hk).
      exists (String c w), s'. cbn [all_chars append]. rewrite Hc, Hw.
      now rewrite append_snoc in Hk. }
    destruct g.
    + destruct (rep true cls (pred min) s (acc ++ String c "") k) eqn:E.
      * injection H as ->. now apply More.
      * now apply Stop in H.
    + destruct (match min with O => k acc (String c s) | _ => None end) eqn:E.
      * injection H as ->. now apply Stop in E.
      * now apply More.
Qed.
End RepClass.

(** What the pattern matches at the start of a text. *)
Lemma exec_frontmatter_inv content g r :
  exec frontmatter_pattern [] content = Some (g, r) ->
  exists w1 body w2,
    content = "---" ++ w1 ++ nl ++ body ++ nl ++ "---" ++ w2 ++ nl ++ r
    /\ all_chars is_space w1 = true /\ all_chars is_space w2 = true
    /\ g = [body].
Proof.
  unfold frontmatter_pattern. intros H. cbn [exec] in H.
  destruct (strip_prefix "---" content) as [s1|] eqn:E1; [| discriminate].
  apply strip_prefix_inv in E1. subst content.
  apply rep_inv_class in H as (w1 & s2 & -> & Hw1 & H).
  destruct (strip_prefix nl s2) as [s3|] eqn:E2; [| discriminate].
  apply strip_prefix_inv in E2. subst s2.
  apply rep_inv_class in H as (body & s4 & -> & _ & H).
  destruct (strip_prefix (nl ++ "---") s4) as [s5|] eqn:E3; [| discriminate].
  apply strip_prefix_inv in E3. subst s4.
  apply rep_inv_class in H as (w2 & s6 & -> & Hw2 & H).
  destruct (strip_prefix nl s6) as [s7|] eqn:E4; [| discriminate].
  apply strip_prefix_inv in E4. subst s6.
  injection H as <- <-.
  exists w1, body, w2. rewrite !append_assoc. auto.
Qed.

(** X3. Frontmatter is found only in a file that can be read and is laid
    out as the pattern asks: [---] at the very start, a line break, a
    body, and a line that starts with [---] and is ended by a line break,
    with nothing but white space after either [---].  In every other case
    (no file, a file that cannot be read, no opening or closing delimiter,
    a closing [---] that ends the file) the result is the empty dict. *)
Theorem frontmatter_needs_delimiters (fs : filesystem) (file_path : string) :
  extract_frontmatter fs file_path <> [] ->
  exists w1 body w2 rest,
    fs file_path
    = Some (Readable ("---" ++ w1 ++ nl ++ body ++ nl ++ "---" ++ w2
                      ++ nl ++ rest))
    /\ all_chars is_space w1 = true /\ all_chars is_space w2 = true.
Proof.
  unfold extract_frontmatter. intros H.
  destruct (fs file_path) as [[content|]|]; try (now destruct H).
  destruct (exec frontmatter_pattern [] content) as [[g r]|] eqn:E;
    [| now destruct H].
  apply exec_frontmatter_inv in E as (w1 & body & w2 & -> & Hw1 & Hw2 & _).
  now exists w1, body, w2, r.
Qed.

(** A file with one field between the delimiters. *)
Lemma frontmatter_needs_delimiters_witness :
  exists w1 body w2 rest,
    (fun p => if String.eqb p "a.md"
              then Some (Readable ("---" ++ nl ++ "name: x" ++ nl ++ "---" ++ nl))
              else None) "a.md"
    = Some (Readable ("---" ++ w1 ++ nl ++ body ++ nl ++ "---" ++ w2
                      ++ nl ++ rest))
    /\ all_chars is_space w1 = true /\ all_chars is_space w2 = true.
Proof.
  apply (frontmatter_needs_delimiters
           (fun p => if String.eqb p "a.md"
                     then Some (Readable ("---" ++ nl ++ "name: x" ++ nl
                                          ++ "---" ++ nl))
                     else None) "a.md").
  vm_compute. discriminate.
Defined.

(** *** Splitting and stripping *)

Lemma split_on_nonempty sep : forall s, split_on sep s <> [].
Proof.
  induction s as [|c s IH]; cbn [split_on]; [discriminate |].
  destruct (Ascii.eqb c sep); [discriminate |].
  destruct (split_on sep s); [contradiction | discriminate].
Qed.

Lemma split_on_absent sep : forall s,
  mem_char sep s = false -> split_on sep s = [s].
Proof.
  induction s as [|c s IH]; cbn [split_on mem_char]; intros H;
    [reflexivity |].
  apply orb_false_iff in H as [H1 H2]. now rewrite H1, IH.
Qed.

Lemma split_on_app sep : forall l s,
  mem_char sep l = false ->
  split_on sep (l ++ String sep s) = l :: split_on sep s.
Proof.
  induction l as [|c l IH]; cbn [split_on mem_char append]; intros s H.
  - now rewrite Ascii.eqb_refl.
  - apply orb_false_iff in H as [H1 H2]. now rewrite H1, IH.
Qed.

Lemma split_on_join sep : forall lines,
  lines <> [] -> Forall (fun l => mem_char sep l = false) lines ->
  split_on sep (join (String sep "") lines) = lines.
Proof.
  induction lines as [|l lines IH]; intros Hne H; [contradiction |].
  inversion H as [|? ? Hl Hr]; subst.
  destruct lines as [|l' lines].
  - now apply split_on_absent.
  - change (join (String sep "") (l :: l' :: lines))
      with (l ++ String sep (join (String sep "") (l' :: lines))).
    rewrite split_on_app, IH by (assumption || discriminate). reflexivity.
Qed.

Lemma split_once_app sep : forall k v,
  mem_char sep k = false -> split_once sep (k ++ String sep v) = Some (k, v).
Proof.
  induction k as [|c k IH]; cbn [split_once mem_char append]; intros v H.
  - now rewrite Ascii.eqb_refl.
  - apply orb_false_iff in H as [H1 H2]. now rewrite H1, IH.
Qed.

Lemma lstrip_length cls : forall s,
  String.length (lstrip_chars cls s) <= String.length s.
Proof.
  induction s as [|c s IH]; cbn [lstrip_chars String.length]; [lia |].
  destruct (cls c); cbn [String.length]; lia.
Qed.

Lemma rstrip_length cls : forall s,
  String.length (rstrip_chars cls s) <= String.length s.
Proof.
  induction s as [|c s IH]; cbn [rstrip_chars String.length]; [lia |].
  destruct (rstrip_chars cls s); [destruct (cls c) |];
    cbn [String.length] in *; lia.
Qed.

(** A text that stripping leaves alone does not start with a character
    of the class. *)
Lemma strip_fixed_head cls c s :
  strip_chars cls (String c s) = String c s -> cls c = false.
Proof.
  unfold strip_chars. cbn [lstrip_chars]. intros H.
  destruct (cls c); [| reflexivity].
  pose proof (rstrip_length cls (lstrip_chars cls s)) as H1.
  pose proof (lstrip_length cls s) as H2.
  rewrite H in H1. cbn [String.length] in H1. lia.
Qed.

Lemma strip_fixed_lstrip cls s :
  strip_chars cls s = s -> lstrip_chars cls s = s.
Proof.
  destruct s as [|c s]; [reflexivity |]. intros H.
  apply strip_fixed_head in H. cbn [lstrip_chars]. now rewrite H.
Qed.

(** The space that follows the colon is stripped with the class. *)
Lemma strip_space_led v :
  strip_chars is_space v = v -> strip_chars is_space (String " " v) = v.
Proof.
  intros H. unfold strip_chars in *. cbn [lstrip_chars].
  change (is_space " ") with true. cbv iota. exact H.
Qed.

(** *** The pattern on a well-formed block *)

Section RepGreedy.
Context {R : Type}.

Lemma rep_greedy_one cls a c s acc (k : string -> string -> option R) :
  cls a = true -> cls c = false ->
  k (acc ++ String a "") (String c s) = None ->
  rep true cls 0 (String a (String c s)) acc k = k acc (String a (String c s)).
Proof. intros Ha Hc Hk. cbn [rep pred]. now rewrite Ha, Hc, Hk. Qed.

Lemma rep_greedy_fallback cls s acc (k : string -> string -> option R) :
  rep true cls 0 s acc k = None -> k acc s = None.
Proof.
  destruct s as [|c s]; cbn [rep]; [auto |].
  destruct (cls c); [| auto].
  now destruct (rep true cls (pred 0) s (acc ++ String c "") k).
Qed.
End RepGreedy.

(** The closing [\s*\n] matches whatever follows the line break, and
    leaves the groups as they are. *)
Lemma exec_close g tail :
  exists r, exec [Rep true 0 is_space; Lit nl] g (nl ++ tail) = Some (g, r).
Proof.
  cbn [exec].
  destruct (rep true is_space 0 (nl ++ tail) ""
              (fun _ rest => match strip_prefix nl rest with
                             | Some s' => Some (g, s')
                             | None => None
                             end)) as [[g' r]|] eqn:E.
  - apply rep_inv in E as (w & s' & _ & E).
    destruct (strip_prefix nl s'); [| discriminate].
    injection E as <- <-. now eexists.
  - apply rep_greedy_fallback in E. now rewrite strip_prefix_app in E.
Qed.

Lemma strip_prefix_dashes_app l c s :
  strip_prefix "---" l = None -> c <> "-"%char ->
  strip_prefix "---" (l ++ String c s) = None.
Proof.
  intros H Hc. apply Ascii.eqb_neq in Hc. rewrite Ascii.eqb_sym in Hc.
  destruct l as [|c1 [|c2 [|c3 l]]]; cbn [strip_prefix append] in *;
    repeat match goal with
           | |- context [Ascii.eqb "-" ?x] =>
               destruct (Ascii.eqb "-" x) eqn:?; try congruence
           end.
Qed.

Lemma exec_dashes_none p g s :
  strip_prefix "---" s = None ->
  exec (Lit (nl ++ "---") :: p) g (String (chr 10) s) = None.
Proof.
  intros H. cbn [exec].
  change (strip_prefix (nl ++ "---") (String (chr 10) s))
    with (strip_prefix "---" s).
  now rewrite H.
Qed.

(** The lazy group runs over lines that do not start with [---] up to
    the first one that does. *)
Lemma lazy_over_lines p g r tail : forall lines acc,
  lines <> [] ->
  Forall (fun l => mem_char (chr 10) l = false) lines ->
  Forall (fun l => strip_prefix "---" l = None) (tl lines) ->
  exec (Lit (nl ++ "---") :: p) (g ++ [(acc ++ join nl lines)%string])%list
    (nl ++ "---" ++ tail) = Some r ->
  rep false dot_all 0 (join nl lines ++ nl ++ "---" ++ tail) acc
    (fun w rest => exec (Lit (nl ++ "---") :: p) (g ++ [w])%list rest)
  = Some r.
Proof.
  induction lines as [|l lines IH]; intros acc Hne Hn Hd Hk;
    [contradiction |].
  inversion Hn as [|? ? Hl Hn']; subst.
  assert (Hskip : forall acc' c s, c <> chr 10 ->
            exec (Lit (nl ++ "---") :: p) (g ++ [acc'])%list (String c s)
            = None).
  { intros acc' c s Hc. now apply exec_head. }
  destruct lines as [|l' lines].
  - cbn [join] in *.
    rewrite (rep_lazy_skip dot_all _ (chr 10)); auto using all_dot_all.
    now apply rep_lazy_stop.
  - change (join nl (l :: l' :: lines)) with (l ++ nl ++ join nl (l' :: lines))
      in *.
    rewrite !append_assoc.
    rewrite (rep_lazy_skip dot_all _ (chr 10)); auto using all_dot_all.
    cbn [tl] in Hd. inversion Hd as [|? ? Hd1 Hd2]; subst.
    unfold nl at 1. cbn [append].
    rewrite rep_lazy_step.
    + replace ((acc ++ l) ++ String (chr 10) "") with (acc ++ l ++ nl)
        by now rewrite append_assoc.
      apply IH; [discriminate | assumption | | ].
      * destruct lines; [constructor | exact Hd2].
      * rewrite <- Hk. now rewrite !append_assoc.
    + reflexivity.
    + apply exec_dashes_none.
      destruct lines as [|l'' lines].
      * cbn [join]. apply strip_prefix_dashes_app; [assumption |].
        now vm_compute.
      * change (join nl (l' :: l'' :: lines))
          with (l' ++ String (chr 10) (join nl (l'' :: lines))).
        rewrite append_assoc. cbn [append].
        apply strip_prefix_dashes_app; [assumption |].
        now vm_compute.
Qed.

Lemma exec_rep_unfold g min cls p gr s :
  exec (Rep g min cls :: p) gr s
  = rep g cls min s "" (fun _ rest => exec p gr rest).
Proof. reflexivity. Qed.

Lemma exec_cap_unfold g min cls p gr s :
  exec (Cap g min cls :: p) gr s
  = rep g cls min s "" (fun w rest => exec p (gr ++ [w])%list rest).
Proof. reflexivity. Qed.

(** The pattern on a block of lines, the first of which does not start
    with a space and none of the others with [---]: the group is the
    block. *)
Lemma exec_frontmatter lines tail c first :
  lines <> [] ->
  Forall (fun l => mem_char (chr 10) l = false) lines ->
  Forall (fun l => strip_prefix "---" l = None) (tl lines) ->
  join nl lines = String c first -> is_space c = false ->
  exists r,
    exec frontmatter_pattern []
      ("---" ++ nl ++ join nl lines ++ nl ++ "---" ++ nl ++ tail)
    = Some ([join nl lines], r).
Proof.
  intros Hne Hn Hd Hj Hc.
  destruct (exec_close [join nl lines] tail) as [r Hr]. exists r.
  unfold frontmatter_pattern. rewrite exec_lit, exec_rep_unfold.
  set (X := nl ++ "---" ++ nl ++ tail).
  set (body := join nl lines) in *.
  assert (E : nl ++ body ++ X = String (chr 10) (String c (first ++ X)))
    by now rewrite Hj.
  rewrite E, rep_greedy_one.
  - rewrite <- E, exec_lit, exec_cap_unfold.
    apply lazy_over_lines; [assumption .. |]. exact Hr.
  - reflexivity.
  - assumption.
  - apply exec_head. intros ->. discriminate.
Qed.

(** *** The fields read back *)

Lemma lookup_notin {A} k : forall d : list (string * A),
  ~ In k (map fst d) -> lookup k d = None.
Proof.
  induction d as [|[k' x] d IH]; cbn [lookup map fst In]; intros H;
    [reflexivity |].
  destruct (String.eqb_spec k' k) as [->|]; [exfalso; auto | auto].
Qed.

Lemma setitem_fresh {A} k (x : A) : forall d,
  lookup k d = None -> setitem d k x = (d ++ [(k, x)])%list.
Proof.
  induction d as [|[k' y] d IH]; cbn [lookup setitem app]; intros H;
    [reflexivity |].
  destruct (String.eqb k' k); [discriminate | now rewrite IH].
Qed.

Lemma field_ok_inv k v :
  field_ok (k, v) = true ->
  mem_char ":" k = false /\ mem_char (chr 10) k = false
  /\ strip_chars is_space k = k /\ strip_prefix "---" k = None
  /\ mem_char (chr 10) v = false /\ strip_chars is_space v = v
  /\ strip_chars is_quote v = v.
Proof.
  unfold field_ok. cbn [fst snd]. intros H.
  repeat (apply andb_true_iff in H as [H ?]).
  repeat match goal with
         | E : negb _ = true |- _ => apply negb_true_iff in E
         | E : String.eqb _ _ = true |- _ => apply String.eqb_eq in E
         end.
  destruct (strip_prefix "---" k); [discriminate |].
  repeat split; assumption.
Qed.

Lemma parse_field acc k v :
  field_ok (k, v) = true -> lookup k acc = None ->
  parse_line acc (field_line (k, v)) = (acc ++ [(k, v)])%list.
Proof.
  intros H Hf. apply field_ok_inv in H as (H1 & _ & H3 & _ & _ & H6 & H7).
  unfold parse_line, field_line. cbn [fst snd].
  change (k ++ ": " ++ v) with (k ++ String ":" (String " " v)).
  rewrite split_once_app by assumption.
  rewrite H3, strip_space_led, H7 by assumption.
  now apply setitem_fresh.
Qed.

Lemma parse_fields : forall kvs acc,
  forallb field_ok kvs = true -> NoDup (map fst (acc ++ kvs)) ->
  fold_left parse_line (map field_line kvs) acc = (acc ++ kvs)%list.
Proof.
  induction kvs as [|[k v] kvs IH]; intros acc Hok Hnd; cbn [map fold_left].
  - now rewrite app_nil_r.
  - cbn [forallb] in Hok. apply andb_true_iff in Hok as [Hkv Hok].
    rewrite parse_field; [| assumption |].
    + rewrite IH; [now rewrite <- app_assoc | assumption |].
      now rewrite <- app_assoc.
    + apply lookup_notin. rewrite map_app in Hnd. cbn [map fst] in Hnd.
      apply NoDup_remove_2 in Hnd. intros Hin. apply Hnd.
      apply in_or_app. now left.
Qed.

Lemma field_line_head k v :
  strip_chars is_space k = k ->
  exists c first, field_line (k, v) = String c first /\ is_space c = false.
Proof.
  intros H. unfold field_line. cbn [fst snd].
  destruct k as [|c k]; cbn [append].
  - now eexists _, _.
  - apply strip_fixed_head in H. now eexists _, _.
Qed.

Lemma join_head sep x xs c first :
  x = String c first -> exists rest, join sep (x :: xs) = String c rest.
Proof.
  intros ->. destruct xs; cbn [join append]; now eexists.
Qed.

(** X4. Fields written one per line as [key: value] between two [---]
    lines are read back as they were written, in their order, whatever
    follows the block: this holds for distinct keys without a colon, and
    for keys and values on one line that carry no space at either end, no
    quote around the value, and no [---] at the start of the key. *)
Theorem frontmatter_round_trip (fs : filesystem) (file_path : string)
    (kvs : list (string * string)) (rest : string) :
  kvs <> [] -> forallb field_ok kvs = true -> NoDup (map fst kvs) ->
  fs file_path = Some (Readable (with_frontmatter kvs rest)) ->
  extract_frontmatter fs file_path = kvs.
Proof.
  intros Hne Hok Hnd Hfs. unfold extract_frontmatter. rewrite Hfs.
  assert (Hall : forall kv, In kv kvs -> field_ok kv = true)
    by now apply forallb_forall.
  destruct (exec_frontmatter (map field_line kvs) rest) with
    (c := match field_line (hd ("", "") kvs) with
          | String c _ => c | "" => " "%char end)
    (first := match join nl (map field_line kvs) with
              | String _ s => s | "" => "" end)
    as [r Hr].
  - now destruct kvs.
  - apply Forall_forall. intros l Hl. apply in_map_iff in Hl as ([k v] & <- & Hin).
    apply Hall, field_ok_inv in Hin as (_ & H2 & _ & _ & H5 & _).
    unfold field_line. cbn [fst snd].
    rewrite !mem_char_app, H2, H5. reflexivity.
  - apply Forall_forall. intros l Hl.
    assert (Hin : In l (map field_line kvs)).
    { destruct kvs; [contradiction | now right]. }
    apply in_map_iff in Hin as ([k v] & <- & Hin).
    apply Hall, field_ok_inv in Hin as (_ & _ & _ & H4 & _).
    unfold field_line. cbn [fst snd].
    change (k ++ ": " ++ v) with (k ++ String ":" (String " " v)).
    apply strip_prefix_dashes_app; [assumption | discriminate].
  - destruct kvs as [|[k v] kvs]; [contradiction |]. cbn [hd map].
    destruct (field_line_head k v) as (c & first & E & _).
    { pose proof (Hall (k, v) (or_introl eq_refl)) as H.
      now apply field_ok_inv in H. }
    destruct (join_head nl _ (map field_line kvs) _ _ E) as [rest' E'].
    now rewrite E', E.
  - destruct kvs as [|[k v] kvs]; [contradiction |]. cbn [hd].
    destruct (field_line_head k v) as (c & first & E & Hc).
    { pose proof (Hall (k, v) (or_introl eq_refl)) as H.
      now apply field_ok_inv in H. }
    now rewrite E.
  - unfold with_frontmatter in *. rewrite Hr.
    rewrite split_on_join.
    + now apply (parse_fields kvs []).
    + now destruct kvs.
    + apply Forall_forall. intros l Hl.
      apply in_map_iff in Hl as ([k v] & <- & Hin).
      apply Hall, field_ok_inv in Hin as (_ & H2 & _ & _ & H5 & _).
      unfold field_line. cbn [fst snd].
      rewrite !mem_char_app, H2, H5. reflexivity.
Qed.

(** Two fields, the second with a colon in its value, before a heading. *)
Lemma frontmatter_round_trip_witness :
  extract_frontmatter
    (fun p => if String.eqb p "agents/a.md"
              then Some (Readable
                           (with_frontmatter
                              [("name", "x"); ("description", "a: b")]
                              "# Title"))
              else None)
    "agents/a.md"
  = [("name", "x"); ("description", "a: b")].
Proof.
  apply frontmatter_round_trip with (rest := "# Title").
  - discriminate.
  - reflexivity.
  - repeat constructor; cbn [In]; intuition discriminate.
  - reflexivity.
Defined.

(* ===================================================================== *)
(** ** The context [build_context] builds *)
(* ===================================================================== *)

Lemma setitem_twice {A} k (x y : A) : forall d,
  setitem (setitem d k x) k y = setitem d k y.
Proof.
  induction d as [|[k' z] d IH]; cbn [setitem].
  - now rewrite String.eqb_refl.
  - destruct (String.eqb k' k) eqn:E; cbn [setitem].
    + now rewrite String.eqb_refl.
    + now rewrite E, IH.
Qed.
















Lemma for_each_raises {A} (f : context -> A -> result context) x :
  (forall ctx, exists e, f ctx x = Raise e) ->
  forall xs ctx, In x xs -> exists e, for_each f xs ctx = Raise e.
Proof.
  intros Hx. induction xs as [|y xs IH]; intros ctx Hin; [contradiction |].
  cbn [for_each]. destruct Hin as [->|Hin].
  - destruct (Hx ctx) as [e ->]. now exists e.
  - destruct (f ctx y) as [ctx1|e]; cbn [bind]; [auto | now exists e].
Qed.

(** X7. A catalog whose list of plugins holds anything but an object
    makes [build_context] raise: no context is returned, whatever the
    other plugins are. *)
Theorem build_context_rejects (marketplace_data : list (string * value))
    (fs : filesystem) (clock : datetime) (plugins : list value)
    (plugin : value) :
  lookup "plugins" marketplace_data = Some (VList plugins) ->
  In plugin plugins ->
  (forall fields, plugin <> VDict fields) ->
  exists e, build_context marketplace_data fs clock = Raise e.
Proof.
  intros Hl Hin Hp. unfold build_context, contains, getitem. rewrite Hl.
  cbn [negb bind iterate].
  apply for_each_raises with (x := plugin); [| assumption].
  intros ctx. exists AttributeError. unfold build_plugin.
  destruct plugin; try reflexivity. now destruct (Hp kvs).
Qed.



(** A list of plugins with a string among the objects. *)
Lemma build_context_rejects_witness :
  exists e,
    build_context
      [("plugins", VList [VDict [("name", VStr "a")]; VStr "b"])]
      (fun _ => None)
      {| year := 2026; month := 1; day := 2;
         hour := 3; minute := 4; second := 5 |}
    = Raise e.
Proof.
  apply (build_context_rejects _ _ _
           [VDict [("name", VStr "a")]; VStr "b"] (VStr "b")).
  - reflexivity.
  - right. left. reflexivity.
  - discriminate.
Defined.

(** *** Where the files of a plugin are looked for *)












(* ===================================================================== *)
(** ** DocGenerator.generate_all *)
(* ===================================================================== *)

(** What one turn of the loop writes. *)
Lemma generate_one_writes self fs can_write dry_run ctx template_name
    output_file path content :
  In (Write path content)
    (generate_one self fs can_write dry_run ctx (template_name, output_file))
  <-> dry_run = false
      /\ path = path_str (output_dir self ++ [output_file])%list
      /\ render_template self fs template_name ctx = Done content
      /\ can_write path content = true.
Proof.
  unfold generate_one.
  destruct (render_template self fs template_name ctx) as [c|e].
  - destruct dry_run.
    + split.
      * cbn [In]. intros [H|[H|[H|[H|[]]]]]; discriminate.
      * intros [H _]. discriminate.
    + destruct (can_write (path_str (output_dir self ++ [output_file])%list) c)
        eqn:W.
      * split.
        -- cbn [In]. intros [H|[H|[H|[]]]]; try discriminate.
           injection H as <- <-. auto.
        -- intros (_ & -> & [= ->] & _). right. left. reflexivity.
      * split.
        -- cbn [In]. intros [H|[H|[]]]; discriminate.
        -- intros (_ & -> & [= ->] & W'). congruence.
  - split.
    + cbn [In]. intros [H|[H|[]]]; discriminate.
    + intros (_ & _ & H & _). discriminate.
Qed.

Lemma generate_docs_writes self fs can_write dry_run ctx docs path content :
  In (Write path content)
    (flat_map (generate_one self fs can_write dry_run ctx) docs)
  <-> exists template_name output_file,
        In (template_name, output_file) docs
        /\ dry_run = false
        /\ path = path_str (output_dir self ++ [output_file])%list
        /\ render_template self fs template_name ctx = Done content
        /\ can_write path content = true.
Proof.
  rewrite in_flat_map. split.
  - intros ([template_name output_file] & Hin & H).
    apply generate_one_writes in H. now exists template_name, output_file.
  - intros (template_name & output_file & Hin & H).
    exists (template_name, output_file). split; [assumption |].
    now apply generate_one_writes.
Qed.

(** X9. A dry run writes no file: whatever the catalog, the templates and
    the file asked for, nothing [generate_all] does with [dry_run] set is
    a write. *)
Theorem generate_all_dry_run (self : DocGenerator) (fs : filesystem)
    (loads : json) (clock : datetime) (can_write : string -> string -> bool)
    (specific_file : option string) (path content : string) :
  ~ In (Write path content)
      (snd (generate_all self fs loads clock can_write true specific_file)).
Proof.
  unfold generate_all.
  destruct (load_marketplace self fs loads) as [data|e]; [| intros []].
  destruct (build_context_any data fs clock) as [ctx|e]; [| intros []].
  match goal with
  | |- context [match ?c with Done _ => _ | Failed _ => _ end] =>
      destruct c as [docs|e]
  end; [| intros []].
  cbn [snd]. intros H. apply generate_docs_writes in H.
  destruct H as (_ & _ & _ & H & _). discriminate.
Qed.







(* ===================================================================== *)
(** ** MarketplaceUpdater *)
(* ===================================================================== *)

(** *** What touches the file *)

Lemma quiet_ret {A} (a : A) : quiet (Updater.ret a).
Proof. intros self. auto. Qed.

Lemma quiet_fail {A} e : quiet (@Updater.fail A e).
Proof. intros self. auto. Qed.

Lemma quiet_try {A} (r : result A) : quiet (Updater.try r).
Proof. intros self. auto. Qed.

Lemma quiet_get_data : quiet Updater.get_data.
Proof. intros self. auto. Qed.

Lemma quiet_set_data v : quiet (Updater.set_data v).
Proof. intros self. auto. Qed.

Lemma quiet_load : quiet Updater.load.
Proof.
  intros self. unfold Updater.load.
  destruct (Updater.marketplace_file self) eqn:E; repeat split;
    cbn; auto.
Qed.

Lemma quiet_bind {A B} (m : Updater.U A) (k : A -> Updater.U B) :
  quiet m -> (forall a, quiet (k a)) -> quiet (Updater.bind_u m k).
Proof.
  intros Hm Hk self. unfold Updater.bind_u.
  specialize (Hm self). destruct (m self) as [[a|e] self1]; cbn [snd] in *.
  - specialize (Hk a self1). destruct Hk as (H1 & H2 & H3).
    destruct Hm as (H4 & H5 & H6). repeat split; congruence.
  - exact Hm.
Qed.

Lemma quiet_find name : quiet (Updater._find_plugin name).
Proof.
  unfold Updater._find_plugin.
  apply quiet_bind; [apply quiet_get_data | intros data].
  apply quiet_bind; [apply quiet_try | intros b].
  destruct b; cbn [negb]; [| apply quiet_ret].
  apply quiet_bind; [apply quiet_try | intros plugins].
  apply quiet_bind; [apply quiet_try | intros items].
  apply quiet_try.
Qed.

Lemma quiet_put_plugins f : quiet (Updater.put_plugins f).
Proof.
  unfold Updater.put_plugins.
  apply quiet_bind; [apply quiet_get_data | intros data].
  destruct data; try apply quiet_ret.
  destruct (lookup "plugins" kvs) as [[]|];
    try apply quiet_ret; apply quiet_set_data.
Qed.

Lemma atomic_quiet {A} (m : Updater.U A) : quiet m -> atomic m.
Proof.
  intros Hm self e self' H. specialize (Hm self). rewrite H in Hm. apply Hm.
Qed.

Lemma atomic_save : atomic Updater.save.
Proof.
  intros self e self'. unfold Updater.save.
  destruct (Updater.read_only self); [| discriminate].
  now intros [= _ <-].
Qed.

Lemma atomic_bind {A B} (m : Updater.U A) (k : A -> Updater.U B) :
  quiet m -> (forall a, atomic (k a)) -> atomic (Updater.bind_u m k).
Proof.
  intros Hm Hk self e self'. unfold Updater.bind_u.
  specialize (Hm self). destruct (m self) as [[a|e1] self1]; cbn [snd] in *.
  - intros H. apply Hk in H. destruct Hm as [Hm _]. congruence.
  - intros [= _ <-]. apply Hm.
Qed.



Lemma update_plugin_atomic name description version category keywords
    add_agent remove_agent add_command remove_command add_skill
    remove_skill :
  atomic (Updater.update_plugin name description version category keywords
            add_agent remove_agent add_command remove_command add_skill
            remove_skill).
Proof.
  unfold Updater.update_plugin.
  apply atomic_bind; [apply quiet_load | intros _].
  apply atomic_bind; [apply quiet_find | intros found].
  destruct found as [[i plugin]|]; [| apply atomic_quiet, quiet_fail].
  destruct (negb (truthy (VDict plugin)));
    [apply atomic_quiet, quiet_fail |].
  match goal with
  | |- atomic (let '(_, _) := ?r in _) => destruct r as [raised plugin']
  end.
  apply atomic_bind; [apply quiet_put_plugins | intros _].
  destruct raised; [apply atomic_quiet, quiet_fail | apply atomic_save].
Qed.




(** *** Finding a plugin *)

Lemma find_from_none name : forall pls i,
  forallb (fun f => negb (named name f)) pls = true ->
  Updater.find_from name i (map VDict pls) = Ok None.
Proof.
  induction pls as [|f pls IH]; intros i H; [reflexivity |].
  cbn [forallb] in H. apply andb_true_iff in H as [Hf H].
  apply negb_true_iff in Hf. unfold named in Hf.
  cbn [map Updater.find_from]. rewrite Hf. auto.
Qed.

Lemma find_from_some name f post : forall pre i,
  forallb (fun f => negb (named name f)) pre = true ->
  named name f = true ->
  Updater.find_from name i (map VDict pre ++ VDict f :: post)
  = Ok (Some (i + List.length pre, f)).
Proof.
  induction pre as [|g pre IH]; intros i H Hf.
  - cbn [map app Updater.find_from List.length]. unfold named in Hf.
    rewrite Hf. now rewrite Nat.add_0_r.
  - cbn [forallb] in H. apply andb_true_iff in H as [Hg H].
    apply negb_true_iff in Hg. unfold named in Hg.
    cbn [map app Updater.find_from List.length]. rewrite Hg.
    rewrite IH by assumption. now rewrite Nat.add_succ_r.
Qed.

(** What [find_from] finds is in the list, at the place it tells, and
    bears the name; nothing before it does. *)
Lemma find_from_inv name : forall plugins i j f,
  Updater.find_from name i plugins = Ok (Some (j, f)) ->
  exists pre post,
    plugins = (map VDict pre ++ VDict f :: post)%list
    /\ j = i + List.length pre
    /\ forallb (fun f => negb (named name f)) pre = true
    /\ named name f = true.
Proof.
  induction plugins as [|p plugins IH]; intros i j f H; [discriminate |].
  cbn [Updater.find_from] in H. destruct p as [| | | | |g]; try discriminate.
  destruct (match lookup "name" g with
            | Some x => is_str name x
            | None => false
            end) eqn:E.
  - injection H as <- <-. exists [], plugins.
    cbn [map app List.length forallb]. rewrite Nat.add_0_r. auto.
  - apply IH in H as (pre & post & -> & -> & Hpre & Hf).
    exists (g :: pre), post. cbn [map app List.length forallb].
    unfold named at 1. rewrite E, Hpre, Nat.add_succ_r. auto.
Qed.

Lemma named_truthy name f : named name f = true -> truthy (VDict f) = true.
Proof. unfold named. now destruct f. Qed.

Lemma set_nth_app x y post : forall pre,
  set_nth (List.length pre) x (pre ++ y :: post) = (pre ++ x :: post)%list.
Proof.
  induction pre as [|z pre IH]; cbn [List.length app set_nth];
    [reflexivity | now rewrite IH].
Qed.

Lemma del_nth_app y post : forall pre,
  del_nth (List.length pre) (pre ++ y :: post) = (pre ++ post)%list.
Proof.
  induction pre as [|z pre IH]; cbn [List.length app del_nth];
    [reflexivity | now rewrite IH].
Qed.

(** [_find_plugin] on a catalog that has been loaded. *)
Lemma find_plugin_run self d plugins name :
  Updater.marketplace_data self = VDict d ->
  lookup "plugins" d = Some (VList plugins) ->
  Updater._find_plugin name self
  = Updater.try (Updater.find_from name 0 plugins) self.
Proof.
  intros Hd Hl.
  unfold Updater._find_plugin, Updater.bind_u, Updater.get_data.
  rewrite Hd. unfold Updater.try at 1. cbn [has]. unfold contains.
  rewrite Hl. cbn [negb]. unfold Updater.try at 1. cbn [subscript].
  unfold getitem. rewrite Hl. unfold Updater.try at 1. cbn [iterate].
  reflexivity.
Qed.

Lemma load_document self v :
  Updater.marketplace_file self = Updater.Document v ->
  Updater.load self = (Done tt, loaded self v).
Proof. intros H. unfold Updater.load. now rewrite H. Qed.

Lemma bind_u_done {A B} (m : Updater.U A) (k : A -> Updater.U B) self a self' :
  m self = (Done a, self') -> Updater.bind_u m k self = k a self'.
Proof. intros H. unfold Updater.bind_u. now rewrite H. Qed.

Lemma bind_u_failed {A B} (m : Updater.U A) (k : A -> Updater.U B) self e
    self' :
  m self = (Failed e, self') -> Updater.bind_u m k self = (Failed e, self').
Proof. intros H. unfold Updater.bind_u. now rewrite H. Qed.

Lemma contains_lookup {A} k (d : list (string * A)) x :
  lookup k d = Some x -> contains k d = true.
Proof. intros H. unfold contains. now rewrite H. Qed.

(** *** Adding a plugin *)

(** X14. Adding a plugin under a name that a plugin of the catalog
    already bears raises the [ValueError] that says so, and leaves the
    file as it is. *)
Theorem add_plugin_existing (self : Updater.MarketplaceUpdater)
    (d : list (string * value)) (pre : list (list (string * value)))
    (f : list (string * value)) (post : list value)
    (name description version category : string)
    (agents commands skills keywords : option (list string))
    (license : string) (strict : bool)
    (author_name author_url : option string) :
  Updater.marketplace_file self = Updater.Document (VDict d) ->
  lookup "plugins" d = Some (VList (map VDict pre ++ VDict f :: post)) ->
  forallb (fun g => negb (named name g)) pre = true ->
  named name f = true ->
  Updater.add_plugin name description version category agents commands
    skills keywords license strict author_name author_url self
  = (Failed (ValueError ("Plugin '" ++ name
                         ++ "' already exists in marketplace")),
     loaded self (VDict d)).
Proof.
  intros Hfile Hl Hpre Hf. unfold Updater.add_plugin.
  rewrite (bind_u_done _ _ _ _ _ (load_document _ _ Hfile)).
  rewrite (bind_u_done _ _ _ (VDict d) (loaded self (VDict d)))
    by reflexivity.
  rewrite (bind_u_done _ _ _ true (loaded self (VDict d)))
    by (unfold Updater.try; cbn [has]; now rewrite (contains_lookup _ _ _ Hl)).
  cbn [negb].
  rewrite (bind_u_done _ _ _ tt (loaded self (VDict d))) by reflexivity.
  rewrite (bind_u_done _ _ _ (Some (0 + List.length pre, f))
             (loaded self (VDict d))).
  - now rewrite (named_truthy name f Hf).
  - rewrite (find_plugin_run (loaded self (VDict d)) d _ name eq_refl Hl).
    now rewrite find_from_some.
Qed.

(** A catalog with one plugin, asked to take another of the same name. *)
Lemma add_plugin_existing_witness :
  Updater.add_plugin "p" "d" "1.0" "general" None None None None "MIT" false
    None None
    {| Updater.marketplace_path := "m.json";
       Updater.marketplace_file :=
         Updater.Document
           (VDict [("plugins", VList [VDict [("name", VStr "p")]])]);
       Updater.read_only := false;
       Updater.marketplace_data := VDict [] |}
  = (Failed (ValueError ("Plugin '" ++ "p"
                         ++ "' already exists in marketplace")),
     loaded
       {| Updater.marketplace_path := "m.json";
          Updater.marketplace_file :=
            Updater.Document
              (VDict [("plugins", VList [VDict [("name", VStr "p")]])]);
          Updater.read_only := false;
          Updater.marketplace_data := VDict [] |}
       (VDict [("plugins", VList [VDict [("name", VStr "p")]])])).
Proof.
  apply (add_plugin_existing _
           [("plugins", VList [VDict [("name", VStr "p")]])]
           [] [("name", VStr "p")] []);
    reflexivity.
Defined.

Lemma bind_u_inv {A B} (m : Updater.U A) (k : A -> Updater.U B) self b self' :
  Updater.bind_u m k self = (Done b, self') ->
  exists a self1, m self = (Done a, self1) /\ k a self1 = (Done b, self').
Proof.
  unfold Updater.bind_u. destruct (m self) as [[a|e] self1]; [| discriminate].
  intros H. now exists a, self1.
Qed.

Lemma try_inv {A} (r : result A) self a self1 :
  Updater.try r self = (Done a, self1) -> r = Ok a /\ self1 = self.
Proof.
  unfold Updater.try. destruct r; [| discriminate].
  now intros [= -> ->].
Qed.

Lemma load_inv self self1 :
  Updater.load self = (Done tt, self1) ->
  exists v,
    Updater.marketplace_file self = Updater.Document v
    /\ self1 = loaded self v.
Proof.
  unfold Updater.load.
  destruct (Updater.marketplace_file self) as [| | |v] eqn:E;
    try discriminate.
  intros [= <-]. now exists v.
Qed.

Lemma save_inv self self1 :
  Updater.save self = (Done tt, self1) ->
  Updater.read_only self = false
  /\ self1 = saved self (Updater.marketplace_data self).
Proof.
  unfold Updater.save.
  destruct (Updater.read_only self) eqn:E; [discriminate |].
  intros [= <-]. unfold saved. now rewrite E.
Qed.

(** A list in which nothing is found holds objects only, none of which
    bears the name. *)
Lemma find_from_none_inv name : forall plugins i,
  Updater.find_from name i plugins = Ok None ->
  exists pls,
    plugins = map VDict pls
    /\ forallb (fun f => negb (named name f)) pls = true.
Proof.
  induction plugins as [|p plugins IH]; intros i H.
  - now exists [].
  - cbn [Updater.find_from] in H.
    destruct p as [| | | | |g]; try discriminate.
    destruct (match lookup "name" g with
              | Some x => is_str name x
              | None => false
              end) eqn:E; [discriminate |].
    apply IH in H as (pls & -> & Hpls). exists (g :: pls).
    cbn [map forallb]. unfold named at 1. now rewrite E, Hpls.
Qed.

(** [_find_plugin] on a catalog that is an object. *)
Lemma find_plugin_inv self name d r self1 :
  Updater.marketplace_data self = VDict d ->
  Updater._find_plugin name self = (Done r, self1) ->
  self1 = self
  /\ (lookup "plugins" d = None /\ r = None
      \/ exists plugins items,
           lookup "plugins" d = Some plugins
           /\ iterate plugins = Ok items
           /\ Updater.find_from name 0 items = Ok r).
Proof.
  intros Hd. unfold Updater._find_plugin.
  intros H. apply bind_u_inv in H as (data & s1 & H1 & H).
  injection H1 as <- <-. rewrite Hd in H.
  apply bind_u_inv in H as (b & s2 & H2 & H).
  apply try_inv in H2 as [H2 ->]. cbn [has] in H2. injection H2 as <-.
  unfold contains in H.
  destruct (lookup "plugins" d) as [plugins|] eqn:El; cbn [negb] in H.
  - apply bind_u_inv in H as (p & s3 & H3 & H).
    apply try_inv in H3 as [H3 ->]. cbn [subscript] in H3.
    unfold getitem in H3. rewrite El in H3. injection H3 as <-.
    apply bind_u_inv in H as (items & s4 & H4 & H).
    apply try_inv in H4 as [H4 ->].
    apply try_inv in H as [H ->].
    split; [reflexivity |]. right. now exists plugins, items.
  - injection H as <- <-. auto.
Qed.

Lemma find_plugin_dict self name r self1 :
  Updater._find_plugin name self = (Done r, self1) ->
  r = None \/ exists d, Updater.marketplace_data self = VDict d.
Proof.
  unfold Updater._find_plugin. intros H.
  apply bind_u_inv in H as (data & s1 & H1 & H).
  injection H1 as <- <-.
  destruct (Updater.marketplace_data self) as [| | | | |d] eqn:E;
    [| | | | | right; now exists d];
    apply bind_u_inv in H as (hp & s2 & H2 & H);
    apply try_inv in H2 as [H2 ->]; cbn [has] in H2; try discriminate;
    injection H2 as <-;
    match type of H with
    | (if negb ?c then _ else _) _ = _ => destruct c
    end; cbn [negb] in H;
    try (injection H as <- _; now left);
    apply bind_u_inv in H as (p & s3 & H3 & _);
    apply try_inv in H3 as [H3 _]; discriminate.
Qed.

Lemma links_of_shape data links :
  Updater.links_of data = Ok links ->
  links = [] \/ exists u, links = [("homepage", u); ("repository", u)].
Proof.
  unfold Updater.links_of.
  destruct (has "owner" data) as [[]|e]; cbn [bind]; try discriminate.
  2:{ intros [= <-]. now left. }
  destruct (subscript data "owner") as [owner|e]; cbn [bind];
    [| discriminate].
  destruct (has "url" owner) as [[]|e]; cbn [bind]; try discriminate.
  2:{ intros [= <-]. now left. }
  destruct (subscript owner "url") as [u|e]; cbn [bind]; [| discriminate].
  destruct (has "github.com" u) as [[]|e]; cbn [bind]; try discriminate.
  - intros [= <-]. right. now exists u.
  - intros [= <-]. now left.
Qed.

(** When [add_plugin] returns: the catalog it found and the file it
    left. *)
Lemma add_plugin_inv (self self' : Updater.MarketplaceUpdater)
    (name description version category : string)
    (agents commands skills keywords : option (list string))
    (license : string) (strict : bool)
    (author_name author_url : option string) :
  Updater.add_plugin name description version category agents commands
    skills keywords license strict author_name author_url self
  = (Done tt, self') ->
  exists d pls author links,
    Updater.marketplace_file self = Updater.Document (VDict d)
    /\ Updater.read_only self = false
    /\ (lookup "plugins" d = None /\ pls = []
        \/ lookup "plugins" d = Some (VList (map VDict pls)))
    /\ forallb (fun f => negb (named name f)) pls = true
    /\ (links = [] \/ exists u, links = [("homepage", u); ("repository", u)])
    /\ self'
       = saved self
           (VDict
              (setitem d "plugins"
                 (VList
                    (map VDict pls
                     ++ [VDict
                           (plugin_entry name description version category
                              license strict author links keywords agents
                              commands skills)])))).
Proof.
  unfold Updater.add_plugin. intros H.
  apply bind_u_inv in H as ([] & s1 & H1 & H).
  apply load_inv in H1 as (v & Hfile & ->).
  apply bind_u_inv in H as (data & s2 & H2 & H).
  injection H2 as <- <-. cbn [loaded Updater.marketplace_data] in H.
  apply bind_u_inv in H as (b & s3 & H3 & H).
  apply try_inv in H3 as [Hb ->].
  apply bind_u_inv in H as ([] & s4 & H4 & H).
  apply bind_u_inv in H as (existing & s5 & H5 & H).
  (* the catalog as the search sees it *)
  assert (Hs4 : exists d1 plugins1,
            s4 = loaded self (VDict d1)
            /\ lookup "plugins" d1 = Some plugins1
            /\ exists d,
                 v = VDict d
                 /\ (lookup "plugins" d = None
                     /\ d1 = setitem d "plugins" (VList [])
                     /\ plugins1 = VList []
                     \/ lookup "plugins" d = Some plugins1 /\ d1 = d)).
  { destruct b; cbn [negb] in H4.
    - injection H4 as <-.
      destruct (find_plugin_dict _ _ _ _ H5) as [->|[d Hd]].
      + cbn in H. (* nothing found: the list is then appended to *)
        destruct v as [| | |s|xs|d]; try discriminate.
        * unfold Updater._find_plugin, Updater.bind_u, Updater.get_data,
            Updater.try in H5.
          cbn [loaded Updater.marketplace_data] in H5.
          rewrite Hb in H5. cbn in H5. discriminate.
        * unfold Updater._find_plugin, Updater.bind_u, Updater.get_data,
            Updater.try in H5.
          cbn [loaded Updater.marketplace_data] in H5.
          rewrite Hb in H5. cbn in H5. discriminate.
        * cbn [has] in Hb. injection Hb as Hb. unfold contains in Hb.
          destruct (lookup "plugins" d) as [plugins|] eqn:El;
            [| discriminate].
          exists d, plugins. repeat split; try assumption.
          exists d. split; [reflexivity |]. now right.
      + cbn in Hd. subst v. cbn [has] in Hb. injection Hb as Hb.
        unfold contains in Hb.
        destruct (lookup "plugins" d) as [plugins|] eqn:El; [| discriminate].
        exists d, plugins. repeat split; try assumption.
        exists d. split; [reflexivity |]. now right.
    - apply bind_u_inv in H4 as (data1 & s & H41 & H42).
      apply try_inv in H41 as [H41 ->].
      destruct v as [| | | | |d]; try discriminate.
      cbn [assign_item] in H41. injection H41 as <-.
      injection H42 as <-.
      cbn [has] in Hb. injection Hb as Hb. unfold contains in Hb.
      destruct (lookup "plugins" d) eqn:El; [discriminate |].
      exists (setitem d "plugins" (VList [])), (VList []).
      repeat split.
      + apply lookup_setitem_same.
      + exists d. split; [reflexivity |]. now left. }
  destruct Hs4 as (d1 & plugins1 & -> & Hl1 & d & -> & Hcase).
  apply (find_plugin_inv _ name d1) in H5 as [-> Hfind]; [| reflexivity].
  destruct Hfind as [[Hnone _]|(plugins & items & Hl & Hit & Hfind)];
    [congruence |].
  rewrite Hl1 in Hl. injection Hl as <-.
  destruct existing as [[i f]|].
  { apply find_from_inv in Hfind as (_ & _ & _ & _ & _ & Hf).
    rewrite (named_truthy _ _ Hf) in H. discriminate. }
  apply find_from_none_inv in Hfind as (pls & -> & Hpls).
  apply bind_u_inv in H as (data & s6 & H6 & H).
  injection H6 as <- <-. cbn [loaded Updater.marketplace_data] in H.
  apply bind_u_inv in H as (author & s7 & H7 & H).
  apply try_inv in H7 as [_ ->].
  apply bind_u_inv in H as (links & s8 & H8 & H).
  apply try_inv in H8 as [Hlinks ->]. apply links_of_shape in Hlinks.
  apply bind_u_inv in H as (plugins & s9 & H9 & H).
  apply try_inv in H9 as [H9 ->]. cbn [subscript] in H9.
  unfold getitem in H9. rewrite Hl1 in H9. injection H9 as <-.
  apply bind_u_inv in H as (plugins' & s10 & H10 & H).
  apply try_inv in H10 as [H10 ->].
  destruct plugins1 as [| | | |xs|]; try discriminate.
  cbn [iterate] in Hit. injection Hit as ->.
  cbn [list_append] in H10. injection H10 as <-.
  apply bind_u_inv in H as (data' & s11 & H11 & H).
  apply try_inv in H11 as [H11 ->]. cbn [assign_item] in H11.
  injection H11 as <-.
  apply bind_u_inv in H as ([] & s12 & H12 & H).
  injection H12 as <-.
  apply save_inv in H as [Hro Hs'].
  exists d, pls, author, links.
  set (entry := plugin_entry name description version category license strict
                  author links keywords agents commands skills).
  assert (Hd1 : setitem d1 "plugins" (VList (map VDict pls ++ [VDict entry]))
                = setitem d "plugins"
                    (VList (map VDict pls ++ [VDict entry]))).
  { destruct Hcase as [(_ & -> & _)|[_ ->]];
      [apply setitem_twice | reflexivity]. }
  split; [assumption |]. split; [exact Hro |]. split.
  { destruct Hcase as [(Hn & _ & E)|[Hs _]].
    - left. split; [assumption |]. injection E as E.
      now destruct pls.
    - right. assumption. }
  split; [assumption |]. split; [assumption |].
  rewrite Hs', <- Hd1. reflexivity.
Qed.

(** X15. [add_plugin] returns only when the file holds an object whose
    [plugins] is missing or is a list of objects none of which bears the
    name, and the file can be written.  The file then holds the same
    document with the new plugin at the end of [plugins], after the
    plugins that were there, which are unchanged; its first entries are
    the name, the source [./plugins/<name>], the description, the
    version, the category, the license and the strict flag; and
    [_find_plugin] finds it under its name. *)
Theorem add_plugin_appends (self self' : Updater.MarketplaceUpdater)
    (name description version category : string)
    (agents commands skills keywords : option (list string))
    (license : string) (strict : bool)
    (author_name author_url : option string) :
  Updater.add_plugin name description version category agents commands
    skills keywords license strict author_name author_url self
  = (Done tt, self') ->
  exists d pls extra,
    Updater.marketplace_file self = Updater.Document (VDict d)
    /\ Updater.read_only self = false
    /\ (lookup "plugins" d = None /\ pls = []
        \/ lookup "plugins" d = Some (VList (map VDict pls)))
    /\ forallb (fun f => negb (named name f)) pls = true
    /\ self'
       = saved self
           (VDict
              (setitem d "plugins"
                 (VList
                    (map VDict pls
                     ++ [VDict
                           ([ ("name", VStr name);
                              ("source", VStr ("./plugins/" ++ name));
                              ("description", VStr description);
                              ("version", VStr version);
                              ("category", VStr category);
                              ("license", VStr license);
                              ("strict", VBool strict) ] ++ extra)]))))
    /\ fst (Updater._find_plugin name self')
       = Done (Some (List.length pls,
                     ([ ("name", VStr name);
                        ("source", VStr ("./plugins/" ++ name));
                        ("description", VStr description);
                        ("version", VStr version);
                        ("category", VStr category);
                        ("license", VStr license);
                        ("strict", VBool strict) ] ++ extra)%list)).
Proof.
  intros H.
  apply add_plugin_inv in H
    as (d & pls & author & links & Hfile & Hro & Hcase & Hpls & _ & ->).
  exists d, pls,
    (match author with Some a => [("author", a)] | None => [] end
     ++ links
     ++ match given_list keywords with
        | Some ks => [("keywords", VList (map VStr ks))]
        | None => []
        end
     ++ Updater.listed "agents" "./agents/" agents
     ++ Updater.listed "commands" "./commands/" commands
     ++ Updater.listed "skills" "./skills/" skills)%list.
  repeat (split; [assumption || reflexivity |]).
  match goal with
  | |- context [VList (map VDict pls ++ [VDict ?e])] => set (entry := e)
  end.
  rewrite (find_plugin_run _
             (setitem d "plugins" (VList (map VDict pls ++ [VDict entry])))
             (map VDict pls ++ [VDict entry])%list name).
  - rewrite find_from_some; [reflexivity | assumption |].
    unfold named, entry, plugin_entry.
    cbn [app lookup String.eqb Ascii.eqb Bool.eqb].
    unfold is_str. now rewrite String.eqb_refl.
  - reflexivity.
  - apply lookup_setitem_same.
Qed.

(** The example catalog, given a second plugin. *)
Lemma add_plugin_appends_witness :
  exists d pls extra,
    Updater.marketplace_file example_updater = Updater.Document (VDict d)
    /\ Updater.read_only example_updater = false
    /\ (lookup "plugins" d = None /\ pls = []
        \/ lookup "plugins" d = Some (VList (map VDict pls)))
    /\ forallb (fun f => negb (named "b" f)) pls = true
    /\ snd (Updater.add_plugin "b" "second" "0.1" "general" None None None
              None "MIT" false None None example_updater)
       = saved example_updater
           (VDict
              (setitem d "plugins"
                 (VList
                    (map VDict pls
                     ++ [VDict
                           ([ ("name", VStr "b");
                              ("source", VStr ("./plugins/" ++ "b"));
                              ("description", VStr "second");
                              ("version", VStr "0.1");
                              ("category", VStr "general");
                              ("license", VStr "MIT");
                              ("strict", VBool false) ] ++ extra)]))))
    /\ fst (Updater._find_plugin "b"
              (snd (Updater.add_plugin "b" "second" "0.1" "general" None None
                      None None "MIT" false None None example_updater)))
       = Done (Some (List.length pls,
                     ([ ("name", VStr "b");
                        ("source", VStr ("./plugins/" ++ "b"));
                        ("description", VStr "second");
                        ("version", VStr "0.1");
                        ("category", VStr "general");
                        ("license", VStr "MIT");
                        ("strict", VBool false) ] ++ extra)%list)).
Proof.
  apply (add_plugin_appends example_updater _ "b" "second" "0.1" "general"
           None None None None "MIT" false None None).
  reflexivity.
Defined.

(** *** Removing a plugin *)

Lemma put_plugins_run self d plugins f :
  Updater.marketplace_data self = VDict d ->
  lookup "plugins" d = Some (VList plugins) ->
  Updater.put_plugins f self
  = (Done tt, loaded self (VDict (setitem d "plugins" (VList (f plugins))))).
Proof.
  intros Hd Hl. unfold Updater.put_plugins, Updater.bind_u, Updater.get_data.
  now rewrite Hd, Hl.
Qed.

Lemma save_run self :
  Updater.read_only self = false ->
  Updater.save self = (Done tt, saved self (Updater.marketplace_data self)).
Proof.
  intros H. unfold Updater.save, saved. now rewrite H.
Qed.

(** [remove_plugin] on a catalog in which the plugin is found. *)
Lemma remove_plugin_run self d pre f post name :
  Updater.marketplace_file self = Updater.Document (VDict d) ->
  Updater.read_only self = false ->
  lookup "plugins" d = Some (VList (map VDict pre ++ VDict f :: post)) ->
  forallb (fun g => negb (named name g)) pre = true ->
  named name f = true ->
  Updater.remove_plugin name self
  = (Done tt,
     saved self (VDict (setitem d "plugins" (VList (map VDict pre ++ post))))).
Proof.
  intros Hfile Hro Hl Hpre Hf. unfold Updater.remove_plugin.
  rewrite (bind_u_done _ _ _ _ _ (load_document _ _ Hfile)).
  rewrite (bind_u_done _ _ _ (Some (0 + List.length pre, f))
             (loaded self (VDict d))).
  2:{ rewrite (find_plugin_run (loaded self (VDict d)) d _ name eq_refl Hl).
      now rewrite find_from_some. }
  rewrite (named_truthy name f Hf). cbn [negb].
  rewrite (bind_u_done _ _ _ tt
             (loaded self
                (VDict (setitem d "plugins"
                          (VList (map VDict pre ++ post)))))).
  - rewrite save_run by exact Hro. reflexivity.
  - rewrite (put_plugins_run (loaded self (VDict d)) d _ _ eq_refl Hl).
    cbn [Nat.add]. rewrite <- (length_map VDict pre), del_nth_app.
    reflexivity.
Qed.

(** X16. [remove_plugin] takes out of the catalog the first plugin that
    bears the name, and nothing else: the plugins before it and after it
    stay, in their order, and the rest of the document is as it was.
    When no plugin after it bears the name, the name is not found any
    more. *)
Theorem remove_plugin_removes (self : Updater.MarketplaceUpdater)
    (d : list (string * value)) (pre : list (list (string * value)))
    (f : list (string * value)) (post : list value) (name : string) :
  Updater.marketplace_file self = Updater.Document (VDict d) ->
  Updater.read_only self = false ->
  lookup "plugins" d = Some (VList (map VDict pre ++ VDict f :: post)) ->
  forallb (fun g => negb (named name g)) pre = true ->
  named name f = true ->
  Updater.remove_plugin name self
  = (Done tt,
     saved self (VDict (setitem d "plugins" (VList (map VDict pre ++ post)))))
  /\ forall rest,
       post = map VDict rest ->
       forallb (fun g => negb (named name g)) rest = true ->
       fst (Updater._find_plugin name
              (saved self
                 (VDict (setitem d "plugins"
                           (VList (map VDict pre ++ post))))))
       = Done None.
Proof.
  intros Hfile Hro Hl Hpre Hf. split.
  - now apply (remove_plugin_run self d pre f post).
  - intros rest -> Hrest.
    rewrite (find_plugin_run _
               (setitem d "plugins" (VList (map VDict pre ++ map VDict rest)))
               (map VDict pre ++ map VDict rest)%list name).
    + rewrite <- map_app, find_from_none; [reflexivity |].
      now rewrite forallb_app, Hpre, Hrest.
    + reflexivity.
    + apply lookup_setitem_same.
Qed.

(** The example catalog, its one plugin removed. *)
Lemma remove_plugin_removes_witness :
  Updater.remove_plugin "a" example_updater
  = (Done tt,
     saved example_updater
       (VDict (setitem example_catalog "plugins"
                 (VList (map VDict [] ++ [])))))
  /\ forall rest,
       [] = map VDict rest ->
       forallb (fun g => negb (named "a" g)) rest = true ->
       fst (Updater._find_plugin "a"
              (saved example_updater
                 (VDict (setitem example_catalog "plugins"
                           (VList (map VDict [] ++ []))))))
       = Done None.
Proof.
  apply (remove_plugin_removes example_updater example_catalog []
           [ ("name", VStr "a"); ("source", VStr "./plugins/a");
             ("description", VStr "first"); ("version", VStr "1.0");
             ("agents", VList [VStr "./agents/x.md"]) ]
           [] "a");
    reflexivity.
Defined.


(** *** Updating a plugin *)

(** The changes [update_plugin] makes to the plugin found. *)
Lemma update_plugin_run self d pre f post name description version category
    keywords add_agent remove_agent add_command remove_command add_skill
    remove_skill f' :
  Updater.marketplace_file self = Updater.Document (VDict d) ->
  Updater.read_only self = false ->
  lookup "plugins" d = Some (VList (map VDict pre ++ VDict f :: post)) ->
  forallb (fun g => negb (named name g)) pre = true ->
  named name f = true ->
  Updater.run_steps
    [ Updater.add_component "agents" "./agents/" add_agent;
      Updater.remove_component "agents" "./agents/" remove_agent;
      Updater.add_component "commands" "./commands/" add_command;
      Updater.remove_component "commands" "./commands/" remove_command;
      Updater.add_component "skills" "./skills/" add_skill;
      Updater.remove_component "skills" "./skills/" remove_skill ]
    (Updater.set_given "keywords"
       (option_map (fun ks => VList (map VStr ks)) (given_list keywords))
       (Updater.set_given "category" (option_map VStr (given_str category))
          (Updater.set_given "version" (option_map VStr (given_str version))
             (Updater.set_given "description"
                (option_map VStr (given_str description)) f))))
  = (None, f') ->
  Updater.update_plugin name description version category keywords add_agent
    remove_agent add_command remove_command add_skill remove_skill self
  = (Done tt,
     saved self
       (VDict (setitem d "plugins"
                 (VList (map VDict pre ++ VDict f' :: post))))).
Proof.
  intros Hfile Hro Hl Hpre Hf Hrun. unfold Updater.update_plugin.
  rewrite (bind_u_done _ _ _ _ _ (load_document _ _ Hfile)).
  rewrite (bind_u_done _ _ _ (Some (0 + List.length pre, f))
             (loaded self (VDict d))).
  2:{ rewrite (find_plugin_run (loaded self (VDict d)) d _ name eq_refl Hl).
      now rewrite find_from_some. }
  rewrite (named_truthy name f Hf). cbn [negb]. cbv zeta.
  rewrite Hrun.
  rewrite (bind_u_done _ _ _ tt
             (loaded self
                (VDict (setitem d "plugins"
                          (VList (map VDict pre ++ VDict f' :: post)))))).
  - rewrite save_run by exact Hro. reflexivity.
  - rewrite (put_plugins_run (loaded self (VDict d)) d _ _ eq_refl Hl).
    cbn [Nat.add]. rewrite <- (length_map VDict pre), set_nth_app.
    reflexivity.
Qed.

Lemma iterate_holds_dict v items pre f post :
  iterate v = Ok items ->
  items = (map VDict pre ++ VDict f :: post)%list ->
  v = VList items.
Proof.
  intros Hit ->. destruct v as [| | |s|xs|kvs]; try discriminate;
    cbn [iterate] in Hit; injection Hit as Hit.
  - assert (Hin : In (VDict f)
                    (map (fun c => VStr (String c ""))
                       (list_ascii_of_string s))).
    { rewrite Hit. apply in_or_app. right. now left. }
    apply in_map_iff in Hin as (c & Hc & _). discriminate.
  - now subst.
  - assert (Hin : In (VDict f) (map (fun kv => VStr (fst kv)) kvs)).
    { rewrite Hit. apply in_or_app. right. now left. }
    apply in_map_iff in Hin as (c & Hc & _). discriminate.
Qed.

(** When [update_plugin] returns: the catalog it found, the plugin it
    changed, and the file it left. *)
Lemma update_plugin_inv self self' name description version category
    keywords add_agent remove_agent add_command remove_command add_skill
    remove_skill :
  Updater.update_plugin name description version category keywords add_agent
    remove_agent add_command remove_command add_skill remove_skill self
  = (Done tt, self') ->
  exists d pre f post f',
    Updater.marketplace_file self = Updater.Document (VDict d)
    /\ Updater.read_only self = false
    /\ lookup "plugins" d = Some (VList (map VDict pre ++ VDict f :: post))
    /\ forallb (fun g => negb (named name g)) pre = true
    /\ named name f = true
    /\ Updater.run_steps
         [ Updater.add_component "agents" "./agents/" add_agent;
           Updater.remove_component "agents" "./agents/" remove_agent;
           Updater.add_component "commands" "./commands/" add_command;
           Updater.remove_component "commands" "./commands/" remove_command;
           Updater.add_component "skills" "./skills/" add_skill;
           Updater.remove_component "skills" "./skills/" remove_skill ]
         (Updater.set_given "keywords"
            (option_map (fun ks => VList (map VStr ks)) (given_list keywords))
            (Updater.set_given "category"
               (option_map VStr (given_str category))
               (Updater.set_given "version"
                  (option_map VStr (given_str version))
                  (Updater.set_given "description"
                     (option_map VStr (given_str description)) f))))
       = (None, f')
    /\ self'
       = saved self
           (VDict (setitem d "plugins"
                     (VList (map VDict pre ++ VDict f' :: post)))).
Proof.
  unfold Updater.update_plugin. intros H.
  apply bind_u_inv in H as ([] & s1 & H1 & H).
  apply load_inv in H1 as (v & Hfile & ->).
  apply bind_u_inv in H as (found & s2 & H2 & H).
  destruct (find_plugin_dict _ _ _ _ H2) as [->|[d Hd]]; [discriminate |].
  cbn [loaded Updater.marketplace_data] in Hd. subst v.
  apply (find_plugin_inv _ name d) in H2 as [-> Hfind]; [| reflexivity].
  destruct Hfind as [[_ ->]|(plugins & items & Hl & Hit & Hfind)];
    [discriminate |].
  destruct found as [[i f]|]; [| discriminate].
  apply find_from_inv in Hfind as (pre & post & Hitems & -> & Hpre & Hf).
  rewrite (iterate_holds_dict _ _ _ _ _ Hit Hitems) in Hl. subst items.
  rewrite (named_truthy name f Hf) in H. cbn [negb] in H. cbv zeta in H.
  match type of H with
  | context [Updater.run_steps ?steps ?g] =>
      destruct (Updater.run_steps steps g) as [raised f'] eqn:Hrun
  end.
  apply bind_u_inv in H as ([] & s3 & H3 & H).
  rewrite (put_plugins_run (loaded self (VDict d)) d _ _ eq_refl Hl) in H3.
  injection H3 as <-.
  destruct raised as [e|]; [discriminate |].
  apply save_inv in H as [Hro ->].
  exists d, pre, f, post, f'.
  repeat (split; [assumption || exact Hro |]).
  cbn [Nat.add]. rewrite <- (length_map VDict pre), set_nth_app.
  reflexivity.
Qed.

(** X17. An update that gives nothing changes nothing: when every
    argument of [update_plugin] is absent or empty, the document in the
    file is afterwards what it was, whether the call returns or raises.
    In particular an empty string does not clear a description, a version
    or a category, and an empty list does not clear the keywords. *)
Theorem update_plugin_nothing_given (self : Updater.MarketplaceUpdater)
    (name : string) (description version category : option string)
    (keywords : option (list string))
    (add_agent remove_agent add_command remove_command
     add_skill remove_skill : option string) :
  given_str description = None -> given_str version = None ->
  given_str category = None -> given_list keywords = None ->
  given_str add_agent = None -> given_str remove_agent = None ->
  given_str add_command = None -> given_str remove_command = None ->
  given_str add_skill = None -> given_str remove_skill = None ->
  Updater.marketplace_file
    (snd (Updater.update_plugin name description version category keywords
            add_agent remove_agent add_command remove_command add_skill
            remove_skill self))
  = Updater.marketplace_file self.
Proof.
  intros H1 H2 H3 H4 H5 H6 H7 H8 H9 H10.
  destruct (Updater.update_plugin name description version category keywords
              add_agent remove_agent add_command remove_command add_skill
              remove_skill self) as [[[]|e] self'] eqn:E; cbn [snd].
  - apply update_plugin_inv in E
      as (d & pre & f & post & f' & Hfile & _ & Hl & _ & _ & Hrun & ->).
    rewrite H1, H2, H3, H4 in Hrun. cbn [option_map Updater.set_given] in Hrun.
    unfold Updater.add_component, Updater.remove_component in Hrun.
    rewrite H5, H6, H7, H8, H9, H10 in Hrun. cbn [Updater.run_steps] in Hrun.
    injection Hrun as <-.
    rewrite Hfile. unfold saved. cbn [Updater.marketplace_file].
    now rewrite (setitem_same_id _ _ _ Hl).
  - eapply update_plugin_atomic. exact E.
Qed.

(** The example catalog, with an empty description for its plugin. *)
Lemma update_plugin_nothing_given_witness :
  Updater.marketplace_file
    (snd (Updater.update_plugin "a" (Some "") None None (Some []) None None
            None None None None example_updater))
  = Updater.marketplace_file example_updater.
Proof.
  apply (update_plugin_nothing_given example_updater "a" (Some "") None None
           (Some []) None None None None None None);
    reflexivity.
Defined.

Lemma given_str_some a : a <> "" -> given_str (Some a) = Some a.
Proof.
  intros H. unfold given_str, given. apply String.eqb_neq in H.
  now rewrite H.
Qed.

Lemma existsb_snoc {A} (p : A -> bool) xs x :
  existsb p (xs ++ [x]) = existsb p xs || p x.
Proof. rewrite existsb_app. cbn. now rewrite orb_false_r. Qed.

Lemma remove_str_last p : forall xs,
  existsb (is_str p) xs = false -> remove_str p (xs ++ [VStr p]) = xs.
Proof.
  induction xs as [|x xs IH]; cbn [existsb app remove_str]; intros H.
  - unfold is_str. now rewrite String.eqb_refl.
  - apply orb_false_iff in H as [Hx H]. now rewrite Hx, IH.
Qed.

(** Adding a component that is not listed puts its path last. *)
Lemma add_component_fresh key prefix a f xs :
  a <> "" -> lookup key f = Some (VList xs) ->
  existsb (is_str (prefix ++ a)) xs = false ->
  Updater.add_component key prefix (Some a) f
  = Ok (setitem f key (VList (xs ++ [VStr (prefix ++ a)]))).
Proof.
  intros Ha Hl Hx. unfold Updater.add_component.
  rewrite (given_str_some a Ha), (contains_lookup _ _ _ Hl). cbn [negb].
  unfold getitem. rewrite Hl. cbn [bind has]. rewrite Hx. cbn [negb].
  reflexivity.
Qed.

(** Adding a component that is listed changes nothing. *)
Lemma add_component_listed key prefix a f xs :
  a <> "" -> lookup key f = Some (VList xs) ->
  existsb (is_str (prefix ++ a)) xs = true ->
  Updater.add_component key prefix (Some a) f = Ok f.
Proof.
  intros Ha Hl Hx. unfold Updater.add_component.
  rewrite (given_str_some a Ha), (contains_lookup _ _ _ Hl). cbn [negb].
  unfold getitem. rewrite Hl. cbn [bind has]. rewrite Hx. reflexivity.
Qed.

(** Removing the component that was listed last, and only there. *)
Lemma remove_component_last key prefix a g xs :
  a <> "" -> lookup key g = Some (VList (xs ++ [VStr (prefix ++ a)])) ->
  existsb (is_str (prefix ++ a)) xs = false ->
  Updater.remove_component key prefix (Some a) g
  = Ok (setitem g key (VList xs)).
Proof.
  intros Ha Hl Hx. unfold Updater.remove_component.
  rewrite (given_str_some a Ha), (contains_lookup _ _ _ Hl).
  unfold getitem. rewrite Hl. cbn [bind has].
  rewrite existsb_snoc. unfold is_str at 2. rewrite String.eqb_refl, orb_true_r.
  cbn [list_remove bind]. now rewrite remove_str_last.
Qed.

Lemma named_setitem name f k x :
  k <> "name" -> named name (setitem f k x) = named name f.
Proof.
  intros Hk. unfold named. rewrite lookup_setitem_other by congruence.
  reflexivity.
Qed.

(** X18. Adding an agent to a plugin and removing it again.  On a catalog
    that can be written and in which the plugin is found with a list of
    agents that does not hold the agent, [update_plugin] with [add_agent]
    puts [./agents/<agent>] at the end of that list and leaves everything
    else in the document as it is; [update_plugin] with [remove_agent]
    for the same agent then gives back the document of the start. *)
Theorem update_plugin_add_then_remove (self : Updater.MarketplaceUpdater)
    (d : list (string * value)) (pre : list (list (string * value)))
    (f : list (string * value)) (post : list value) (name a : string)
    (xs : list value) :
  Updater.marketplace_file self = Updater.Document (VDict d) ->
  Updater.read_only self = false ->
  lookup "plugins" d = Some (VList (map VDict pre ++ VDict f :: post)) ->
  forallb (fun g => negb (named name g)) pre = true ->
  named name f = true ->
  a <> "" ->
  lookup "agents" f = Some (VList xs) ->
  existsb (is_str ("./agents/" ++ a)) xs = false ->
  exists self1,
    Updater.update_plugin name None None None None (Some a) None None None
      None None self
    = (Done tt, self1)
    /\ Updater.marketplace_file self1
       = Updater.Document
           (VDict
              (setitem d "plugins"
                 (VList
                    (map VDict pre
                     ++ VDict
                          (setitem f "agents"
                             (VList (xs ++ [VStr ("./agents/" ++ a)])))
                        :: post))))
    /\ Updater.update_plugin name None None None None None (Some a) None None
         None None self1
       = (Done tt, saved self (VDict d)).
Proof.
  intros Hfile Hro Hl Hpre Hf Ha Hag Hx.
  set (f1 := setitem f "agents" (VList (xs ++ [VStr ("./agents/" ++ a)]))).
  set (d1 := setitem d "plugins" (VList (map VDict pre ++ VDict f1 :: post))).
  exists (saved self (VDict d1)). split; [| split].
  - apply (update_plugin_run self d pre f post); try assumption.
    cbn [given_str given_list given option_map Updater.set_given
         Updater.run_steps].
    rewrite (add_component_fresh _ _ _ _ _ Ha Hag Hx). reflexivity.
  - reflexivity.
  - rewrite (update_plugin_run (saved self (VDict d1)) d1 pre f1 post name
               None None None None None (Some a) None None None None f).
    + unfold d1. rewrite setitem_twice, (setitem_same_id _ _ _ Hl).
      reflexivity.
    + reflexivity.
    + exact Hro.
    + apply lookup_setitem_same.
    + assumption.
    + unfold f1. rewrite named_setitem by discriminate. assumption.
    + cbn [given_str given_list given option_map Updater.set_given
           Updater.run_steps Updater.add_component].
      rewrite (remove_component_last "agents" "./agents/" a f1 xs Ha).
      * unfold f1. rewrite setitem_twice, (setitem_same_id _ _ _ Hag).
        reflexivity.
      * apply lookup_setitem_same.
      * assumption.
Qed.

(** The example catalog, a second agent added to its plugin and removed
    again. *)
Lemma update_plugin_add_then_remove_witness :
  exists self1,
    Updater.update_plugin "a" None None None None (Some "y.md") None None
      None None None example_updater
    = (Done tt, self1)
    /\ Updater.marketplace_file self1
       = Updater.Document
           (VDict
              (setitem example_catalog "plugins"
                 (VList
                    (map VDict []
                     ++ VDict
                          (setitem
                             [ ("name", VStr "a");
                               ("source", VStr "./plugins/a");
                               ("description", VStr "first");
                               ("version", VStr "1.0");
                               ("agents", VList [VStr "./agents/x.md"]) ]
                             "agents"
                             (VList ([VStr "./agents/x.md"]
                                     ++ [VStr ("./agents/" ++ "y.md")])))
                        :: []))))
    /\ Updater.update_plugin "a" None None None None None (Some "y.md") None
         None None None self1
       = (Done tt, saved example_updater (VDict example_catalog)).
Proof.
  apply (update_plugin_add_then_remove example_updater example_catalog []
           [ ("name", VStr "a"); ("source", VStr "./plugins/a");
             ("description", VStr "first"); ("version", VStr "1.0");
             ("agents", VList [VStr "./agents/x.md"]) ]
           [] "a" "y.md" [VStr "./agents/x.md"]);
    try reflexivity.
  discriminate.
Defined.

(** *** Validation *)


Lemma agree_refl {A B} (view : A -> B) r : agree view r r.
Proof. now destruct r. Qed.

Section Files.
Variables (joinpath joinpath' : string -> list string -> string).
Variables (path_exists path_exists' : string -> bool).






End Files.


(** *** Validation after an addition *)

Section Checks.
Variable joinpath : string -> list string -> string.
Variable path_exists : string -> bool.




End Checks.


Lemma lookup_app {A} k (a b : list (string * A)) :
  lookup k (a ++ b)
  = match lookup k a with Some x => Some x | None => lookup k b end.
Proof.
  induction a as [|[k' x] a IH]; cbn [app lookup]; [reflexivity |].
  now destruct (String.eqb k' k).
Qed.



Lemma validate_run joinpath path_exists self v :
  Updater.marketplace_file self = Updater.Document v ->
  Updater.validate joinpath path_exists self
  = match Updater.check joinpath path_exists v with
    | Ok checked =>
        (Done (match fst checked with [] => true | _ => false end,
               fst checked, snd checked),
         loaded self v)
    | Raise e => (Failed (Exn e), loaded self v)
    end.
Proof.
  intros Hfile. unfold Updater.validate.
  rewrite (bind_u_done _ _ _ _ _ (load_document _ _ Hfile)).
  rewrite (bind_u_done _ _ _ v (loaded self v)) by reflexivity.
  unfold Updater.bind_u, Updater.try.
  now destruct (Updater.check joinpath path_exists v).
Qed.






(** *** What a passed validation tells *)

Lemma missing_fields_nil report v : forall fields,
  Updater.missing_fields report fields v = Ok [] ->
  forall field, In field fields -> has field v = Ok true.
Proof.
  induction fields as [|f fields IH]; intros H field Hin; [contradiction |].
  cbn [Updater.missing_fields] in H.
  destruct (has f v) as [present|e] eqn:E; cbn [bind] in H; [| discriminate].
  destruct (Updater.missing_fields report fields v) as [found|e];
    cbn [bind] in H; [| discriminate].
  destruct present; [| discriminate]. injection H as ->.
  destruct Hin as [<-|Hin]; auto.
Qed.

Lemma subscript_dict v k x :
  subscript v k = Ok x -> exists d, v = VDict d /\ lookup k d = Some x.
Proof.
  destruct v as [| | | | |d]; try discriminate. cbn [subscript].
  unfold getitem. destruct (lookup k d) eqn:E; [| discriminate].
  intros [= <-]. now exists d.
Qed.

Lemma same_member_refl n :
  Updater.hashable n = true -> Updater.same_member n n = true.
Proof.
  destruct n as [|b|z|s|xs|kvs]; try discriminate; intros _;
    cbn [Updater.same_member Updater.as_number].
  - reflexivity.
  - apply Z.eqb_refl.
  - apply Z.eqb_refl.
  - apply String.eqb_refl.
Qed.

Section Passed.
Variable joinpath : string -> list string -> string.
Variable path_exists : string -> bool.

(** A turn of the loop that reports no error. *)
Lemma check_plugin_passed i item names warnings names' :
  Updater.check_plugin joinpath path_exists i item names
  = Ok ([], warnings, names') ->
  exists f n,
    item = VDict f
    /\ (forall field,
          In field ["name"; "source"; "description"; "version"] ->
          contains field f = true)
    /\ lookup "name" f = Some n
    /\ ~ In n names
    /\ names' = (names ++ [n])%list.
Proof.
  unfold Updater.check_plugin.
  destruct (Updater.missing_fields _ _ item) as [missing|e] eqn:Em;
    cbn [bind]; [| discriminate].
  destruct (has "name" item) as [named|e] eqn:En; cbn [bind];
    [| discriminate].
  destruct named.
  2:{ intros [= -> _ _].
      rewrite (missing_fields_nil _ _ _ Em "name") in En by now left.
      discriminate. }
  destruct (subscript item "name") as [n|e] eqn:Es; cbn [bind];
    [| discriminate].
  apply subscript_dict in Es as (f & -> & Hn).
  destruct (Updater.hashable n) eqn:Hh; cbn [negb]; [| discriminate].
  destruct (Updater.component_warnings _ _ _ _ _ Agent _); cbn [bind];
    [| discriminate].
  destruct (Updater.component_warnings _ _ _ _ _ Command _); cbn [bind];
    [| discriminate].
  destruct (Updater.component_warnings _ _ _ _ _ Skill _); cbn [bind];
    [| discriminate].
  intros [= E _ <-]. apply app_eq_nil in E as [-> Hdup].
  destruct (existsb (Updater.same_member n) names) eqn:Ex;
    [discriminate |].
  exists f, n. repeat split; try assumption.
  - intros field Hin.
    pose proof (missing_fields_nil _ _ _ Em field Hin) as H.
    cbn [has] in H. now injection H.
  - intros Hin.
    assert (existsb (Updater.same_member n) names = true).
    { apply existsb_exists. exists n. split; [assumption |].
      now apply same_member_refl. }
    congruence.
Qed.

Lemma check_plugins_passed : forall items i names warnings,
  Updater.check_plugins joinpath path_exists i items names
  = Ok ([], warnings) ->
  exists pls,
    items = map VDict pls
    /\ (forall f field,
          In f pls ->
          In field ["name"; "source"; "description"; "version"] ->
          contains field f = true)
    /\ NoDup (map (lookup "name") pls)
    /\ forall f n, In f pls -> lookup "name" f = Some n -> ~ In n names.
Proof.
  induction items as [|item items IH]; intros i names warnings H.
  - exists []. repeat split; try contradiction. constructor.
  - cbn [Updater.check_plugins] in H.
    destruct (Updater.check_plugin joinpath path_exists i item names)
      as [[[e w] n1]|err] eqn:E; cbn [bind] in H; [| discriminate].
    destruct (Updater.check_plugins joinpath path_exists (S i) items n1)
      as [[e' w']|err] eqn:E'; cbn [bind fst snd] in H; [| discriminate].
    injection H as He _. apply app_eq_nil in He as [-> ->].
    apply check_plugin_passed in E as (f & n & -> & Hf & Hn & Hfresh & ->).
    apply IH in E' as (pls & -> & Hpls & Hnd & Hnames).
    exists (f :: pls). repeat split.
    + intros g field [<-|Hg]; auto.
    + cbn [map]. constructor; [| assumption].
      rewrite Hn. intros Hin. apply in_map_iff in Hin as (g & Hg & Hin).
      apply (Hnames g n Hin Hg). apply in_or_app. right. now left.
    + intros g m [<-|Hg] Hm.
      * congruence.
      * intros Hin. apply (Hnames g m Hg Hm). apply in_or_app. now left.
Qed.

End Passed.

(** X21. What a passed validation tells.  [validate] returns [True] only
    for a file that holds an object with the keys [name], [owner],
    [metadata] and [plugins], whose plugins are objects that each have
    the keys [name], [source], [description] and [version], and no two of
    which have the same name. *)
Theorem validate_passed (joinpath : string -> list string -> string)
    (path_exists : string -> bool) (self : Updater.MarketplaceUpdater)
    (errors : list Updater.problem) (warnings : list Updater.warning) :
  fst (Updater.validate joinpath path_exists self)
  = Done (true, errors, warnings) ->
  exists d plugins pls,
    Updater.marketplace_file self = Updater.Document (VDict d)
    /\ (forall field,
          In field ["name"; "owner"; "metadata"; "plugins"] ->
          contains field d = true)
    /\ lookup "plugins" d = Some plugins
    /\ iterate plugins = Ok (map VDict pls)
    /\ (forall f field,
          In f pls ->
          In field ["name"; "source"; "description"; "version"] ->
          contains field f = true)
    /\ NoDup (map (lookup "name") pls).
Proof.
  intros H.
  destruct (Updater.marketplace_file self) as [| | |v] eqn:Hfile;
    try (unfold Updater.validate, Updater.bind_u, Updater.load in H;
         rewrite Hfile in H; discriminate).
  rewrite (validate_run _ _ _ _ Hfile) in H.
  destruct (Updater.check joinpath path_exists v) as [[e w]|err] eqn:E;
    [| discriminate].
  cbn [fst snd] in H. destruct e; [| discriminate]. clear H.
  unfold Updater.check in E.
  destruct (Updater.missing_fields _ _ v) as [e0|err] eqn:E0; cbn [bind] in E;
    [| discriminate].
  destruct (has "plugins" v) as [hp|err] eqn:Ehp; cbn [bind] in E;
    [| discriminate].
  destruct hp.
  2:{ injection E as -> _.
      rewrite (missing_fields_nil _ _ _ E0 "plugins") in Ehp
        by (cbn; auto).
      discriminate. }
  destruct (subscript v "plugins") as [plugins|err] eqn:Es; cbn [bind] in E;
    [| discriminate].
  apply subscript_dict in Es as (d & -> & Hl).
  destruct (iterate plugins) as [items|err] eqn:Ei; cbn [bind] in E;
    [| discriminate].
  destruct (Updater.check_plugins joinpath path_exists 0 items [])
    as [[e1 w1]|err] eqn:E1; cbn [bind fst snd] in E; [| discriminate].
  injection E as He _. apply app_eq_nil in He as [-> ->].
  apply check_plugins_passed in E1 as (pls & -> & Hpls & Hnd & _).
  exists d, plugins, pls. repeat split; try assumption.
  intros field Hin. pose proof (missing_fields_nil _ _ _ E0 field Hin) as H.
  cbn [has] in H. now injection H.
Qed.

(** The example catalog passes, over no files at all. *)
Lemma validate_passed_witness :
  exists d plugins pls,
    Updater.marketplace_file example_updater = Updater.Document (VDict d)
    /\ (forall field,
          In field ["name"; "owner"; "metadata"; "plugins"] ->
          contains field d = true)
    /\ lookup "plugins" d = Some plugins
    /\ iterate plugins = Ok (map VDict pls)
    /\ (forall f field,
          In f pls ->
          In field ["name"; "source"; "description"; "version"] ->
          contains field f = true)
    /\ NoDup (map (lookup "name") pls).
Proof.
  eapply (validate_passed (fun base parts => join "/" (base :: parts))
            (fun _ => false) example_updater).
  reflexivity.
Defined.

(** *** A name that no plugin bears *)

Lemma find_plugin_absent self d pls name :
  Updater.marketplace_data self = VDict d ->
  (lookup "plugins" d = None
   \/ lookup "plugins" d = Some (VList (map VDict pls))) ->
  forallb (fun g => negb (named name g)) pls = true ->
  Updater._find_plugin name self = (Done None, self).
Proof.
  intros Hd [Hl|Hl] Hpls.
  - unfold Updater._find_plugin, Updater.bind_u, Updater.get_data.
    rewrite Hd. unfold Updater.try. cbn [has]. unfold contains.
    now rewrite Hl.
  - rewrite (find_plugin_run self d _ name Hd Hl).
    now rewrite find_from_none.
Qed.

(** X22. Updating or removing a plugin under a name that no plugin of the
    catalog bears raises the [ValueError] that says it was not found, and
    leaves the file as it is. *)
Theorem unknown_plugin_not_found (self : Updater.MarketplaceUpdater)
    (d : list (string * value)) (pls : list (list (string * value)))
    (name : string) (description version category : option string)
    (keywords : option (list string))
    (add_agent remove_agent add_command remove_command
     add_skill remove_skill : option string) :
  Updater.marketplace_file self = Updater.Document (VDict d) ->
  (lookup "plugins" d = None
   \/ lookup "plugins" d = Some (VList (map VDict pls))) ->
  forallb (fun g => negb (named name g)) pls = true ->
  Updater.update_plugin name description version category keywords add_agent
    remove_agent add_command remove_command add_skill remove_skill self
  = (Failed (ValueError ("Plugin '" ++ name ++ "' not found in marketplace")),
     loaded self (VDict d))
  /\ Updater.remove_plugin name self
     = (Failed (ValueError ("Plugin '" ++ name
                            ++ "' not found in marketplace")),
        loaded self (VDict d)).
Proof.
  intros Hfile Hl Hpls. split.
  - unfold Updater.update_plugin.
    rewrite (bind_u_done _ _ _ _ _ (load_document _ _ Hfile)).
    rewrite (bind_u_done _ _ _ None (loaded self (VDict d)));
      [reflexivity |].
    now apply (find_plugin_absent _ d pls).
  - unfold Updater.remove_plugin.
    rewrite (bind_u_done _ _ _ _ _ (load_document _ _ Hfile)).
    rewrite (bind_u_done _ _ _ None (loaded self (VDict d)));
      [reflexivity |].
    now apply (find_plugin_absent _ d pls).
Qed.

(** The example catalog, asked about a plugin it does not have. *)
Lemma unknown_plugin_not_found_witness :
  Updater.update_plugin "z" (Some "new") None None None None None None None
    None None example_updater
  = (Failed (ValueError ("Plugin '" ++ "z" ++ "' not found in marketplace")),
     loaded example_updater (VDict example_catalog))
  /\ Updater.remove_plugin "z" example_updater
     = (Failed (ValueError ("Plugin '" ++ "z"
                            ++ "' not found in marketplace")),
        loaded example_updater (VDict example_catalog)).
Proof.
  apply (unknown_plugin_not_found example_updater example_catalog
           [[ ("name", VStr "a"); ("source", VStr "./plugins/a");
              ("description", VStr "first"); ("version", VStr "1.0");
              ("agents", VList [VStr "./agents/x.md"]) ]]
           "z" (Some "new") None None None None None None None None None).
  - reflexivity.
  - right. reflexivity.
  - reflexivity.
Defined.

(** *** Updating twice *)

Lemma settles_set_given K x :
  settles K (fun g => Ok (Updater.set_given K x g)).
Proof.
  intros g g' [= <-]. destruct x as [x|]; cbn [Updater.set_given].
  - split.
    + intros K' HK. now apply lookup_setitem_other.
    + intros h Hh. rewrite lookup_setitem_same in Hh.
      now rewrite (setitem_same_id _ _ _ Hh).
  - auto.
Qed.

Lemma settles_skip K key prefix x :
  given_str x = None ->
  settles K (Updater.remove_component key prefix x).
Proof.
  intros Hx g g'. unfold Updater.remove_component. rewrite Hx.
  intros [= <-]. auto.
Qed.

Lemma settles_add_component K prefix x :
  settles K (Updater.add_component K prefix x).
Proof.
  intros g g'. unfold Updater.add_component.
  destruct (given_str x) as [a|]; [| intros [= <-]; auto].
  assert (Hstable : forall L h,
            has (prefix ++ a) L = Ok true -> lookup K h = Some L ->
            (let plugin :=
               if negb (contains K h) then setitem h K (VList []) else h in
             listed <- getitem plugin K ;;
             present <- has (prefix ++ a) listed ;;
             (if negb present
              then listed <- getitem plugin K ;;
                   listed <- list_append listed (VStr (prefix ++ a)) ;;
                   Ok (setitem plugin K listed)
              else Ok plugin)) = Ok h).
  { intros L h HL Hh. cbv zeta. rewrite (contains_lookup _ _ _ Hh).
    cbn [negb]. unfold getitem. rewrite Hh. cbn [bind]. rewrite HL.
    reflexivity. }
  unfold contains. destruct (lookup K g) as [L|] eqn:El; cbn [negb].
  - unfold getitem. rewrite El. cbn [bind].
    destruct (has (prefix ++ a) L) as [[]|e] eqn:Eh; cbn [bind negb];
      try discriminate.
    + intros [= <-]. split; [auto |]. intros h Hh. rewrite El in Hh.
      now apply (Hstable L).
    + destruct L as [| | | |xs|]; try discriminate. cbn [list_append bind].
      intros [= <-]. split.
      * intros K' HK. now apply lookup_setitem_other.
      * intros h Hh. rewrite lookup_setitem_same in Hh.
        apply (Hstable (VList (xs ++ [VStr (prefix ++ a)])) h);
          [| exact Hh].
        cbn [has]. rewrite existsb_snoc. unfold is_str at 2.
        now rewrite String.eqb_refl, orb_true_r.
  - unfold getitem. rewrite lookup_setitem_same. cbn [bind has existsb negb].
    cbn [list_append bind app]. rewrite setitem_twice.
    intros [= <-]. split.
    + intros K' HK. now apply lookup_setitem_other.
    + intros h Hh. rewrite lookup_setitem_same in Hh.
      apply (Hstable (VList [VStr (prefix ++ a)]) h); [| exact Hh].
      cbn [has existsb]. unfold is_str. now rewrite String.eqb_refl.
Qed.

(** Steps on different keys, done a second time, change nothing. *)
Lemma run_steps_twice :
  forall (steps : list (string
                        * (list (string * value)
                           -> result (list (string * value))))),
  NoDup (map fst steps) ->
  Forall (fun ks => settles (fst ks) (snd ks)) steps ->
  forall f f',
    Updater.run_steps (map snd steps) f = (None, f') ->
    Updater.run_steps (map snd steps) f' = (None, f')
    /\ forall K', ~ In K' (map fst steps) -> lookup K' f' = lookup K' f.
Proof.
  induction steps as [|[K s] steps IH]; intros Hnd Hall f f' H.
  - cbn [map Updater.run_steps] in *. injection H as <-. auto.
  - cbn [map fst snd Updater.run_steps] in *.
    inversion Hnd as [|? ? HK Hnd']; subst.
    inversion Hall as [|? ? Hs Hall']; subst. cbn [fst snd] in Hs.
    destruct (s f) as [f1|e] eqn:E; [| discriminate].
    destruct (IH Hnd' Hall' f1 f' H) as [Hrun Hframe].
    destruct (Hs f f1 E) as [Hother Hstable].
    split.
    + rewrite (Hstable f' (Hframe K HK)). exact Hrun.
    + intros K' HK'.
      rewrite Hframe by (intros Hin; apply HK'; now right). apply Hother.
      intros ->. apply HK'. now left.
Qed.

(** X23. An update that only sets fields and adds components can be
    repeated: when [update_plugin] without [remove_...] arguments
    returns, the same call on the updater as it left it returns too and
    leaves the updater, and so the file, as the first call left them. *)
Theorem update_plugin_twice (self self1 : Updater.MarketplaceUpdater)
    (name : string) (description version category : option string)
    (keywords : option (list string))
    (add_agent add_command add_skill : option string) :
  Updater.update_plugin name description version category keywords add_agent
    None add_command None add_skill None self
  = (Done tt, self1) ->
  Updater.update_plugin name description version category keywords add_agent
    None add_command None add_skill None self1
  = (Done tt, self1).
Proof.
  intros H.
  apply update_plugin_inv in H
    as (d & pre & f & post & f' & Hfile & Hro & Hl & Hpre & Hf & Hrun & ->).
  set (steps :=
         [ ("description",
            fun g => Ok (Updater.set_given "description"
                           (option_map VStr (given_str description)) g));
           ("version",
            fun g => Ok (Updater.set_given "version"
                           (option_map VStr (given_str version)) g));
           ("category",
            fun g => Ok (Updater.set_given "category"
                           (option_map VStr (given_str category)) g));
           ("keywords",
            fun g => Ok (Updater.set_given "keywords"
                           (option_map (fun ks => VList (map VStr ks))
                              (given_list keywords)) g));
           ("agents", Updater.add_component "agents" "./agents/" add_agent);
           ("remove_agent",
            Updater.remove_component "agents" "./agents/" None);
           ("commands",
            Updater.add_component "commands" "./commands/" add_command);
           ("remove_command",
            Updater.remove_component "commands" "./commands/" None);
           ("skills", Updater.add_component "skills" "./skills/" add_skill);
           ("remove_skill",
            Updater.remove_component "skills" "./skills/" None) ]).
  destruct (run_steps_twice steps) with (f := f) (f' := f')
    as [Hagain Hframe].
  { unfold steps. cbn [map fst].
    repeat constructor; cbn [In]; intuition discriminate. }
  { unfold steps.
    repeat (apply Forall_cons;
            [ cbn [fst snd];
              first [ apply settles_set_given | apply settles_add_component
                    | now apply settles_skip ] |]).
    apply Forall_nil. }
  { exact Hrun. }
  rewrite (update_plugin_run
             (saved self
                (VDict (setitem d "plugins"
                          (VList (map VDict pre ++ VDict f' :: post)))))
             (setitem d "plugins" (VList (map VDict pre ++ VDict f' :: post)))
             pre f' post name description version category keywords
             add_agent None add_command None add_skill None f').
  - now rewrite setitem_twice.
  - reflexivity.
  - exact Hro.
  - apply lookup_setitem_same.
  - assumption.
  - unfold named in *. rewrite Hframe; [assumption |].
    unfold steps. cbn [map fst In]. intuition discriminate.
  - exact Hagain.
Qed.

(** The example catalog, its plugin given a new version and an agent,
    twice. *)
Lemma update_plugin_twice_witness :
  Updater.update_plugin "a" None (Some "1.1") None None (Some "y.md") None
    None None None None
    (snd (Updater.update_plugin "a" None (Some "1.1") None None
            (Some "y.md") None None None None None example_updater))
  = (Done tt,
     snd (Updater.update_plugin "a" None (Some "1.1") None None
            (Some "y.md") None None None None None example_updater)).
Proof.
  apply (update_plugin_twice example_updater). reflexivity.
Defined.

(** *** The author and the links of a new plugin *)

(** X24. A plugin added without an author takes the owner of the catalog
    as its author, and the owner's URL as its homepage and repository
    exactly when that URL contains [github.com].  On a catalog that can
    be written, whose plugins are objects none of which bears the name
    and whose owner is an object with a string under [url], [add_plugin]
    returns, and the entry it appends is the one described. *)
Theorem add_plugin_from_owner (self : Updater.MarketplaceUpdater)
    (d : list (string * value)) (pls : list (list (string * value)))
    (owner : list (string * value)) (url : string)
    (name description version category : string)
    (agents commands skills keywords : option (list string))
    (license : string) (strict : bool) :
  Updater.marketplace_file self = Updater.Document (VDict d) ->
  Updater.read_only self = false ->
  lookup "plugins" d = Some (VList (map VDict pls)) ->
  forallb (fun g => negb (named name g)) pls = true ->
  lookup "owner" d = Some (VDict owner) ->
  lookup "url" owner = Some (VStr url) ->
  Updater.add_plugin name description version category agents commands
    skills keywords license strict None None self
  = (Done tt,
     saved self
       (VDict
          (setitem d "plugins"
             (VList
                (map VDict pls
                 ++ [VDict
                       (plugin_entry name description version category
                          license strict
                          (Some (VDict [("name",
                                         get_or owner "name" (VStr ""));
                                        ("url", VStr url)]))
                          (if occurs "github.com" url
                           then [("homepage", VStr url);
                                 ("repository", VStr url)]
                           else [])
                          keywords agents commands skills)]))))).
Proof.
  intros Hfile Hro Hl Hpls Ho Hu. unfold Updater.add_plugin.
  rewrite (bind_u_done _ _ _ _ _ (load_document _ _ Hfile)).
  rewrite (bind_u_done _ _ _ (VDict d) (loaded self (VDict d)))
    by reflexivity.
  rewrite (bind_u_done _ _ _ true (loaded self (VDict d)))
    by (unfold Updater.try; cbn [has]; now rewrite (contains_lookup _ _ _ Hl)).
  cbn [negb].
  rewrite (bind_u_done _ _ _ tt (loaded self (VDict d))) by reflexivity.
  rewrite (bind_u_done _ _ _ None (loaded self (VDict d)))
    by (apply (find_plugin_absent _ d pls); auto).
  rewrite (bind_u_done _ _ _ (VDict d) (loaded self (VDict d)))
    by reflexivity.
  rewrite (bind_u_done _ _ _
             (Some (VDict [("name", get_or owner "name" (VStr ""));
                           ("url", VStr url)]))
             (loaded self (VDict d))).
  2:{ unfold Updater.try, Updater.author_of.
      cbn [given_str given has subscript bind].
      rewrite (contains_lookup _ _ _ Ho). unfold getitem. rewrite Ho.
      cbn [bind dict_get]. unfold get_or at 2. rewrite Hu. reflexivity. }
  rewrite (bind_u_done _ _ _
             (if occurs "github.com" url
              then [("homepage", VStr url); ("repository", VStr url)]
              else [])
             (loaded self (VDict d))).
  2:{ unfold Updater.try, Updater.links_of. cbn [has subscript bind].
      rewrite (contains_lookup _ _ _ Ho). unfold getitem. rewrite Ho.
      cbn [bind has subscript]. rewrite (contains_lookup _ _ _ Hu).
      unfold getitem. rewrite Hu. cbn [bind has].
      now destruct (occurs "github.com" url). }
  rewrite (bind_u_done _ _ _ (VList (map VDict pls)) (loaded self (VDict d)))
    by (unfold Updater.try; cbn [subscript]; unfold getitem; now rewrite Hl).
  unfold Updater.bind_u, Updater.try.
  cbn [list_append assign_item Updater.set_data].
  rewrite save_run by exact Hro. reflexivity.
Qed.

(** The example catalog, whose owner is on GitHub, given a second
    plugin. *)
Lemma add_plugin_from_owner_witness :
  Updater.add_plugin "b" "second" "0.1" "general" None None None None "MIT"
    false None None example_updater
  = (Done tt,
     saved example_updater
       (VDict
          (setitem example_catalog "plugins"
             (VList
                (map VDict
                   [[ ("name", VStr "a"); ("source", VStr "./plugins/a");
                      ("description", VStr "first"); ("version", VStr "1.0");
                      ("agents", VList [VStr "./agents/x.md"]) ]]
                 ++ [VDict
                       (plugin_entry "b" "second" "0.1" "general" "MIT" false
                          (Some (VDict [("name",
                                         get_or
                                           [("name", VStr "o");
                                            ("url",
                                             VStr "https://github.com/o")]
                                           "name" (VStr ""));
                                        ("url",
                                         VStr "https://github.com/o")]))
                          (if occurs "github.com" "https://github.com/o"
                           then [("homepage", VStr "https://github.com/o");
                                 ("repository", VStr "https://github.com/o")]
                           else [])
                          None None None None)]))))).
Proof.
  apply (add_plugin_from_owner example_updater example_catalog
           [[ ("name", VStr "a"); ("source", VStr "./plugins/a");
              ("description", VStr "first"); ("version", VStr "1.0");
              ("agents", VList [VStr "./agents/x.md"]) ]]
           [("name", VStr "o"); ("url", VStr "https://github.com/o")]
           "https://github.com/o");
    reflexivity.
Defined.

(* ===================================================================== *)
(** ** The time stamp, from the clock to the page *)
(* ===================================================================== *)








(* ===================================================================== *)
(** ** Adding a plugin and removing it again *)
(* ===================================================================== *)

Lemma named_plugin_entry name description version category license strict
    author links keywords agents commands skills :
  named name
    (plugin_entry name description version category license strict author
       links keywords agents commands skills) = true.
Proof.
  unfold named, plugin_entry. cbn [app lookup String.eqb Ascii.eqb Bool.eqb].
  unfold is_str. apply String.eqb_refl.
Qed.

(** X26. Round trip of the catalog: on a catalog that has a [plugins]
    key, removing a plugin right after [add_plugin] has added it gives
    back the document of the start. *)
Theorem add_then_remove (self self1 : Updater.MarketplaceUpdater)
    (d : list (string * value)) (plugins : value)
    (name description version category : string)
    (agents commands skills keywords : option (list string))
    (license : string) (strict : bool)
    (author_name author_url : option string) :
  Updater.marketplace_file self = Updater.Document (VDict d) ->
  lookup "plugins" d = Some plugins ->
  Updater.add_plugin name description version category agents commands
    skills keywords license strict author_name author_url self
  = (Done tt, self1) ->
  Updater.remove_plugin name self1 = (Done tt, saved self (VDict d)).
Proof.
  intros Hfile Hl Hadd.
  apply add_plugin_inv in Hadd
    as (d' & pls & author & links & Hfile' & Hro & Hcase & Hpls & _ & ->).
  rewrite Hfile in Hfile'. injection Hfile' as <-.
  destruct Hcase as [[Hnone _]|Hl']; [congruence |].
  rewrite (remove_plugin_run _
             (setitem d "plugins"
                (VList
                   (map VDict pls
                    ++ [VDict
                          (plugin_entry name description version category
                             license strict author links keywords agents
                             commands skills)])))
             pls
             (plugin_entry name description version category license strict
                author links keywords agents commands skills)
             [] name).
  - rewrite setitem_twice, app_nil_r, (setitem_same_id _ _ _ Hl').
    reflexivity.
  - reflexivity.
  - exact Hro.
  - apply lookup_setitem_same.
  - assumption.
  - apply named_plugin_entry.
Qed.

(** The example catalog, a second plugin added and removed. *)
Lemma add_then_remove_witness :
  Updater.remove_plugin "b"
    (snd (Updater.add_plugin "b" "second" "0.1" "general" (Some ["y.md"])
            None None (Some ["k"]) "MIT" true None None example_updater))
  = (Done tt, saved example_updater (VDict example_catalog)).
Proof.
  apply (add_then_remove example_updater _ example_catalog
           (VList [VDict [ ("name", VStr "a"); ("source", VStr "./plugins/a");
                           ("description", VStr "first");
                           ("version", VStr "1.0");
                           ("agents", VList [VStr "./agents/x.md"]) ]])
           "b" "second" "0.1" "general" (Some ["y.md"]) None None (Some ["k"])
           "MIT" true None None);
    reflexivity.
Defined.

(* ===================================================================== *)
(** ** Catalogs that pass validation *)
(* ===================================================================== *)


Section Regular.
Variable joinpath : string -> list string -> string.
Variable path_exists : string -> bool.


End Regular.


